(** * CHZZK streamer blocker: the reconciliation engine

    A shallow embedding of the content script of the extension
    ([content.js] and its two context-menu variants) and the proofs of the
    properties stated for it.

    - JavaScript strings are sequences of UTF-16 code units ([list N]).
    - The document is a tree of nodes; an element is referred to by its
      path from the root, which plays the role of the object identity the
      script relies on ([new Set(cards)], [this.lastRightClickedCard]).
    - The inline style of an element is a finite map from property names
      to values, [classList] an ordered list of tokens.
    - The script state ([this.masterEnabled], ...) is a record that is
      passed explicitly; [chrome.storage.sync] is a finite map. *)

From Stdlib Require Import NArith String Ascii List Bool Lia.
From stdpp Require Import base option list gmap strings.

#[local] Set Warnings "-register-all".

Local Open Scope N_scope.
Local Open Scope list_scope.

(** ** JavaScript strings *)

Abbreviation jsstring := (list N).

(** A string literal of the source whose characters are all ASCII. *)
Definition lit (s : string) : jsstring :=
  map N_of_ascii (list_ascii_of_string s).

Definition cu_eqb (a b : N) : bool := N.eqb a b.

Fixpoint str_eqb (s t : jsstring) : bool :=
  match s, t with
  | [], [] => true
  | a :: s', b :: t' => cu_eqb a b && str_eqb s' t'
  | _, _ => false
  end.

(** The Basic Latin capital letters mapped to their small letters: the
    case folding of a regular expression with the flag [i] and no flag
    [u], as far as it concerns the words of the script (Basic Latin
    letters, the space and Hangul syllables). *)
Definition lowerCU (c : N) : N :=
  if (65 <=? c) && (c <=? 90) then c + 32 else c.

(** *** [String.prototype.toLowerCase]

    The string is read as a sequence of code points, every code point is
    replaced by its lower-case mapping of the Unicode Character Database
    (version 14.0: the simple mappings of [UnicodeData.txt] and the two
    entries of [SpecialCasing.txt] that depend on no language), and the
    result is written back as UTF-16. *)

(** The simple lower-case mappings.  An entry [(first, last, step, to)]
    maps [first], [first + step], ... up to [last] to [to], [to + step],
    ... *)
Definition lowerTable : list (N * N * N * N) :=
  [
    (65, 90, 1, 97); (192, 214, 1, 224); (216, 222, 1, 248); (256, 302, 2, 257);
    (306, 310, 2, 307); (313, 327, 2, 314); (330, 374, 2, 331); (376, 376, 1, 255);
    (377, 381, 2, 378); (385, 385, 1, 595); (386, 388, 2, 387); (390, 390, 1, 596);
    (391, 391, 1, 392); (393, 394, 1, 598); (395, 395, 1, 396); (398, 398, 1, 477);
    (399, 399, 1, 601); (400, 400, 1, 603); (401, 401, 1, 402); (403, 403, 1, 608);
    (404, 404, 1, 611); (406, 406, 1, 617); (407, 407, 1, 616); (408, 408, 1, 409);
    (412, 412, 1, 623); (413, 413, 1, 626); (415, 415, 1, 629); (416, 420, 2, 417);
    (422, 422, 1, 640); (423, 423, 1, 424); (425, 425, 1, 643); (428, 428, 1, 429);
    (430, 430, 1, 648); (431, 431, 1, 432); (433, 434, 1, 650); (435, 437, 2, 436);
    (439, 439, 1, 658); (440, 440, 1, 441); (444, 444, 1, 445); (452, 452, 1, 454);
    (453, 453, 1, 454); (455, 455, 1, 457); (456, 456, 1, 457); (458, 458, 1, 460);
    (459, 475, 2, 460); (478, 494, 2, 479); (497, 497, 1, 499); (498, 500, 2, 499);
    (502, 502, 1, 405); (503, 503, 1, 447); (504, 542, 2, 505); (544, 544, 1, 414);
    (546, 562, 2, 547); (570, 570, 1, 11365); (571, 571, 1, 572); (573, 573, 1, 410);
    (574, 574, 1, 11366); (577, 577, 1, 578); (579, 579, 1, 384); (580, 580, 1, 649);
    (581, 581, 1, 652); (582, 590, 2, 583); (880, 882, 2, 881); (886, 886, 1, 887);
    (895, 895, 1, 1011); (902, 902, 1, 940); (904, 906, 1, 941); (908, 908, 1, 972);
    (910, 911, 1, 973); (913, 929, 1, 945); (931, 939, 1, 963); (975, 975, 1, 983);
    (984, 1006, 2, 985); (1012, 1012, 1, 952); (1015, 1015, 1, 1016); (1017, 1017, 1, 1010);
    (1018, 1018, 1, 1019); (1021, 1023, 1, 891); (1024, 1039, 1, 1104); (1040, 1071, 1, 1072);
    (1120, 1152, 2, 1121); (1162, 1214, 2, 1163); (1216, 1216, 1, 1231); (1217, 1229, 2, 1218);
    (1232, 1326, 2, 1233); (1329, 1366, 1, 1377); (4256, 4293, 1, 11520); (4295, 4295, 1, 11559);
    (4301, 4301, 1, 11565); (5024, 5103, 1, 43888); (5104, 5109, 1, 5112); (7312, 7354, 1, 4304);
    (7357, 7359, 1, 4349); (7680, 7828, 2, 7681); (7838, 7838, 1, 223); (7840, 7934, 2, 7841);
    (7944, 7951, 1, 7936); (7960, 7965, 1, 7952); (7976, 7983, 1, 7968); (7992, 7999, 1, 7984);
    (8008, 8013, 1, 8000); (8025, 8031, 2, 8017); (8040, 8047, 1, 8032); (8072, 8079, 1, 8064);
    (8088, 8095, 1, 8080); (8104, 8111, 1, 8096); (8120, 8121, 1, 8112); (8122, 8123, 1, 8048);
    (8124, 8124, 1, 8115); (8136, 8139, 1, 8050); (8140, 8140, 1, 8131); (8152, 8153, 1, 8144);
    (8154, 8155, 1, 8054); (8168, 8169, 1, 8160); (8170, 8171, 1, 8058); (8172, 8172, 1, 8165);
    (8184, 8185, 1, 8056); (8186, 8187, 1, 8060); (8188, 8188, 1, 8179); (8486, 8486, 1, 969);
    (8490, 8490, 1, 107); (8491, 8491, 1, 229); (8498, 8498, 1, 8526); (8544, 8559, 1, 8560);
    (8579, 8579, 1, 8580); (9398, 9423, 1, 9424); (11264, 11311, 1, 11312); (11360, 11360, 1, 11361);
    (11362, 11362, 1, 619); (11363, 11363, 1, 7549); (11364, 11364, 1, 637); (11367, 11371, 2, 11368);
    (11373, 11373, 1, 593); (11374, 11374, 1, 625); (11375, 11375, 1, 592); (11376, 11376, 1, 594);
    (11378, 11378, 1, 11379); (11381, 11381, 1, 11382); (11390, 11391, 1, 575); (11392, 11490, 2, 11393);
    (11499, 11501, 2, 11500); (11506, 11506, 1, 11507); (42560, 42604, 2, 42561); (42624, 42650, 2, 42625);
    (42786, 42798, 2, 42787); (42802, 42862, 2, 42803); (42873, 42875, 2, 42874); (42877, 42877, 1, 7545);
    (42878, 42886, 2, 42879); (42891, 42891, 1, 42892); (42893, 42893, 1, 613); (42896, 42898, 2, 42897);
    (42902, 42920, 2, 42903); (42922, 42922, 1, 614); (42923, 42923, 1, 604); (42924, 42924, 1, 609);
    (42925, 42925, 1, 620); (42926, 42926, 1, 618); (42928, 42928, 1, 670); (42929, 42929, 1, 647);
    (42930, 42930, 1, 669); (42931, 42931, 1, 43859); (42932, 42946, 2, 42933); (42948, 42948, 1, 42900);
    (42949, 42949, 1, 642); (42950, 42950, 1, 7566); (42951, 42953, 2, 42952); (42960, 42960, 1, 42961);
    (42966, 42968, 2, 42967); (42997, 42997, 1, 42998); (65313, 65338, 1, 65345); (66560, 66599, 1, 66600);
    (66736, 66771, 1, 66776); (66928, 66938, 1, 66967); (66940, 66954, 1, 66979); (66956, 66962, 1, 66995);
    (66964, 66965, 1, 67003); (68736, 68786, 1, 68800); (71840, 71871, 1, 71872); (93760, 93791, 1, 93792);
    (125184, 125217, 1, 125218) ].
Fixpoint lookupLower (table : list (N * N * N * N)) (c : N) : N :=
  match table with
  | [] => c
  | (first, last, step, to) :: table' =>
      if (first <=? c) && (c <=? last) && ((c - first) mod step =? 0)
      then to + (c - first)
      else lookupLower table' c
  end.

Definition simpleLower (c : N) : N := lookupLower lowerTable c.

(** The properties [Cased] and [Case_Ignorable], as ranges of code
    points. *)
Definition casedRanges : list (N * N) :=
  [
    (65, 90); (97, 122); (170, 170); (181, 181); (186, 186); (192, 214);
    (216, 246); (248, 442); (444, 447); (452, 659); (661, 696); (704, 705);
    (736, 740); (837, 837); (880, 883); (886, 887); (890, 893); (895, 895);
    (902, 902); (904, 906); (908, 908); (910, 929); (931, 1013); (1015, 1153);
    (1162, 1327); (1329, 1366); (1376, 1416); (4256, 4293); (4295, 4295); (4301, 4301);
    (4304, 4346); (4349, 4351); (5024, 5109); (5112, 5117); (7296, 7304); (7312, 7354);
    (7357, 7359); (7424, 7615); (7680, 7957); (7960, 7965); (7968, 8005); (8008, 8013);
    (8016, 8023); (8025, 8025); (8027, 8027); (8029, 8029); (8031, 8061); (8064, 8116);
    (8118, 8124); (8126, 8126); (8130, 8132); (8134, 8140); (8144, 8147); (8150, 8155);
    (8160, 8172); (8178, 8180); (8182, 8188); (8305, 8305); (8319, 8319); (8336, 8348);
    (8450, 8450); (8455, 8455); (8458, 8467); (8469, 8469); (8473, 8477); (8484, 8484);
    (8486, 8486); (8488, 8488); (8490, 8493); (8495, 8500); (8505, 8505); (8508, 8511);
    (8517, 8521); (8526, 8526); (8544, 8575); (8579, 8580); (9398, 9449); (11264, 11492);
    (11499, 11502); (11506, 11507); (11520, 11557); (11559, 11559); (11565, 11565); (42560, 42605);
    (42624, 42653); (42786, 42887); (42891, 42894); (42896, 42954); (42960, 42961); (42963, 42963);
    (42965, 42969); (42997, 42998); (43000, 43002); (43824, 43866); (43868, 43880); (43888, 43967);
    (64256, 64262); (64275, 64279); (65313, 65338); (65345, 65370); (66560, 66639); (66736, 66771);
    (66776, 66811); (66928, 66938); (66940, 66954); (66956, 66962); (66964, 66965); (66967, 66977);
    (66979, 66993); (66995, 67001); (67003, 67004); (67456, 67456); (67459, 67461); (67463, 67504);
    (67506, 67514); (68736, 68786); (68800, 68850); (71840, 71903); (93760, 93823); (119808, 119892);
    (119894, 119964); (119966, 119967); (119970, 119970); (119973, 119974); (119977, 119980); (119982, 119993);
    (119995, 119995); (119997, 120003); (120005, 120069); (120071, 120074); (120077, 120084); (120086, 120092);
    (120094, 120121); (120123, 120126); (120128, 120132); (120134, 120134); (120138, 120144); (120146, 120485);
    (120488, 120512); (120514, 120538); (120540, 120570); (120572, 120596); (120598, 120628); (120630, 120654);
    (120656, 120686); (120688, 120712); (120714, 120744); (120746, 120770); (120772, 120779); (122624, 122633);
    (122635, 122654); (125184, 125251); (127280, 127305); (127312, 127337); (127344, 127369) ].
Definition caseIgnorableRanges : list (N * N) :=
  [
    (39, 39); (46, 46); (58, 58); (94, 94); (96, 96); (168, 168);
    (173, 173); (175, 175); (180, 180); (183, 184); (688, 879); (884, 885);
    (890, 890); (900, 901); (903, 903); (1155, 1161); (1369, 1369); (1375, 1375);
    (1425, 1469); (1471, 1471); (1473, 1474); (1476, 1477); (1479, 1479); (1524, 1524);
    (1536, 1541); (1552, 1562); (1564, 1564); (1600, 1600); (1611, 1631); (1648, 1648);
    (1750, 1757); (1759, 1768); (1770, 1773); (1807, 1807); (1809, 1809); (1840, 1866);
    (1958, 1968); (2027, 2037); (2042, 2042); (2045, 2045); (2070, 2093); (2137, 2139);
    (2184, 2184); (2192, 2193); (2200, 2207); (2249, 2306); (2362, 2362); (2364, 2364);
    (2369, 2376); (2381, 2381); (2385, 2391); (2402, 2403); (2417, 2417); (2433, 2433);
    (2492, 2492); (2497, 2500); (2509, 2509); (2530, 2531); (2558, 2558); (2561, 2562);
    (2620, 2620); (2625, 2626); (2631, 2632); (2635, 2637); (2641, 2641); (2672, 2673);
    (2677, 2677); (2689, 2690); (2748, 2748); (2753, 2757); (2759, 2760); (2765, 2765);
    (2786, 2787); (2810, 2815); (2817, 2817); (2876, 2876); (2879, 2879); (2881, 2884);
    (2893, 2893); (2901, 2902); (2914, 2915); (2946, 2946); (3008, 3008); (3021, 3021);
    (3072, 3072); (3076, 3076); (3132, 3132); (3134, 3136); (3142, 3144); (3146, 3149);
    (3157, 3158); (3170, 3171); (3201, 3201); (3260, 3260); (3263, 3263); (3270, 3270);
    (3276, 3277); (3298, 3299); (3328, 3329); (3387, 3388); (3393, 3396); (3405, 3405);
    (3426, 3427); (3457, 3457); (3530, 3530); (3538, 3540); (3542, 3542); (3633, 3633);
    (3636, 3642); (3654, 3662); (3761, 3761); (3764, 3772); (3782, 3782); (3784, 3789);
    (3864, 3865); (3893, 3893); (3895, 3895); (3897, 3897); (3953, 3966); (3968, 3972);
    (3974, 3975); (3981, 3991); (3993, 4028); (4038, 4038); (4141, 4144); (4146, 4151);
    (4153, 4154); (4157, 4158); (4184, 4185); (4190, 4192); (4209, 4212); (4226, 4226);
    (4229, 4230); (4237, 4237); (4253, 4253); (4348, 4348); (4957, 4959); (5906, 5908);
    (5938, 5939); (5970, 5971); (6002, 6003); (6068, 6069); (6071, 6077); (6086, 6086);
    (6089, 6099); (6103, 6103); (6109, 6109); (6155, 6159); (6211, 6211); (6277, 6278);
    (6313, 6313); (6432, 6434); (6439, 6440); (6450, 6450); (6457, 6459); (6679, 6680);
    (6683, 6683); (6742, 6742); (6744, 6750); (6752, 6752); (6754, 6754); (6757, 6764);
    (6771, 6780); (6783, 6783); (6823, 6823); (6832, 6862); (6912, 6915); (6964, 6964);
    (6966, 6970); (6972, 6972); (6978, 6978); (7019, 7027); (7040, 7041); (7074, 7077);
    (7080, 7081); (7083, 7085); (7142, 7142); (7144, 7145); (7149, 7149); (7151, 7153);
    (7212, 7219); (7222, 7223); (7288, 7293); (7376, 7378); (7380, 7392); (7394, 7400);
    (7405, 7405); (7412, 7412); (7416, 7417); (7468, 7530); (7544, 7544); (7579, 7679);
    (8125, 8125); (8127, 8129); (8141, 8143); (8157, 8159); (8173, 8175); (8189, 8190);
    (8203, 8207); (8216, 8217); (8228, 8228); (8231, 8231); (8234, 8238); (8288, 8292);
    (8294, 8303); (8305, 8305); (8319, 8319); (8336, 8348); (8400, 8432); (11388, 11389);
    (11503, 11505); (11631, 11631); (11647, 11647); (11744, 11775); (11823, 11823); (12293, 12293);
    (12330, 12333); (12337, 12341); (12347, 12347); (12441, 12446); (12540, 12542); (40981, 40981);
    (42232, 42237); (42508, 42508); (42607, 42610); (42612, 42621); (42623, 42623); (42652, 42655);
    (42736, 42737); (42752, 42785); (42864, 42864); (42888, 42890); (42994, 42996); (43000, 43001);
    (43010, 43010); (43014, 43014); (43019, 43019); (43045, 43046); (43052, 43052); (43204, 43205);
    (43232, 43249); (43263, 43263); (43302, 43309); (43335, 43345); (43392, 43394); (43443, 43443);
    (43446, 43449); (43452, 43453); (43471, 43471); (43493, 43494); (43561, 43566); (43569, 43570);
    (43573, 43574); (43587, 43587); (43596, 43596); (43632, 43632); (43644, 43644); (43696, 43696);
    (43698, 43700); (43703, 43704); (43710, 43711); (43713, 43713); (43741, 43741); (43756, 43757);
    (43763, 43764); (43766, 43766); (43867, 43871); (43881, 43883); (44005, 44005); (44008, 44008);
    (44013, 44013); (64286, 64286); (64434, 64450); (65024, 65039); (65043, 65043); (65056, 65071);
    (65106, 65106); (65109, 65109); (65279, 65279); (65287, 65287); (65294, 65294); (65306, 65306);
    (65342, 65342); (65344, 65344); (65392, 65392); (65438, 65439); (65507, 65507); (65529, 65531);
    (66045, 66045); (66272, 66272); (66422, 66426); (67456, 67461); (67463, 67504); (67506, 67514);
    (68097, 68099); (68101, 68102); (68108, 68111); (68152, 68154); (68159, 68159); (68325, 68326);
    (68900, 68903); (69291, 69292); (69446, 69456); (69506, 69509); (69633, 69633); (69688, 69702);
    (69744, 69744); (69747, 69748); (69759, 69761); (69811, 69814); (69817, 69818); (69821, 69821);
    (69826, 69826); (69837, 69837); (69888, 69890); (69927, 69931); (69933, 69940); (70003, 70003);
    (70016, 70017); (70070, 70078); (70089, 70092); (70095, 70095); (70191, 70193); (70196, 70196);
    (70198, 70199); (70206, 70206); (70367, 70367); (70371, 70378); (70400, 70401); (70459, 70460);
    (70464, 70464); (70502, 70508); (70512, 70516); (70712, 70719); (70722, 70724); (70726, 70726);
    (70750, 70750); (70835, 70840); (70842, 70842); (70847, 70848); (70850, 70851); (71090, 71093);
    (71100, 71101); (71103, 71104); (71132, 71133); (71219, 71226); (71229, 71229); (71231, 71232);
    (71339, 71339); (71341, 71341); (71344, 71349); (71351, 71351); (71453, 71455); (71458, 71461);
    (71463, 71467); (71727, 71735); (71737, 71738); (71995, 71996); (71998, 71998); (72003, 72003);
    (72148, 72151); (72154, 72155); (72160, 72160); (72193, 72202); (72243, 72248); (72251, 72254);
    (72263, 72263); (72273, 72278); (72281, 72283); (72330, 72342); (72344, 72345); (72752, 72758);
    (72760, 72765); (72767, 72767); (72850, 72871); (72874, 72880); (72882, 72883); (72885, 72886);
    (73009, 73014); (73018, 73018); (73020, 73021); (73023, 73029); (73031, 73031); (73104, 73105);
    (73109, 73109); (73111, 73111); (73459, 73460); (78896, 78904); (92912, 92916); (92976, 92982);
    (92992, 92995); (94031, 94031); (94095, 94111); (94176, 94177); (94179, 94180); (110576, 110579);
    (110581, 110587); (110589, 110590); (113821, 113822); (113824, 113827); (118528, 118573); (118576, 118598);
    (119143, 119145); (119155, 119170); (119173, 119179); (119210, 119213); (119362, 119364); (121344, 121398);
    (121403, 121452); (121461, 121461); (121476, 121476); (121499, 121503); (121505, 121519); (122880, 122886);
    (122888, 122904); (122907, 122913); (122915, 122916); (122918, 122922); (123184, 123197); (123566, 123566);
    (123628, 123631); (125136, 125142); (125252, 125259); (127995, 127999); (917505, 917505); (917536, 917631);
    (917760, 917999) ].

Definition inRanges (ranges : list (N * N)) (c : N) : bool :=
  existsb (fun r => (fst r <=? c) && (c <=? snd r)) ranges.

Definition isCased (c : N) : bool := inRanges casedRanges c.
Definition isCaseIgnorable (c : N) : bool := inRanges caseIgnorableRanges c.

(** UTF-16: a high surrogate followed by a low surrogate is one code
    point; every other code unit, a lone surrogate included, is a code
    point of its own. *)
Definition isHighSurrogate (c : N) : bool := (55296 <=? c) && (c <=? 56319).
Definition isLowSurrogate (c : N) : bool := (56320 <=? c) && (c <=? 57343).

Fixpoint codePoints (s : jsstring) : list N :=
  match s with
  | [] => []
  | c :: rest =>
      match rest with
      | d :: s' =>
          if isHighSurrogate c && isLowSurrogate d
          then 65536 + (c - 55296) * 1024 + (d - 56320) :: codePoints s'
          else c :: codePoints rest
      | [] => [c]
      end
  end.

Definition codeUnits (cp : N) : jsstring :=
  if cp <? 65536 then [cp]
  else [55296 + (cp - 65536) / 1024; 56320 + (cp - 65536) mod 1024].

(** The second half of the condition [Final_Sigma]: after the case-ignorable
    code points that follow comes a cased letter. *)
Fixpoint followedByCased (cps : list N) : bool :=
  match cps with
  | [] => false
  | c :: cps' => if isCaseIgnorable c then followedByCased cps' else isCased c
  end.

(** The mapping of a sequence of code points.  [afterCased] is the first
    half of [Final_Sigma]: before the case-ignorable code points that
    precede comes a cased letter.  CAPITAL SIGMA (U+03A3) becomes the final
    small sigma (U+03C2) under [Final_Sigma] and the small sigma (U+03C3)
    otherwise; CAPITAL I WITH DOT ABOVE (U+0130) becomes [i] and COMBINING
    DOT ABOVE. *)
Fixpoint lowerCodePoints (afterCased : bool) (cps : list N) : list N :=
  match cps with
  | [] => []
  | c :: cps' =>
      (if c =? 931
       then if afterCased && negb (followedByCased cps') then [962] else [963]
       else if c =? 304 then [105; 775]
       else [simpleLower c])
      ++ lowerCodePoints (if isCaseIgnorable c then afterCased else isCased c) cps'
  end.

Definition toLowerCase (s : jsstring) : jsstring :=
  concat (map codeUnits (lowerCodePoints false (codePoints s))).

(** White space and line terminators, as [String.prototype.trim] and the
    regular expression class [\s] understand them. *)
Definition isWhiteSpace (c : N) : bool :=
  ((9 <=? c) && (c <=? 13))          (* TAB LF VT FF CR *)
  || (c =? 32) || (c =? 160)          (* SPACE, NBSP *)
  || (c =? 5760)                      (* U+1680 *)
  || ((8192 <=? c) && (c <=? 8202))   (* U+2000 .. U+200A *)
  || (c =? 8232) || (c =? 8233)       (* U+2028, U+2029 *)
  || (c =? 8239) || (c =? 8287)       (* U+202F, U+205F *)
  || (c =? 12288) || (c =? 65279).    (* U+3000, U+FEFF *)

Fixpoint trimStart (s : jsstring) : jsstring :=
  match s with
  | c :: s' => if isWhiteSpace c then trimStart s' else s
  | [] => []
  end.

Definition trimEnd (s : jsstring) : jsstring := rev (trimStart (rev s)).

Definition trim (s : jsstring) : jsstring := trimEnd (trimStart s).

(** [s.startsWith(t)] and [s.includes(t)]. *)
Fixpoint startsWith (s t : jsstring) {struct t} : bool :=
  match t, s with
  | [], _ => true
  | _ :: _, [] => false
  | b :: t', a :: s' => cu_eqb a b && startsWith s' t'
  end.

Fixpoint includes (s t : jsstring) : bool :=
  startsWith s t ||
  match s with
  | [] => false
  | _ :: s' => includes s' t
  end.

(** [Array.prototype.includes] on an array of strings, and
    [Array.prototype.some]. *)
Definition arr_includes (l : list jsstring) (x : jsstring) : bool :=
  existsb (fun y => str_eqb y x) l.

Definition some {A : Type} (l : list A) (f : A -> bool) : bool := existsb f l.

(** ** Settings and card records *)

(** The fields of [ChzzkStreamerBlocker] that hold the settings. *)
Record settings := Settings {
  masterEnabled : bool;
  streamerEnabled : bool;
  tagEnabled : bool;
  blockedStreamers : list jsstring;
  blockedTags : list jsstring
}.

(** The object built by [extractStreamerInfo]. *)
Record streamerInfo := Info {
  name : jsstring;
  title : jsstring;
  tags : list jsstring
}.

(** ** Matcher *)

Definition matchesStreamer (info : streamerInfo) (blockedName : jsstring) : bool :=
  let cleanBlockedName := trim (toLowerCase blockedName) in
  let cleanStreamerName := trim (toLowerCase (name info)) in
  includes cleanStreamerName cleanBlockedName
  || includes cleanBlockedName cleanStreamerName
  || includes (toLowerCase (title info)) cleanBlockedName.

Definition matchesTag (info : streamerInfo) (blockedTag : jsstring) : bool :=
  let cleanBlockedTag := trim (toLowerCase blockedTag) in
  some (tags info) (fun tag =>
      includes (toLowerCase tag) cleanBlockedTag
      || includes cleanBlockedTag (toLowerCase tag))
  || includes (toLowerCase (title info)) cleanBlockedTag.

(** The two rule checks of [shouldHideCard], on an already extracted
    record. *)
Definition shouldHideInfo (st : settings) (info : streamerInfo) : bool :=
  if streamerEnabled st && negb (length (blockedStreamers st) =? 0)%nat
     && some (blockedStreamers st) (matchesStreamer info)
  then true
  else if tagEnabled st && negb (length (blockedTags st) =? 0)%nat
          && some (blockedTags st) (matchesTag info)
  then true
  else false.

(** ** The document

    An element carries what the script reads and writes: its tag, its
    [classList] and its inline [style].  A node is a text node or an
    element with its child nodes. *)

Record element := Element {
  localName : string;
  classList : list jsstring;
  style : gmap string string
}.

Inductive node :=
| Text (data : jsstring)
| Elem (e : element) (childNodes : list node).

(** The identity of an element of the document: the child indices that
    lead to it from the root. *)
Abbreviation path := (list nat).

Fixpoint textContent (n : node) : jsstring :=
  match n with
  | Text d => d
  | Elem _ ks => concat (map textContent ks)
  end.

Definition nodeClassList (n : node) : list jsstring :=
  match n with
  | Text _ => []
  | Elem e _ => classList e
  end.

(** The elements of the subtree of [n] in document order, [n] first, each
    with its path from [n]. *)
Fixpoint elements (n : node) : list (path * node) :=
  match n with
  | Text _ => []
  | Elem e ks =>
      ([], n) ::
      (fix go (i : nat) (ks : list node) : list (path * node) :=
         match ks with
         | [] => []
         | k :: ks' =>
             map (fun pn => (i :: fst pn, snd pn)) (elements k) ++ go (S i) ks'
         end) 0%nat ks
  end.

Fixpoint elementsFrom (i : nat) (ks : list node) : list (path * node) :=
  match ks with
  | [] => []
  | k :: ks' =>
      map (fun pn => (i :: fst pn, snd pn)) (elements k) ++ elementsFrom (S i) ks'
  end.

(** The proper descendants of an element: what [card.querySelectorAll('*')]
    and [card.querySelector(...)] range over. *)
Definition descendants (n : node) : list (path * node) :=
  match n with
  | Text _ => []
  | Elem _ ks => elementsFrom 0 ks
  end.

Fixpoint getNode (n : node) (p : path) : option node :=
  match p with
  | [] => Some n
  | i :: p' =>
      match n with
      | Text _ => None
      | Elem _ ks =>
          match ks !! i with
          | Some k => getNode k p'
          | None => None
          end
      end
  end.

(** An in-place change of the element at path [p]; the tree keeps its
    shape, so every other path keeps denoting the same element. *)
Fixpoint updateElem (f : element -> element) (p : path) (n : node) : node :=
  match n with
  | Text _ => n
  | Elem e ks =>
      match p with
      | [] => Elem (f e) ks
      | i :: p' =>
          match ks !! i with
          | Some k => Elem e (<[i := updateElem f p' k]> ks)
          | None => n
          end
      end
  end.

(** ** Selectors

    The selectors the script passes to [querySelectorAll] are compound
    selectors made of an optional type selector and at most one condition
    on the class attribute. *)

Inductive classCond :=
| HasClass (c : jsstring)            (* .c *)
| ClassContains (s : jsstring).      (* [class*="s"] *)

Record selector := Selector {
  sel_type : option string;
  sel_cond : option classCond
}.

(** [[class*="s"]] looks for [s] in the value of the class attribute, the
    tokens separated by white space; none of the strings searched for
    contains white space, so the match lies within one token. *)
Definition matchesCond (c : classCond) (e : element) : bool :=
  match c with
  | HasClass c => arr_includes (classList e) c
  | ClassContains s => some (classList e) (fun tok => includes tok s)
  end.

Definition matchesSelector (s : selector) (e : element) : bool :=
  match sel_type s with
  | Some t => bool_decide (localName e = t)
  | None => true
  end
  && match sel_cond s with
     | Some c => matchesCond c e
     | None => true
     end.

Definition nodeMatches (s : selector) (n : node) : bool :=
  match n with
  | Text _ => false
  | Elem e _ => matchesSelector s e
  end.

(** [document.querySelectorAll(s)]: the matching elements of the document
    in document order. *)
Definition querySelectorAll (doc : node) (s : selector) : list path :=
  map fst (List.filter (fun pn => nodeMatches s (snd pn)) (elements doc)).

(** [[...new Set(cards)]]: the first occurrence of every element is kept. *)
Fixpoint uniqueFrom (seen : list path) (l : list path) : list path :=
  match l with
  | [] => []
  | x :: l' =>
      if bool_decide (x ∈ seen) then uniqueFrom seen l'
      else x :: uniqueFrom (x :: seen) l'
  end.

Definition unique (l : list path) : list path := uniqueFrom [] l.

Definition sel (ty : option string) (c : classCond) : selector :=
  Selector ty (Some c).

(** The catalog of [findStreamCards], most specific first. *)
Definition selectors : list selector :=
  [ sel None (HasClass (lit "navigation_component_item__iMPOI"));
    sel (Some "li"%string) (HasClass (lit "navigation_component_item__iMPOI"));
    sel None (HasClass (lit "video_card_container__urjO6"));
    sel None (ClassContains (lit "video_card_container"));
    sel None (ClassContains (lit "navigation_component_item"));
    sel None (ClassContains (lit "live_card"));
    sel None (ClassContains (lit "stream_card"));
    sel (Some "li"%string) (ClassContains (lit "item"));
    sel (Some "div"%string) (ClassContains (lit "card"));
    sel (Some "article"%string) (ClassContains (lit "card")) ].

Definition findStreamCards (doc : node) : list path :=
  let cards :=
    fold_left (fun cards selector => cards ++ querySelectorAll doc selector)
              selectors [] in
  unique cards.

(** *** The queries as the script writes them

    [document.querySelectorAll] takes the text of a selector and throws a
    [SyntaxError] when the text is not a selector.  [parseSelector] reads
    the fragment of the selector grammar in which the catalog is written:
    an optional type selector, followed by a class selector [.name] or by
    an attribute selector [[class*="value"]], without white space.  The
    result [None] stands for the [SyntaxError]; a text outside the fragment
    is rejected as well, so the model throws wherever the browser does. *)

Definition isIdentStart (c : N) : bool :=
  ((65 <=? c) && (c <=? 90)) || ((97 <=? c) && (c <=? 122)) || (c =? 95).

Definition isIdentChar (c : N) : bool :=
  isIdentStart c || ((48 <=? c) && (c <=? 57)) || (c =? 45).

Definition isIdentifier (s : jsstring) : bool :=
  match s with
  | c :: s' => isIdentStart c && forallb isIdentChar s'
  | [] => false
  end.

(** The longest prefix of name characters, and the rest. *)
Fixpoint spanIdent (s : jsstring) : jsstring * jsstring :=
  match s with
  | c :: s' =>
      if isIdentChar c
      then (c :: fst (spanIdent s'), snd (spanIdent s'))
      else ([], s)
  | [] => ([], [])
  end.

(** The quoted value of an attribute selector: not empty (an empty value
    matches nothing), and free of quotes, backslashes and white space. *)
Definition isAttrValue (s : jsstring) : bool :=
  match s with
  | [] => false
  | _ :: _ =>
      forallb (fun c => negb (c =? 34) && negb (c =? 92) && negb (isWhiteSpace c)) s
  end.

Definition quote : jsstring := [34].

Definition parseCond (s : jsstring) : option classCond :=
  match s with
  | 46 :: ident =>                                   (* .name *)
      if isIdentifier ident then Some (HasClass ident) else None
  | 91 :: rest =>                                    (* [class*="value"] *)
      if startsWith rest (lit "class*=" ++ quote)
      then match rev (skipn 8 rest) with
           | 93 :: 34 :: eulav =>
               if isAttrValue (rev eulav) then Some (ClassContains (rev eulav)) else None
           | _ => None
           end
      else None
  | _ => None
  end.

(** The name of an element as a type selector gives it; in an HTML
    document it is compared in lower case. *)
Definition typeName (ident : jsstring) : string :=
  string_of_list_ascii (map ascii_of_N (map lowerCU ident)).

Definition parseSelector (text : jsstring) : option selector :=
  let ident := fst (spanIdent text) in
  let rest := snd (spanIdent text) in
  match ident with
  | [] => option_map (fun c => Selector None (Some c)) (parseCond rest)
  | _ :: _ =>
      if isIdentifier ident
      then match rest with
           | [] => Some (Selector (Some (typeName ident)) None)
           | _ :: _ =>
               option_map (fun c => Selector (Some (typeName ident)) (Some c))
                          (parseCond rest)
           end
      else None
  end.

(** [array.forEach(callback)] with a callback that may throw: an
    exception leaves the loop ([None]). *)
Fixpoint forEach {A S : Type} (callback : S -> A -> option S) (array : list A) (s : S)
  : option S :=
  match array with
  | [] => Some s
  | x :: array' =>
      match callback s x with
      | Some s' => forEach callback array' s'
      | None => None
      end
  end.

(** [findStreamCards] with its queries as texts.  No call is guarded by a
    [try]: an exception of [querySelectorAll] would leave the loop and the
    function. *)
Module Scan.

Definition attr (value : string) : jsstring :=
  lit "[class*=" ++ quote ++ lit value ++ quote ++ lit "]".

Definition selectors : list jsstring :=
  [ lit ".navigation_component_item__iMPOI";
    lit "li.navigation_component_item__iMPOI";
    lit ".video_card_container__urjO6";
    attr "video_card_container";
    attr "navigation_component_item";
    attr "live_card";
    attr "stream_card";
    lit "li" ++ attr "item";
    lit "div" ++ attr "card";
    lit "article" ++ attr "card" ].

Definition querySelectorAll (doc : node) (text : jsstring) : option (list path) :=
  option_map (querySelectorAll doc) (parseSelector text).

Definition findStreamCards (doc : node) : option (list path) :=
  let cards :=
    forEach (fun cards selector =>
               match querySelectorAll doc selector with
               | Some foundCards => Some (cards ++ foundCards)
               | None => None
               end)
            selectors [] in
  option_map unique cards.

End Scan.

(** ** Visibility controller *)

Definition classList_add (tok : jsstring) (l : list jsstring) : list jsstring :=
  if arr_includes l tok then l else l ++ [tok].

Definition classList_remove (tok : jsstring) (l : list jsstring) : list jsstring :=
  List.filter (fun t => negb (str_eqb t tok)) l.

Definition processedClass : jsstring := lit "chzzk-blocker-processed".
Definition hiddenClass : jsstring := lit "chzzk-blocker-hidden".

Definition setCardVisibility (card : element) (visible : bool) : element :=
  let classes := classList_add processedClass (classList card) in
  if visible then
    Element (localName card)
      (classList_remove hiddenClass classes)
      (delete "top"%string (delete "left"%string (delete "position"%string
        (delete "width"%string (delete "height"%string (delete "opacity"%string
          (delete "visibility"%string (delete "display"%string (style card)))))))))
  else
    Element (localName card)
      (classList_add hiddenClass classes)
      (<["top"%string := "-9999px"%string]> (<["left"%string := "-9999px"%string]>
        (<["position"%string := "absolute"%string]> (<["width"%string := "0px"%string]>
          (<["height"%string := "0px"%string]> (<["opacity"%string := "0"%string]>
            (<["visibility"%string := "hidden"%string]>
              (<["display"%string := "none"%string]> (style card))))))))).

(** The body of the [forEach] of [showAllStreamCards]. *)
Definition showCard (card : element) : element :=
  Element (localName card)
    (classList_remove hiddenClass (classList card))
    (delete "display"%string (style card)).

Definition showAllStreamCards (doc : node) : node :=
  let hiddenCards := querySelectorAll doc (sel None (HasClass hiddenClass)) in
  fold_left (fun doc card => updateElem showCard card doc) hiddenCards doc.

(** ** Text utilities of the field extractor

    The regular expressions of [extractStreamerInfo] are alternations of
    literal words, character classes and bounded runs; each is modelled by
    the function that computes what the expression computes. *)

Definition isEmpty (s : jsstring) : bool :=
  match s with [] => true | _ => false end.

(** A literal word matches at the head of [s]; with the flag [i] Basic
    Latin letters match in either case.  The words of the script consist of
    Basic Latin letters, the space and Hangul syllables, which only match
    themselves. *)
Fixpoint startsWith_ci (s word : jsstring) {struct word} : bool :=
  match word, s with
  | [], _ => true
  | _ :: _, [] => false
  | b :: word', a :: s' => cu_eqb (lowerCU a) (lowerCU b) && startsWith_ci s' word'
  end.

(** The length of the first alternative of [w1|w2|...] that matches at the
    head of [s]. *)
Fixpoint firstAlternative (words : list jsstring) (s : jsstring) : option nat :=
  match words with
  | [] => None
  | w :: words' =>
      if startsWith_ci s w then Some (length w) else firstAlternative words' s
  end.

(** [s.replace(/w1|w2|.../gi, '')]: scanning from the left, every match is
    dropped; [skip] counts the code units of the current match that are
    still to be dropped. *)
Fixpoint removeWords (words : list jsstring) (skip : nat) (s : jsstring) : jsstring :=
  match s with
  | [] => []
  | c :: s' =>
      match skip with
      | S k => removeWords words k s'
      | O =>
          match firstAlternative words s with
          | Some (S k) => removeWords words k s'
          | _ => c :: removeWords words 0 s'
          end
      end
  end.

(** [s.replace(/\s+/g, ' ')]. *)
Fixpoint collapseSpaces (inRun : bool) (s : jsstring) : jsstring :=
  match s with
  | [] => []
  | c :: s' =>
      if isWhiteSpace c
      then if inRun then collapseSpaces true s' else 32 :: collapseSpaces true s'
      else c :: collapseSpaces false s'
  end.

(** The class [[\s,\[\]()]]. *)
Definition isSeparator (c : N) : bool :=
  isWhiteSpace c || (c =? 44) || (c =? 91) || (c =? 93) || (c =? 40) || (c =? 41).

(** [s.split(/[\s,\[\]()]+/)]: the pieces between the maximal runs of
    separators, the empty pieces at either end included. *)
Fixpoint splitWords (cur : jsstring) (inSep : bool) (s : jsstring) : list jsstring :=
  match s with
  | [] => [cur]
  | c :: s' =>
      if isSeparator c
      then if inSep then splitWords [] true s' else cur :: splitWords [] true s'
      else splitWords (cur ++ [c]) false s'
  end.

Definition split (s : jsstring) : list jsstring := splitWords [] false s.

(** The longest prefix of [s] of at most [max] code units of the class. *)
Fixpoint takeRun (cls : N -> bool) (max : nat) (s : jsstring) : jsstring :=
  match max, s with
  | S m, c :: s' => if cls c then c :: takeRun cls m s' else []
  | _, _ => []
  end.

(** [s.match(/[cls]{lo,hi}/)]: the leftmost run of at least [lo] code units
    of the class, cut at [hi]. *)
Fixpoint matchRun (cls : N -> bool) (lo hi : nat) (s : jsstring) : option jsstring :=
  let run := takeRun cls hi s in
  if (lo <=? length run)%nat then Some run
  else match s with
       | [] => None
       | _ :: s' => matchRun cls lo hi s'
       end.

Definition isHangul (c : N) : bool := (44032 <=? c) && (c <=? 55203).   (* [가-힣] *)
Definition isLatinLetter (c : N) : bool :=
  ((65 <=? c) && (c <=? 90)) || ((97 <=? c) && (c <=? 122)).            (* [A-Za-z] *)

(** The Hangul words of the script, as code units. *)
Definition w_channelMove : jsstring :=
  [52292; 45328; 47196; 32; 51060; 46041].                       (* 채널로 이동 *)
Definition w_live : jsstring := [46972; 51060; 48652].                          (* 라이브 *)
Definition w_certMark : jsstring := [51064; 51613; 32; 47560; 53356].           (* 인증 마크 *)
Definition w_streamer : jsstring := [49828; 53944; 47532; 47672].               (* 스트리머 *)
Definition w_channel : jsstring := [52292; 45328].                              (* 채널 *)
Definition w_broadcast : jsstring := [48169; 49569].                            (* 방송 *)
Definition w_liveEndMove : jsstring :=
  [46972; 51060; 48652; 32; 50644; 46300; 47196; 32; 51060; 46041].     (* 라이브 엔드로 이동 *)
Definition w_move : jsstring := [51060; 46041].                                 (* 이동 *)
Definition w_stream : jsstring := [49828; 53944; 47548].                        (* 스트림 *)

Definition titleBoilerplate : list jsstring :=
  [w_liveEndMove; lit "live"; lit "stream"; lit "LIVE"; w_live].

Definition stopWords : list jsstring :=
  [lit "the"; lit "and"; lit "or"; lit "in"; lit "on"; lit "at"; lit "to";
   lit "for"; lit "of"; lit "with"; lit "by";
   [44536]; [51060]; [51012]; [47484]; [51032]; [50640]; [45716]; [44032];
   [54620]; [49688]].   (* 그 이 을 를 의 에 는 가 한 수 *)

(** [/^(the|and|...)$/i.test(word)]. *)
Definition isStopWord (word : jsstring) : bool :=
  existsb (fun w => startsWith_ci word w && (length word =? length w)%nat) stopWords.

Definition hasClassContaining (classList : list jsstring) (substring : jsstring) : bool :=
  some classList (fun className =>
    includes (toLowerCase className) (toLowerCase substring)).

(** [text.replace(/words/gi, '').replace(/\s+/g, ' ').trim()]. *)
Definition cleanText (words : list jsstring) (text : jsstring) : jsstring :=
  trim (collapseSpaces false (removeWords words 0 text)).

(** The three blocks of the loop body over the descendants; [textContent]
    is the trimmed text of the element, known to be non-empty. *)
Definition nameStep (words : list jsstring) (info : streamerInfo)
    (classList : list jsstring) (textContent : jsstring) : streamerInfo :=
  if hasClassContaining classList (lit "channel")
     || hasClassContaining classList (lit "name")
     || hasClassContaining classList (lit "ellipsis")
  then
    let cleanName := cleanText words textContent in
    if negb (isEmpty cleanName) && (0 <? length cleanName)%nat
       && (length cleanName <? 50)%nat && isEmpty (name info)
    then Info cleanName (title info) (tags info)
    else info
  else info.

Definition titleStep (info : streamerInfo)
    (classList : list jsstring) (textContent : jsstring) : streamerInfo :=
  if hasClassContaining classList (lit "title")
  then
    let cleanTitle := cleanText titleBoilerplate textContent in
    if negb (isEmpty cleanTitle) && (0 <? length cleanTitle)%nat
       && isEmpty (title info)
    then Info (name info) cleanTitle (tags info)
    else info
  else info.

Definition tagStep (info : streamerInfo)
    (classList : list jsstring) (textContent : jsstring) : streamerInfo :=
  if hasClassContaining classList (lit "tag")
     || hasClassContaining classList (lit "category")
     || hasClassContaining classList (lit "genre")
  then
    if (0 <? length textContent)%nat && (length textContent <? 20)%nat
       && negb (arr_includes (tags info) textContent)
    then Info (name info) (title info) (tags info ++ [textContent])
    else info
  else info.

(** "Extract additional tags from title". *)
Definition titleWords (t : jsstring) : list jsstring :=
  List.filter (fun word => (1 <? length word)%nat && (length word <? 10)%nat
                      && negb (isStopWord word))
         (split t).

Definition pushTitleWords (info : streamerInfo) : streamerInfo :=
  if negb (isEmpty (title info))
  then
    fold_left (fun info word =>
                 if negb (arr_includes (tags info) word)
                 then Info (name info) (title info) (tags info ++ [word])
                 else info)
              (titleWords (title info)) info
  else info.

(** "Fallback: try to find any Korean or English name in the card". *)
Definition fallbackName (card : node) (info : streamerInfo) : streamerInfo :=
  if isEmpty (name info)
  then
    let allText := textContent card in
    let koreanMatch := matchRun isHangul 2 8 allText in
    let englishMatch := matchRun isLatinLetter 3 15 allText in
    match koreanMatch with
    | Some candidate =>
        if negb (arr_includes [w_live; w_channel; w_move; w_broadcast; w_stream] candidate)
        then Info candidate (title info) (tags info)
        else info
    | None =>
        match englishMatch with
        | Some candidate =>
            if negb (arr_includes [lit "LIVE"; lit "live"; lit "channel"; lit "stream"]
                                  candidate)
            then Info candidate (title info) (tags info)
            else info
        | None => info
        end
    end
  else info.

(** *** [extractStreamerInfo] of [content.js] *)
Module Content.

Definition nameBoilerplate : list jsstring :=
  [w_channelMove; lit "channel"; lit "live"; lit "LIVE"; w_live].

(** The body of the loop over [card.querySelectorAll('*')]. *)
Definition scanElement (info : streamerInfo) (element : node) : streamerInfo :=
  let classList := nodeClassList element in
  let textContent := trim (textContent element) in
  if isEmpty textContent then info
  else
    let info := nameStep nameBoilerplate info classList textContent in
    let info := titleStep info classList textContent in
    tagStep info classList textContent.

Definition extractStreamerInfo (card : node) : streamerInfo :=
  let allElements := map snd (descendants card) in
  let info := fold_left scanElement allElements (Info [] [] []) in
  let info := pushTitleWords info in
  fallbackName card info.

End Content.

(** *** [extractStreamerInfo] of the two context-menu variants *)
Module Menu.

Definition nameBoilerplate : list jsstring :=
  [w_channelMove; lit "channel"; lit "live"; lit "LIVE"; w_live;
   w_certMark; w_streamer; w_channel; w_broadcast].

(** [card.querySelector('[class*="name_text"]')]. *)
Definition nameTextElement (card : node) : option node :=
  head (List.filter (nodeMatches (sel None (ClassContains (lit "name_text"))))
               (map snd (descendants card))).

Definition fromNameText (card : node) (info : streamerInfo) : streamerInfo :=
  match nameTextElement card with
  | Some element =>
      let nameText := trim (textContent element) in
      if negb (isEmpty nameText) && (0 <? length nameText)%nat
         && (length nameText <? 50)%nat
      then Info nameText (title info) (tags info)
      else info
  | None => info
  end.

Definition scanName (info : streamerInfo) (element : node) : streamerInfo :=
  let classList := nodeClassList element in
  let textContent := trim (textContent element) in
  if isEmpty textContent then info
  else nameStep nameBoilerplate info classList textContent.

Definition scanTitleTags (info : streamerInfo) (element : node) : streamerInfo :=
  let classList := nodeClassList element in
  let textContent := trim (textContent element) in
  if isEmpty textContent then info
  else
    let info := titleStep info classList textContent in
    tagStep info classList textContent.

Definition extractStreamerInfo (card : node) : streamerInfo :=
  let info := fromNameText card (Info [] [] []) in
  let info :=
    if isEmpty (name info)
    then fold_left scanName (map snd (descendants card)) info
    else info in
  let info := fold_left scanTitleTags (map snd (descendants card)) info in
  let info := pushTitleWords info in
  fallbackName card info.

End Menu.

(** ** Reconciliation pass *)

(** The element a path denotes.  The paths the script holds come from
    [querySelectorAll] and always denote an element of the document. *)
Definition nodeAt (doc : node) (card : path) : node :=
  default (Text []) (getNode doc card).

Section Blocker.

(** The field extractor of the variant at hand. *)
Variable extractStreamerInfo : node -> streamerInfo.

Definition shouldHideCard (st : settings) (doc : node) (card : path) : bool :=
  let streamerInfo := extractStreamerInfo (nodeAt doc card) in
  shouldHideInfo st streamerInfo.

Definition applyBlocking (st : settings) (doc : node) : node :=
  let totalBlocked :=
    (length (blockedStreamers st) + length (blockedTags st))%nat in
  if negb (masterEnabled st) || (totalBlocked =? 0)%nat
  then showAllStreamCards doc
  else
    let streamCards := findStreamCards doc in
    fold_left
      (fun doc card =>
         let shouldHide := shouldHideCard st doc card in
         updateElem (fun e => setCardVisibility e (negb shouldHide)) card doc)
      streamCards doc.

(** What a pass does to the card at path [q], given the document [doc]
    the pass started from. *)
Definition verdict (st : settings) (doc : node) : path -> element -> element :=
  fun q e => setCardVisibility e (negb (shouldHideCard st doc q)).

End Blocker.

(** ** The right-click actions of the context-menu variants *)

(** A value kept in [chrome.storage.sync]. *)
Inductive storedValue :=
| StoredBool (b : bool)
| StoredList (l : list jsstring).

(** The script object together with the document and the storage area. *)
Record blocker := Blocker {
  config : settings;
  contextTarget : option path;   (* [currentContextTarget], [lastRightClickedCard] *)
  document : node;
  storage : gmap string storedValue
}.

Definition setStreamers (l : list jsstring) (b : blocker) : blocker :=
  Blocker (Settings (masterEnabled (config b)) (streamerEnabled (config b))
                    (tagEnabled (config b)) l (blockedTags (config b)))
          (contextTarget b) (document b) (storage b).

Definition setTarget (t : option path) (b : blocker) : blocker :=
  Blocker (config b) t (document b) (storage b).

Definition setDocument (doc : node) (b : blocker) : blocker :=
  Blocker (config b) (contextTarget b) doc (storage b).

(** An [async] method runs up to its first [await] and gives the control
    back; the rest runs once the promise is settled.  [Return b] is a call
    that finished without waiting; [AwaitSet b items k] one that left the
    script in state [b], waits for [chrome.storage.sync.set(items)], and
    continues with [k ok b'] where [ok] tells whether the write succeeded
    and [b'] is the state at that moment. *)
Inductive async :=
| Return (b : blocker)
| AwaitSet (b : blocker) (items : gmap string storedValue)
           (k : bool -> blocker -> blocker).

(** The promise of [chrome.storage.sync.set(items)] is settled in state
    [b]: a successful write has put [items] into the storage area. *)
Definition settle (ok : bool) (items : gmap string storedValue)
    (k : bool -> blocker -> blocker) (b : blocker) : blocker :=
  k ok (if ok
        then Blocker (config b) (contextTarget b) (document b) (items ∪ storage b)
        else b).

(** A call whose promise is settled before anything else happens. *)
Definition complete (ok : bool) (a : async) : blocker :=
  match a with
  | Return b => b
  | AwaitSet b items k => settle ok items k b
  end.

(** Two calls of the method [h] in immediate succession: the second call
    starts while the first one waits for its write, and the two promises
    are settled afterwards, in the order of the calls. *)
Definition overlapped (h : blocker -> async) (ok1 ok2 : bool) (b : blocker) : blocker :=
  match h b with
  | Return b1 => complete ok2 (h b1)
  | AwaitSet b1 items1 k1 =>
      match h b1 with
      | Return b2 => settle ok1 items1 k1 b2
      | AwaitSet b2 items2 k2 => settle ok2 items2 k2 (settle ok1 items1 k1 b2)
      end
  end.

(** The number of entries of [l] equal to [x]. *)
Definition occurrences (x : jsstring) (l : list jsstring) : nat :=
  length (List.filter (fun y => str_eqb y x) l).

(** [Array.prototype.indexOf]. *)
Fixpoint indexOf (l : list jsstring) (x : jsstring) : option nat :=
  match l with
  | [] => None
  | y :: l' => if str_eqb y x then Some 0%nat else S <$> indexOf l' x
  end.

(** *** The native context menu (toggle) *)
Module NativeMenu.

(** The [contextmenu] listener of a card. *)
Definition onContextMenu (card : path) (b : blocker) : blocker :=
  setTarget (Some card) b.

(** The part of [handleContextMenuAction] that follows the [await]:
    [applyBlocking()] after a successful write, the [catch] block (a log
    entry) after a failed one, then [lastRightClickedCard = null]. *)
Definition afterWrite (ok : bool) (b : blocker) : blocker :=
  let b :=
    if ok
    then setDocument
           (applyBlocking Menu.extractStreamerInfo (config b) (document b)) b
    else b in
  setTarget None b.

Definition handleContextMenuAction (b : blocker) : async :=
  match contextTarget b with
  | None => Return b
  | Some card =>
      let streamerInfo := Menu.extractStreamerInfo (nodeAt (document b) card) in
      if isEmpty (name streamerInfo) then Return b
      else
        let blocked := blockedStreamers (config b) in
        let isBlocked := arr_includes blocked (name streamerInfo) in
        let blocked :=
          if isBlocked
          then match indexOf blocked (name streamerInfo) with
               | Some index => delete index blocked       (* splice(index, 1) *)
               | None => blocked
               end
          else if negb (arr_includes blocked (name streamerInfo))
               then blocked ++ [name streamerInfo]        (* push *)
               else blocked in
        AwaitSet (setStreamers blocked b)
                 {[ "blockedStreamers"%string := StoredList blocked ]}
                 afterWrite
  end.

End NativeMenu.

(** *** The in-page context menu (block only)

    The menu element and the notification that [showNotification] shows
    are user interface and are not part of the modelled document. *)
Module PageMenu.

Definition showContextMenu (streamCard : path) (b : blocker) : blocker :=
  setTarget (Some streamCard) b.

Definition hideContextMenu (b : blocker) : blocker := setTarget None b.

(** The part of [blockStreamerFromContext] that follows the [await]:
    [applyBlocking()] (and the notification) after a successful write, the
    [catch] block (a log entry) after a failed one. *)
Definition afterWrite (ok : bool) (b : blocker) : blocker :=
  if ok
  then setDocument
         (applyBlocking Menu.extractStreamerInfo (config b) (document b)) b
  else b.

Definition blockStreamerFromContext (b : blocker) : async :=
  match contextTarget b with
  | None => Return b
  | Some card =>
      let streamerInfo := Menu.extractStreamerInfo (nodeAt (document b) card) in
      if isEmpty (name streamerInfo) then Return b
      else
        let blocked := blockedStreamers (config b) in
        if negb (arr_includes blocked (name streamerInfo))
        then
          let blocked := blocked ++ [name streamerInfo] in
          AwaitSet (setStreamers blocked b)
                   {[ "blockedStreamers"%string := StoredList blocked ]}
                   afterWrite
        else Return b
  end.

(** The click listener of the menu:
    [blockStreamerFromContext(); hideContextMenu();]. *)
Definition menuItemClick (b : blocker) : async :=
  match blockStreamerFromContext b with
  | Return b' => Return (hideContextMenu b')
  | AwaitSet b' items k => AwaitSet (hideContextMenu b') items k
  end.

End PageMenu.

(** ** A parallel description of in-place updates

    [mapElems g] changes every element of a tree at once, the element at
    path [q] by [g q].  A pass of the script is a sequence of in-place
    updates; the proofs rewrite it into one [mapElems]. *)
Fixpoint mapElems (g : path -> element -> element) (n : node) : node :=
  match n with
  | Text d => Text d
  | Elem e ks =>
      Elem (g [] e)
        ((fix go (i : nat) (ks : list node) : list node :=
            match ks with
            | [] => []
            | k :: ks' => mapElems (fun q => g (i :: q)) k :: go (S i) ks'
            end) 0%nat ks)
  end.

Fixpoint mapKids (g : path -> element -> element) (i : nat) (ks : list node)
  : list node :=
  match ks with
  | [] => []
  | k :: ks' => mapElems (fun q => g (i :: q)) k :: mapKids g (S i) ks'
  end.

(** Two elements that differ only in the inline style and in the two
    class tokens the script adds. *)
Definition isBlockerClass (tok : jsstring) : bool :=
  str_eqb tok processedClass || str_eqb tok hiddenClass.

Definition ownClasses (e : element) : list jsstring :=
  List.filter (fun tok => negb (isBlockerClass tok)) (classList e).

Definition cosmetic (f : element -> element) : Prop :=
  forall e, localName (f e) = localName e /\ ownClasses (f e) = ownClasses e.

(** The marker of a card hidden by the script. *)
Definition isHiddenCard (e : element) : bool :=
  arr_includes (classList e) hiddenClass.

Definition elementAt (doc : node) (p : path) : option element :=
  match getNode doc p with
  | Some (Elem e _) => Some e
  | _ => None
  end.

(** ** Notions used in the statements and proofs *)

(** [s] contains [t] as a contiguous piece. *)
Definition contains (s t : jsstring) : Prop :=
  exists pre post, s = pre ++ t ++ post.

(** What [mapElems g] makes of the element found at path [q]. *)
Definition mapped (g : path -> element -> element) (pn : path * node) : path * node :=
  (fst pn, mapElems (fun q => g (fst pn ++ q)) (snd pn)).

Definition under (i : nat) (pn : path * node) : path * node :=
  (i :: fst pn, snd pn).

(** A test on class tokens that the two tokens of the script fail. *)
Definition blind (P : jsstring -> bool) : bool :=
  negb (P processedClass) && negb (P hiddenClass).

Definition condTest (c : classCond) : jsstring -> bool :=
  match c with
  | HasClass c => fun tok => str_eqb tok c
  | ClassContains s => fun tok => includes tok s
  end.

Definition blindSelector (s : selector) : bool :=
  match sel_cond s with
  | Some c => blind (condTest c)
  | None => true
  end.

Definition hidingProperties : list string :=
  ["top"; "left"; "position"; "width"; "height"; "opacity"; "visibility"; "display"]%string.

Definition hidingStyle : list (string * string) :=
  [("top", "-9999px"); ("left", "-9999px"); ("position", "absolute");
   ("width", "0px"); ("height", "0px"); ("opacity", "0");
   ("visibility", "hidden"); ("display", "none")]%string.

(** The value the first pair with key [k] gives. *)
Fixpoint assoc (l : list (string * string)) (k : string) : option string :=
  match l with
  | [] => None
  | kv :: l' => if decide (fst kv = k) then Some (snd kv) else assoc l' k
  end.

(** A card as [setCardVisibility] leaves it when it hides it: the marker
    and all eight properties with their hiding values. *)
Definition suppressed (e : element) : Prop :=
  isHiddenCard e = true
  /\ forall k v, In (k, v) hidingStyle -> style e !! k = Some v.

(** A card as [setCardVisibility] leaves it when it shows it: no marker
    and none of the eight properties. *)
Definition unsuppressed (e : element) : Prop :=
  isHiddenCard e = false
  /\ forall k, In k hidingProperties -> style e !! k = None.

(** The update that applies [F q] to the element at every path [q] of
    [ps]. *)
Definition onPaths (F : path -> element -> element) (ps : list path)
  : path -> element -> element :=
  fun q e => if decide (q ∈ ps) then F q e else e.

Definition showIfHidden (e : element) : element :=
  if isHiddenCard e then showCard e else e.

(** The pass hides cards only when the master switch is on and some list
    has an entry. *)
Definition enabled (st : settings) : bool :=
  masterEnabled st
  && negb (length (blockedStreamers st) + length (blockedTags st) =? 0)%nat.

(** Example documents and settings, for the concrete instances. *)
Definition exampleElem (tag : string) (classes : list string) (kids : list node)
  : node :=
  Elem (Element tag (map lit classes) ∅) kids.

(** A listing with two cards: the first names its streamer and has a title
    and a tag, the second is anonymous markup (digits only, no class that
    the extractor knows). *)
Definition exampleCard : node :=
  exampleElem "li" ["navigation_component_item__iMPOI"]%string
    [ exampleElem "span" ["name_text__x"]%string [Text (lit " Nova_TV ")];
      exampleElem "div" ["video_title"]%string [Text (lit "Playing [RPG] the game")];
      exampleElem "span" ["tag_item"]%string [Text (lit "talk")] ].

Definition anonymousCard : node :=
  exampleElem "li" ["navigation_component_item__iMPOI"]%string [Text (lit "12 34")].

Definition exampleDoc : node :=
  exampleElem "body" [] [ exampleElem "ul" [] [exampleCard; anonymousCard] ].

Definition blockNova : settings := Settings true true true [lit "Nova"] [].
Definition masterOff : settings := Settings false true true [lit "Nova"] [].

Definition fooCard : node :=
  exampleElem "li" ["navigation_component_item__iMPOI"]%string
    [ exampleElem "span" ["name_text"]%string [Text (lit "Foo")] ].

Definition fooDoc : node :=
  exampleElem "body" [] [ exampleElem "ul" [] [fooCard] ].

(** The script after a right click on the card of "Foo", with the given
    list of blocked streamers. *)
Definition fooBlocker (blocked : list jsstring) : blocker :=
  Blocker (Settings true true true blocked []) (Some [0; 0]%nat) fooDoc ∅.

(** What a right-click action may change: of the settings only
    [blockedStreamers], of the storage area only the key
    ["blockedStreamers"], which is also the only key of the write it
    requests. *)
Definition touchesOnlyStreamers (h : blocker -> async) : Prop :=
  forall (b : blocker) (ok : bool),
    let b' := complete ok (h b) in
    masterEnabled (config b') = masterEnabled (config b)
    /\ streamerEnabled (config b') = streamerEnabled (config b)
    /\ tagEnabled (config b') = tagEnabled (config b)
    /\ blockedTags (config b') = blockedTags (config b)
    /\ (forall key, key <> "blockedStreamers"%string ->
                    storage b' !! key = storage b !! key)
    /\ match h b with
       | Return _ => True
       | AwaitSet _ items _ => dom items = {[ "blockedStreamers"%string ]}
       end.

(** The class tests of the three blocks of the loop body. *)
Definition nameLabelled (classList : list jsstring) : bool :=
  hasClassContaining classList (lit "channel")
  || hasClassContaining classList (lit "name")
  || hasClassContaining classList (lit "ellipsis").

Definition titleLabelled (classList : list jsstring) : bool :=
  hasClassContaining classList (lit "title").

Definition tagLabelled (classList : list jsstring) : bool :=
  hasClassContaining classList (lit "tag")
  || hasClassContaining classList (lit "category")
  || hasClassContaining classList (lit "genre").

(** Where the fields of a record come from. *)
Definition nameFromClass (words : list jsstring) (card : node) (s : jsstring) : Prop :=
  exists p d, In (p, d) (descendants card)
              /\ nameLabelled (nodeClassList d) = true
              /\ s = cleanText words (trim (textContent d)).

Definition nameFromNameText (card : node) (s : jsstring) : Prop :=
  exists p d, In (p, d) (descendants card)
              /\ nodeMatches (sel None (ClassContains (lit "name_text"))) d = true
              /\ s = trim (textContent d).

Definition titleFromClass (card : node) (s : jsstring) : Prop :=
  exists p d, In (p, d) (descendants card)
              /\ titleLabelled (nodeClassList d) = true
              /\ s = cleanText titleBoilerplate (trim (textContent d)).

Definition tagFromClass (card : node) (s : jsstring) : Prop :=
  exists p d, In (p, d) (descendants card)
              /\ tagLabelled (nodeClassList d) = true
              /\ s = trim (textContent d).

Definition nameSourced (words : list jsstring) (card : node) (info : streamerInfo) : Prop :=
  name info = [] \/ nameFromClass words card (name info).

Definition titleSourced (card : node) (info : streamerInfo) : Prop :=
  title info = [] \/ titleFromClass card (title info).

Definition tagsSourced (card : node) (info : streamerInfo) : Prop :=
  forall x, In x (tags info) -> tagFromClass card x.

(** Every field of the record is empty or comes from one of the sources
    that the extractor consults; [nameSrc] stands for the class-based
    sources of the name of the variant at hand. *)
Definition sourced (nameSrc : jsstring -> Prop) (card : node) (info : streamerInfo) : Prop :=
  (name info = [] \/ nameSrc (name info)
   \/ matchRun isHangul 2 8 (textContent card) = Some (name info)
   \/ matchRun isLatinLetter 3 15 (textContent card) = Some (name info))
  /\ (title info = [] \/ titleFromClass card (title info))
  /\ (forall x, In x (tags info) ->
                tagFromClass card x \/ In x (titleWords (title info))).

(** Markup that none of the heuristics recognises. *)
Definition anonymous (card : node) : Prop :=
  (forall p d, In (p, d) (descendants card) ->
               nameLabelled (nodeClassList d) = false
               /\ titleLabelled (nodeClassList d) = false
               /\ tagLabelled (nodeClassList d) = false)
  /\ matchRun isHangul 2 8 (textContent card) = None
  /\ matchRun isLatinLetter 3 15 (textContent card) = None.

Definition blockTalk : settings := Settings true true true [] [lit "talk"].
Definition blockRPG : settings := Settings true true true [] [lit "RPG"].

(** ** Settings bridge, messages and triggers

    The remaining parts of the script: how the settings are loaded, the
    messages it listens to, the triggers of a pass, and the background
    script. *)

(** [data.key !== false]: every value but [false] turns the switch on. *)
Definition storedFlag (data : gmap string storedValue) (key : string) : bool :=
  match data !! key with
  | Some (StoredBool false) => false
  | _ => true
  end.

(** [data.key || []].  A missing key and [false] give the empty array, an
    array is kept.  The value [true] would be kept as well; it is no array,
    and the script has no state for it ([None]). *)
Definition storedList (data : gmap string storedValue) (key : string)
  : option (list jsstring) :=
  match data !! key with
  | None => Some []
  | Some (StoredList l) => Some l
  | Some (StoredBool false) => Some []
  | Some (StoredBool true) => None
  end.

(** [loadSettings]; [ok] tells whether [chrome.storage.sync.get] succeeded.
    When it fails the [catch] block logs the error and the settings stay
    as they are. *)
Definition loadSettings (ok : bool) (b : blocker) : option blocker :=
  if ok
  then
    let data := storage b in
    match storedList data "blockedStreamers", storedList data "blockedTags" with
    | Some streamers, Some tags =>
        Some (Blocker
                (Settings (storedFlag data "masterBlockEnabled")
                          (storedFlag data "streamerBlockEnabled")
                          (storedFlag data "tagBlockEnabled")
                          streamers tags)
                (contextTarget b) (document b) (storage b))
    | _, _ => None
    end
  else Some b.

(** The messages that reach [chrome.runtime.onMessage] of the content
    script, by their [action]. *)
Inductive message :=
| UpdateBlockSettings (newSettings : settings)
| UpdateBlockList (newStreamers newTags : option (list jsstring))
| HandleContextMenu
| OtherAction (action : string).

Definition setConfig (st : settings) (b : blocker) : blocker :=
  Blocker st (contextTarget b) (document b) (storage b).

Section Listener.

(** The field extractor of the variant at hand. *)
Variable extractStreamerInfo : node -> streamerInfo.

(** [this.applyBlocking()] on the script object. *)
Definition reapply (b : blocker) : blocker :=
  setDocument (applyBlocking extractStreamerInfo (config b) (document b)) b.

(** The listener of [setupMessageListener] in [content.js] and in the
    in-page-menu variant. *)
Definition onMessage (m : message) (b : blocker) : blocker :=
  match m with
  | UpdateBlockSettings newSettings => reapply (setConfig newSettings b)
  | UpdateBlockList newStreamers newTags =>
      let b :=
        match newStreamers with
        | Some l => setStreamers l b
        | None => b
        end in
      let b :=
        match newTags with
        | Some l =>
            setConfig (Settings (masterEnabled (config b)) (streamerEnabled (config b))
                                (tagEnabled (config b)) (blockedStreamers (config b)) l) b
        | None => b
        end in
      reapply b
  | _ => b
  end.

(** The callback of [setInterval] in [content.js]: a pass, behind the gate
    that the [scroll], [resize] and [focus] listeners check as well. *)
Definition periodicCheck (b : blocker) : blocker :=
  let totalBlocked :=
    (length (blockedStreamers (config b)) + length (blockedTags (config b)))%nat in
  if masterEnabled (config b) && (0 <? totalBlocked)%nat
  then reapply b
  else b.

(** [startBlocking], as far as the document goes: the first pass. *)
Definition startBlocking (b : blocker) : blocker := reapply b.

End Listener.

(** The listener of the native-menu variant: the same, and
    [handleContextMenu] runs the toggle. *)
Definition nativeOnMessage (m : message) (b : blocker) : async :=
  match m with
  | HandleContextMenu => NativeMenu.handleContextMenuAction b
  | _ => Return (onMessage Menu.extractStreamerInfo m b)
  end.

(** The two titles of the native menu item: "hide streamer" and "undo
    hiding the streamer". *)
Inductive menuTitle :=
| HideStreamer
| UnhideStreamer.

(** The [updateContextMenu] request that the [contextmenu] listener of a
    card sends to the background script, if it sends one. *)
Definition contextMenuTitle (card : path) (b : blocker) : option menuTitle :=
  let streamerInfo := Menu.extractStreamerInfo (nodeAt (document b) card) in
  if negb (isEmpty (name streamerInfo))
  then
    let isBlocked := arr_includes (blockedStreamers (config b)) (name streamerInfo) in
    Some (if isBlocked then UnhideStreamer else HideStreamer)
  else None.

(** *** The mutation observer *)

(** The selectors that the observer tries on an added node. *)
Definition streamCardSelectors : list selector :=
  [ sel None (HasClass (lit "navigation_component_item__iMPOI"));
    sel None (HasClass (lit "video_card_container__urjO6"));
    sel None (ClassContains (lit "video_card_container"));
    sel None (ClassContains (lit "navigation_component_item"));
    sel None (ClassContains (lit "live_card"));
    sel None (ClassContains (lit "stream_card"));
    sel None (ClassContains (lit "card"));
    sel None (ClassContains (lit "item")) ].

(** The selectors of the method [isStreamCard]. *)
Definition cardSelectors : list selector :=
  [ sel None (HasClass (lit "navigation_component_item__iMPOI"));
    sel None (HasClass (lit "live_card_item"));
    sel None (ClassContains (lit "card"));
    sel None (ClassContains (lit "item")) ].

(** [node.querySelector(s)]: the first matching descendant. *)
Definition querySelector (n : node) (s : selector) : option node :=
  head (List.filter (nodeMatches s) (map snd (descendants n))).

(** [node.matches?.(selector) || node.querySelector?.(selector)]. *)
Definition matchesOrContains (n : node) (s : selector) : bool :=
  nodeMatches s n
  || match querySelector n s with Some _ => true | None => false end.

Definition isStreamCard (element : node) : bool :=
  some cardSelectors (matchesOrContains element).

(** A mutation record: its type and the nodes it added. *)
Record mutation := Mutation {
  isChildList : bool;
  addedNodes : list node
}.

Definition isElementNode (n : node) : bool :=
  match n with
  | Elem _ _ => true
  | Text _ => false
  end.

(** The callback of the [MutationObserver]: whether it schedules a pass
    ([shouldReapply]). *)
Definition observerCallback (mutations : list mutation) : bool :=
  some mutations (fun mutation =>
    isChildList mutation && (0 <? length (addedNodes mutation))%nat
    && some (addedNodes mutation) (fun node =>
         isElementNode node
         && some streamCardSelectors (matchesOrContains node))).

(** *** The background script *)

(** [chrome.runtime.onInstalled]: on a fresh install two keys are
    stored. *)
Definition onInstalled (reason : string) (data : gmap string storedValue)
  : gmap string storedValue :=
  if bool_decide (reason = "install"%string)
  then {[ "blockedItems"%string := StoredList [];
          "isEnabled"%string := StoredBool true ]} ∪ data
  else data.

(** The bounds that the extractor keeps on a record. *)
Definition recordBounded (info : streamerInfo) : Prop :=
  (length (name info) < 50)%nat
  /\ List.NoDup (tags info)
  /\ Forall (fun tag => 0 < length tag < 20)%nat (tags info).

(** The words that the fallback does not accept as a name. *)
Definition commonKorean : list jsstring := [w_live; w_channel; w_move; w_broadcast; w_stream].
Definition commonEnglish : list jsstring :=
  [lit "LIVE"; lit "live"; lit "channel"; lit "stream"].

Definition setStorage (data : gmap string storedValue) (b : blocker) : blocker :=
  Blocker (config b) (contextTarget b) (document b) data.

(** In [s] every white-space code unit is a SPACE that no white space
    follows; [after] tells whether white space comes right before [s]. *)
Fixpoint singleSpaced (after : bool) (s : jsstring) : bool :=
  match s with
  | [] => true
  | c :: s' =>
      if isWhiteSpace c
      then negb after && (c =? 32) && singleSpaced true s'
      else singleSpaced false s'
  end.

(** No white space, comma, bracket or parenthesis occurs in [w]. *)
Definition separatorFree (w : jsstring) : bool := forallb (fun c => negb (isSeparator c)) w.

(** * Proofs *)

(** ** Strings *)

Lemma cu_eqb_eq (a b : N) : cu_eqb a b = true <-> a = b.
Proof. apply N.eqb_eq. Qed.

Lemma str_eqb_eq (s t : jsstring) : str_eqb s t = true <-> s = t.
Proof.
  revert t. induction s as [|a s IH]; intros [|b t]; simpl; try (split; congruence).
  rewrite andb_true_iff, cu_eqb_eq, IH. split.
  - intros [-> ->]. reflexivity.
  - intros [= -> ->]. auto.
Qed.

Lemma str_eqb_refl (s : jsstring) : str_eqb s s = true.
Proof. apply str_eqb_eq. reflexivity. Qed.

Lemma arr_includes_In (l : list jsstring) (x : jsstring) :
  arr_includes l x = true <-> In x l.
Proof.
  unfold arr_includes. rewrite existsb_exists. split.
  - intros (y & Hy & E). apply str_eqb_eq in E. subst. exact Hy.
  - intros H. exists x. split; [exact H|apply str_eqb_refl].
Qed.

Lemma arr_includes_app (l1 l2 : list jsstring) (x : jsstring) :
  arr_includes (l1 ++ l2) x = arr_includes l1 x || arr_includes l2 x.
Proof. apply existsb_app. Qed.

Lemma startsWith_spec (s t : jsstring) :
  startsWith s t = true <-> exists post, s = t ++ post.
Proof.
  revert s. induction t as [|b t IH]; intros s; simpl.
  - split; [intros _; exists s; reflexivity|reflexivity].
  - destruct s as [|a s].
    + split; [discriminate|intros [post E]; discriminate].
    + rewrite andb_true_iff, cu_eqb_eq, IH. split.
      * intros [-> [post ->]]. exists post. reflexivity.
      * intros [post [= -> ->]]. split; [reflexivity|exists post; reflexivity].
Qed.

Lemma includes_spec (s t : jsstring) : includes s t = true <-> contains s t.
Proof.
  unfold contains. induction s as [|a s IH]; simpl.
  - rewrite orb_false_r, startsWith_spec. split.
    + intros [post E]. exists [], post. exact E.
    + intros (pre & post & E). destruct pre; [exists post; exact E|discriminate].
  - rewrite orb_true_iff, startsWith_spec, IH. split.
    + intros [[post E]|(pre & post & E)].
      * exists [], post. exact E.
      * exists (a :: pre), post. simpl. rewrite E. reflexivity.
    + intros ([|c pre] & post & E).
      * left. exists post. exact E.
      * right. injection E as -> E. exists pre, post. exact E.
Qed.

Lemma includes_nil (s : jsstring) : includes s [] = true.
Proof. apply includes_spec. exists [], s. reflexivity. Qed.

Lemma trimStart_suffix (s : jsstring) : exists pre, s = pre ++ trimStart s.
Proof.
  induction s as [|c s [pre IH]]; simpl.
  - exists []. reflexivity.
  - destruct (isWhiteSpace c).
    + exists (c :: pre). simpl. rewrite <- IH. reflexivity.
    + exists []. reflexivity.
Qed.

Lemma trimEnd_prefix (s : jsstring) : exists post, s = trimEnd s ++ post.
Proof.
  unfold trimEnd. destruct (trimStart_suffix (rev s)) as [pre E].
  exists (rev pre). rewrite <- rev_app_distr, <- E, rev_involutive. reflexivity.
Qed.

(** A string contains its trimmed form. *)
Lemma contains_trim (s : jsstring) : contains s (trim s).
Proof.
  unfold trim. destruct (trimStart_suffix s) as [pre E1].
  destruct (trimEnd_prefix (trimStart s)) as [post E2].
  exists pre, post. rewrite <- E2. exact E1.
Qed.

Lemma some_exists {A : Type} (l : list A) (f : A -> bool) :
  some l f = true <-> exists x, In x l /\ f x = true.
Proof. apply existsb_exists. Qed.

Lemma length_eqb_0 {A : Type} (l : list A) :
  negb (length l =? 0)%nat = true <-> l <> [].
Proof. destruct l; simpl; split; congruence. Qed.

(** ** Lower case *)

Lemma below_forallb (P : N -> bool) (n : nat) :
  forallb P (map N.of_nat (seq 0 n)) = true ->
  forall c, c < N.of_nat n -> P c = true.
Proof.
  intros H c Hc. rewrite forallb_forall in H. apply H. apply in_map_iff.
  exists (N.to_nat c). split; [apply N2Nat.id|]. apply in_seq. lia.
Qed.

(** What the mapping does with a Basic Latin code unit. *)
Lemma basicLatin_facts (c : N) :
  c < 128 ->
  isHighSurrogate c = false
  /\ (c =? 931) = false /\ (c =? 304) = false
  /\ simpleLower c = lowerCU c
  /\ codeUnits (lowerCU c) = [lowerCU c].
Proof.
  intros Hc.
  pose proof (below_forallb
    (fun c => negb (isHighSurrogate c) && negb (c =? 931) && negb (c =? 304)
              && (simpleLower c =? lowerCU c) && (lowerCU c <? 65536))
    128 ltac:(vm_compute; reflexivity) c Hc) as H.
  cbv beta in H. rewrite !andb_true_iff, !negb_true_iff in H.
  destruct H as ((((H1 & H2) & H3) & H4) & H5).
  apply N.eqb_eq in H4. unfold codeUnits. rewrite H5. auto.
Qed.

Lemma codePoints_cons (c : N) (s : jsstring) :
  isHighSurrogate c = false -> codePoints (c :: s) = c :: codePoints s.
Proof. intros H. cbn [codePoints]. rewrite H. destruct s; reflexivity. Qed.

Lemma codePoints_prefix (w s : jsstring) :
  Forall (fun c => isHighSurrogate c = false) w ->
  codePoints (w ++ s) = w ++ codePoints s.
Proof.
  induction 1 as [|c w Hc _ IH]; [reflexivity|].
  cbn [app]. rewrite (codePoints_cons c _ Hc), IH. reflexivity.
Qed.

(** A code unit that is no low surrogate starts a code point, whatever
    comes before it. *)
Lemma codePoints_before (pre : jsstring) (x : N) (s : jsstring) :
  isLowSurrogate x = false ->
  exists A, codePoints (pre ++ x :: s) = A ++ codePoints (x :: s).
Proof.
  intros Hx. remember (length pre) as n eqn:En.
  revert pre En. induction n as [n IH] using lt_wf_ind. intros pre En.
  destruct pre as [|c pre]; [exists []; reflexivity|].
  destruct pre as [|d pre].
  - exists [c]. cbn [app codePoints]. rewrite Hx, andb_false_r. reflexivity.
  - cbn [app]. change (codePoints (c :: d :: pre ++ x :: s))
      with (if isHighSurrogate c && isLowSurrogate d
            then 65536 + (c - 55296) * 1024 + (d - 56320) :: codePoints (pre ++ x :: s)
            else c :: codePoints ((d :: pre) ++ x :: s)).
    destruct (isHighSurrogate c && isLowSurrogate d).
    + destruct (IH (length pre) ltac:(subst n; cbn; lia) pre eq_refl) as [A HA].
      eexists (_ :: A). rewrite HA. reflexivity.
    + destruct (IH (length (d :: pre)) ltac:(subst n; cbn; lia) (d :: pre) eq_refl)
        as [A HA].
      exists (c :: A). rewrite HA. reflexivity.
Qed.

Lemma lowerCodePoints_app (A R : list N) (b : bool) :
  exists O b', lowerCodePoints b (A ++ R) = O ++ lowerCodePoints b' R.
Proof.
  revert b. induction A as [|c A IH]; intros b; [exists [], b; reflexivity|].
  cbn [app lowerCodePoints].
  destruct (IH (if isCaseIgnorable c then b else isCased c)) as (O & b' & E).
  rewrite E, app_assoc. eauto.
Qed.

Lemma lowerCodePoints_basicLatin (w R : list N) (b : bool) :
  Forall (fun c => c < 128) w ->
  exists b', lowerCodePoints b (w ++ R) = map lowerCU w ++ lowerCodePoints b' R.
Proof.
  intros Hw. revert b. induction Hw as [|c w Hc _ IH]; intros b; [exists b; reflexivity|].
  cbn [app lowerCodePoints map].
  destruct (basicLatin_facts c Hc) as (_ & -> & -> & -> & _).
  destruct (IH (if isCaseIgnorable c then b else isCased c)) as (b' & E).
  rewrite E. exists b'. reflexivity.
Qed.

Lemma codeUnits_basicLatin (w : list N) :
  Forall (fun c => c < 128) w ->
  concat (map codeUnits (map lowerCU w)) = map lowerCU w.
Proof.
  induction 1 as [|c w Hc _ IH]; [reflexivity|]. cbn [map concat].
  rewrite (proj2 (proj2 (proj2 (proj2 (basicLatin_facts c Hc))))), IH. reflexivity.
Qed.

(** A piece of Basic Latin code units is lower-cased in place, wherever
    it stands in the string. *)
Lemma toLowerCase_basicLatin (pre w post : jsstring) :
  Forall (fun c => c < 128) w ->
  contains (toLowerCase (pre ++ w ++ post)) (map lowerCU w).
Proof.
  intros Hw. destruct w as [|x w]; [exists [], (toLowerCase (pre ++ post)); reflexivity|].
  assert (Hx : x < 128) by (inversion Hw; assumption).
  assert (Hlow : isLowSurrogate x = false).
  { unfold isLowSurrogate. apply andb_false_iff. left. apply N.leb_gt. lia. }
  assert (Hhigh : Forall (fun c => isHighSurrogate c = false) (x :: w)).
  { eapply Forall_impl; [exact Hw|]. intros c Hc. apply (basicLatin_facts c Hc). }
  unfold toLowerCase. cbn [app].
  destruct (codePoints_before pre x (w ++ post) Hlow) as [A ->].
  change (x :: w ++ post) with ((x :: w) ++ post).
  rewrite (codePoints_prefix _ _ Hhigh).
  destruct (lowerCodePoints_app A ((x :: w) ++ codePoints post) false) as (O & b' & ->).
  destruct (lowerCodePoints_basicLatin (x :: w) (codePoints post) b' Hw) as (b'' & ->).
  rewrite !map_app, !concat_app, (codeUnits_basicLatin _ Hw).
  eexists _, _. reflexivity.
Qed.

(** White space has no case. *)
Lemma isWhiteSpace_cases (c : N) :
  isWhiteSpace c = true ->
  In c [9; 10; 11; 12; 13; 32; 160; 5760; 8192; 8193; 8194; 8195; 8196; 8197; 8198;
        8199; 8200; 8201; 8202; 8232; 8233; 8239; 8287; 12288; 65279].
Proof.
  unfold isWhiteSpace.
  rewrite !orb_true_iff, !andb_true_iff, !N.leb_le, !N.eqb_eq. cbn [In]. lia.
Qed.

Lemma whiteSpace_facts (c : N) :
  isWhiteSpace c = true ->
  isHighSurrogate c = false
  /\ (c =? 931) = false /\ (c =? 304) = false
  /\ simpleLower c = c
  /\ codeUnits c = [c].
Proof.
  intros Hc. apply isWhiteSpace_cases in Hc.
  assert (H : forallb (fun c => negb (isHighSurrogate c) && negb (c =? 931)
                                && negb (c =? 304) && (simpleLower c =? c)
                                && (c <? 65536))
                [9; 10; 11; 12; 13; 32; 160; 5760; 8192; 8193; 8194; 8195; 8196; 8197;
                 8198; 8199; 8200; 8201; 8202; 8232; 8233; 8239; 8287; 12288; 65279]
              = true) by (vm_compute; reflexivity).
  rewrite forallb_forall in H. specialize (H c Hc). cbv beta in H.
  rewrite !andb_true_iff, !negb_true_iff in H.
  destruct H as ((((H1 & H2) & H3) & H4) & H5).
  apply N.eqb_eq in H4. unfold codeUnits. rewrite H5. auto.
Qed.

Lemma lowerCodePoints_blank (s : list N) (b : bool) :
  forallb isWhiteSpace s = true -> lowerCodePoints b s = s.
Proof.
  revert b. induction s as [|c s IH]; intros b H; [reflexivity|].
  cbn [forallb] in H. apply andb_true_iff in H as [Hc Hs].
  cbn [lowerCodePoints].
  destruct (whiteSpace_facts c Hc) as (_ & -> & -> & -> & _).
  rewrite IH by exact Hs. reflexivity.
Qed.

Lemma toLowerCase_blank (s : jsstring) :
  forallb isWhiteSpace s = true -> toLowerCase s = s.
Proof.
  intros H. unfold toLowerCase.
  assert (E : codePoints s = s).
  { rewrite <- (app_nil_r s) at 1. rewrite codePoints_prefix; [apply app_nil_r|].
    apply List.Forall_forall. intros c Hc. rewrite forallb_forall in H.
    apply (whiteSpace_facts c (H c Hc)). }
  rewrite E, (lowerCodePoints_blank s false H). clear E.
  induction s as [|c s IH]; [reflexivity|].
  cbn [forallb] in H. apply andb_true_iff in H as [Hc Hs]. cbn [map concat].
  rewrite (proj2 (proj2 (proj2 (proj2 (whiteSpace_facts c Hc))))), (IH Hs). reflexivity.
Qed.

(** ** Matcher *)

Lemma matchesStreamer_spec (info : streamerInfo) (b : jsstring) :
  matchesStreamer info b = true <->
  contains (trim (toLowerCase (name info))) (trim (toLowerCase b))
  \/ contains (trim (toLowerCase b)) (trim (toLowerCase (name info)))
  \/ contains (toLowerCase (title info)) (trim (toLowerCase b)).
Proof.
  unfold matchesStreamer. rewrite !orb_true_iff, !includes_spec. tauto.
Qed.

Lemma matchesTag_spec (info : streamerInfo) (t : jsstring) :
  matchesTag info t = true <->
  (exists tag, In tag (tags info) /\
     (contains (toLowerCase tag) (trim (toLowerCase t))
      \/ contains (trim (toLowerCase t)) (toLowerCase tag)))
  \/ contains (toLowerCase (title info)) (trim (toLowerCase t)).
Proof.
  unfold matchesTag. rewrite orb_true_iff, some_exists, includes_spec.
  split; (intros [(tag & Hin & H)|H]; [left; exists tag; split; [exact Hin|]|right; exact H]).
  - apply orb_true_iff in H. rewrite !includes_spec in H. exact H.
  - apply orb_true_iff. rewrite !includes_spec. exact H.
Qed.

Lemma shouldHideInfo_spec (st : settings) (info : streamerInfo) :
  shouldHideInfo st info = true <->
  (streamerEnabled st = true /\ blockedStreamers st <> [] /\
   exists b, In b (blockedStreamers st) /\ matchesStreamer info b = true)
  \/ (tagEnabled st = true /\ blockedTags st <> [] /\
      exists t, In t (blockedTags st) /\ matchesTag info t = true).
Proof.
  unfold shouldHideInfo.
  destruct (streamerEnabled st && negb (length (blockedStreamers st) =? 0)%nat
            && some (blockedStreamers st) (matchesStreamer info)) eqn:E1.
  - apply andb_true_iff in E1 as [E1 E3]. apply andb_true_iff in E1 as [E1 E2].
    apply length_eqb_0 in E2. apply some_exists in E3. split; [intros _|reflexivity].
    left. auto.
  - destruct (tagEnabled st && negb (length (blockedTags st) =? 0)%nat
              && some (blockedTags st) (matchesTag info)) eqn:E2.
    + apply andb_true_iff in E2 as [E2 E4]. apply andb_true_iff in E2 as [E2 E3].
      apply length_eqb_0 in E3. apply some_exists in E4. split; [intros _|reflexivity].
      right. auto.
    + split; [discriminate|].
      intros [(H1 & H2 & H3)|(H1 & H2 & H3)].
      * apply (proj2 (length_eqb_0 _)) in H2. apply (proj2 (some_exists _ _)) in H3.
        rewrite H1, H2, H3 in E1. discriminate.
      * apply (proj2 (length_eqb_0 _)) in H2. apply (proj2 (some_exists _ _)) in H3.
        rewrite H1, H2, H3 in E2. discriminate.
Qed.

(** C3, as amended: the streamer rule compares the lower-cased and trimmed
    blocked entry with the lower-cased and trimmed name (containment in
    either direction) and with the lower-cased title; blocked "abc" and
    name "abc123" match, blocked "xyz" and name "abc" with a title that does
    not contain "xyz" do not. *)
Theorem C3_streamer_rule :
  (forall (info : streamerInfo) (b : jsstring),
      matchesStreamer info b = true <->
      contains (trim (toLowerCase (name info))) (trim (toLowerCase b))
      \/ contains (trim (toLowerCase b)) (trim (toLowerCase (name info)))
      \/ contains (toLowerCase (title info)) (trim (toLowerCase b)))
  /\ (forall t ts, matchesStreamer (Info (lit "abc123") t ts) (lit "abc") = true)
  /\ (forall t ts, includes (toLowerCase t) (lit "xyz") = false ->
                   matchesStreamer (Info (lit "abc") t ts) (lit "xyz") = false).
Proof.
  split; [exact matchesStreamer_spec|split].
  - intros t ts. reflexivity.
  - intros t ts H. unfold matchesStreamer. simpl name. simpl title.
    change (trim (toLowerCase (lit "xyz"))) with (lit "xyz"). rewrite H. reflexivity.
Qed.

Lemma C3_streamer_rule_witness :
  includes (toLowerCase (lit "Some title")) (lit "xyz") = false
  /\ matchesStreamer (Info (lit "abc") (lit "Some title") []) (lit "xyz") = false.
Proof.
  split; [reflexivity|].
  apply (proj2 (proj2 C3_streamer_rule)). reflexivity.
Defined.

(** The rule as the specification words it, without the trimming, fails: the entry
    "abc " (with a trailing space) matches the name "abcd" although neither
    string contains the other and the title is empty. *)
Lemma C3_untrimmed_counterexample :
  let info := Info (lit "abcd") [] [] in
  let b := lit "abc " in
  matchesStreamer info b = true
  /\ ~ (contains (toLowerCase (name info)) (toLowerCase b)
        \/ contains (toLowerCase b) (toLowerCase (name info))
        \/ contains (toLowerCase (title info)) (toLowerCase b)).
Proof.
  split; [reflexivity|].
  rewrite <- !includes_spec. intros [H|[H|H]]; discriminate H.
Qed.

(** C2: the matcher on the empty record.  With the streamer switch on and
    any blocked streamer, the empty name is contained in the blocked entry,
    the rule fires and the card is hidden. *)
Theorem C2_empty_record_hidden :
  Content.extractStreamerInfo anonymousCard = Info [] [] []
  /\ matchesStreamer (Info [] [] []) (lit "Nova") = true
  /\ shouldHideInfo blockNova (Info [] [] []) = true
  /\ (isHiddenCard <$>
        elementAt (applyBlocking Content.extractStreamerInfo blockNova exampleDoc)
                  [0; 1]%nat) = Some true
  /\ (forall st, streamerEnabled st = true -> blockedStreamers st <> [] ->
                 shouldHideInfo st (Info [] [] []) = true).
Proof.
  split; [reflexivity|split; [reflexivity|split; [reflexivity|]]].
  split; [vm_compute; reflexivity|].
  intros st H1 H2. apply shouldHideInfo_spec. left. split; [exact H1|split; [exact H2|]].
  destruct (blockedStreamers st) as [|b l]; [congruence|].
  exists b. split; [left; reflexivity|].
  unfold matchesStreamer. simpl name. change (trim (toLowerCase [])) with (@nil N).
  rewrite includes_nil, orb_true_r. reflexivity.
Qed.

(** ** Trees and paths *)

Lemma node_ind' (P : node -> Prop) :
  (forall d, P (Text d)) ->
  (forall e ks, Forall P ks -> P (Elem e ks)) ->
  forall n, P n.
Proof.
  intros HT HE. fix IH 1. intros [d|e ks].
  - apply HT.
  - apply HE. induction ks as [|k ks IHks]; constructor; [apply IH|exact IHks].
Qed.

Lemma elements_Elem (e : element) (ks : list node) :
  elements (Elem e ks) = ([], Elem e ks) :: elementsFrom 0 ks.
Proof. reflexivity. Qed.

Lemma mapElems_Elem (g : path -> element -> element) (e : element) (ks : list node) :
  mapElems g (Elem e ks) = Elem (g [] e) (mapKids g 0 ks).
Proof.
  cbn [mapElems]. f_equal. generalize 0%nat.
  induction ks as [|k ks IH]; intros i; [reflexivity|].
  cbn [mapKids]. rewrite <- IH. reflexivity.
Qed.

Lemma updateElem_nil (f : element -> element) (e : element) (ks : list node) :
  updateElem f [] (Elem e ks) = Elem (f e) ks.
Proof. reflexivity. Qed.

Lemma updateElem_cons (f : element -> element) (i : nat) (p : path)
    (e : element) (ks : list node) :
  updateElem f (i :: p) (Elem e ks) =
  match ks !! i with
  | Some k => Elem e (<[i := updateElem f p k]> ks)
  | None => Elem e ks
  end.
Proof. reflexivity. Qed.

Lemma updateElem_Text (f : element -> element) (p : path) (d : jsstring) :
  updateElem f p (Text d) = Text d.
Proof. destruct p; reflexivity. Qed.

Lemma mapKids_lookup (g : path -> element -> element) (i : nat) (ks : list node) (j : nat) :
  mapKids g i ks !! j = mapElems (fun q => g ((i + j)%nat :: q)) <$> ks !! j.
Proof.
  revert i j. induction ks as [|k ks IH]; intros i j; [reflexivity|].
  destruct j as [|j]; simpl.
  - rewrite Nat.add_0_r. reflexivity.
  - rewrite IH. replace (S i + j)%nat with (i + S j)%nat by lia. reflexivity.
Qed.

Lemma mapElems_ext (g h : path -> element -> element) (n : node) :
  (forall q e, g q e = h q e) -> mapElems g n = mapElems h n.
Proof.
  revert g h. induction n as [d|e ks IH] using node_ind'; intros g h Hgh; [reflexivity|].
  rewrite !mapElems_Elem, Hgh. f_equal. apply list_eq. intros j.
  rewrite !mapKids_lookup. destruct (ks !! j) as [k|] eqn:Hk; [simpl|reflexivity].
  f_equal. eapply Forall_lookup_1 in IH; [|exact Hk]. apply IH. intros q e'. apply Hgh.
Qed.

Lemma mapElems_id (n : node) : mapElems (fun _ e => e) n = n.
Proof.
  induction n as [d|e ks IH] using node_ind'; [reflexivity|].
  rewrite mapElems_Elem. f_equal. apply list_eq. intros j.
  rewrite mapKids_lookup. destruct (ks !! j) as [k|] eqn:Hk; [simpl|reflexivity].
  f_equal. eapply Forall_lookup_1 in IH; [|exact Hk]. exact IH.
Qed.

Lemma mapElems_compose (g h : path -> element -> element) (n : node) :
  mapElems g (mapElems h n) = mapElems (fun q e => g q (h q e)) n.
Proof.
  revert g h. induction n as [d|e ks IH] using node_ind'; intros g h; [reflexivity|].
  rewrite !mapElems_Elem. f_equal. apply list_eq. intros j.
  rewrite !mapKids_lookup. destruct (ks !! j) as [k|] eqn:Hk; [simpl|reflexivity].
  f_equal. eapply Forall_lookup_1 in IH; [|exact Hk]. apply IH.
Qed.

Ltac by_path_cases :=
  intros; cbv beta; repeat case_decide; simplify_eq; try reflexivity; try congruence.

Lemma mapElems_same (g : path -> element -> element) (n : node) :
  (forall q e, g q e = e) -> mapElems g n = n.
Proof.
  intros H. rewrite <- (mapElems_id n) at 2. apply mapElems_ext. exact H.
Qed.

(** An in-place update is a [mapElems] that changes one path. *)
Lemma updateElem_mapElems (f : element -> element) (p : path) (n : node) :
  updateElem f p n = mapElems (fun q e => if decide (q = p) then f e else e) n.
Proof.
  revert p. induction n as [d|e ks IH] using node_ind'; intros p.
  - apply updateElem_Text.
  - rewrite mapElems_Elem. cbv beta. destruct p as [|i p].
    + rewrite updateElem_nil. rewrite decide_True by reflexivity. f_equal.
      apply list_eq. intros j. rewrite mapKids_lookup.
      destruct (ks !! j) as [k|]; [cbn [fmap option_fmap option_map]|reflexivity]. f_equal.
      symmetry. apply mapElems_same. by_path_cases.
    + rewrite updateElem_cons. rewrite decide_False by discriminate.
      destruct (ks !! i) as [k'|] eqn:Hk'; f_equal; apply list_eq; intros j;
        rewrite mapKids_lookup; cbn [Nat.add].
      * destruct (decide (i = j)) as [->|Hij].
        -- rewrite list_lookup_insert_eq by (eapply lookup_lt_Some; exact Hk').
           rewrite Hk'. cbn [fmap option_fmap option_map]. f_equal.
           eapply Forall_lookup_1 in IH; [|exact Hk']. rewrite IH.
           apply mapElems_ext. by_path_cases.
        -- rewrite list_lookup_insert_ne by exact Hij.
           destruct (ks !! j) as [k|]; [cbn [fmap option_fmap option_map]|reflexivity].
           f_equal. symmetry. apply mapElems_same. by_path_cases.
      * destruct (ks !! j) as [k|] eqn:Hj; [cbn [fmap option_fmap option_map]|reflexivity].
        f_equal. symmetry. apply mapElems_same. by_path_cases.
Qed.

Lemma getNode_mapElems (g : path -> element -> element) (n : node) (p : path) :
  getNode (mapElems g n) p = mapElems (fun q => g (p ++ q)) <$> getNode n p.
Proof.
  revert g n. induction p as [|i p IH]; intros g n; [reflexivity|].
  destruct n as [d|e ks]; [reflexivity|]. rewrite mapElems_Elem. simpl.
  rewrite mapKids_lookup. destruct (ks !! i) as [k|]; [simpl|reflexivity].
  apply IH.
Qed.

Lemma textContent_mapElems (g : path -> element -> element) (n : node) :
  textContent (mapElems g n) = textContent n.
Proof.
  revert g. induction n as [d|e ks IH] using node_ind'; intros g; [reflexivity|].
  rewrite mapElems_Elem. simpl. f_equal. generalize 0%nat.
  induction IH as [|k ks Hk _ IHks]; intros i; simpl; [reflexivity|].
  rewrite Hk, IHks. reflexivity.
Qed.

Lemma elementsFrom_cons (i : nat) (k : node) (ks : list node) :
  elementsFrom i (k :: ks) = map (under i) (elements k) ++ elementsFrom (S i) ks.
Proof. reflexivity. Qed.

Lemma elementsFrom_mapKids_aux (g : path -> element -> element) (i : nat) (ks : list node) :
  Forall (fun k => forall g, elements (mapElems g k) = map (mapped g) (elements k)) ks ->
  elementsFrom i (mapKids g i ks) = map (mapped g) (elementsFrom i ks).
Proof.
  intros H. revert i. induction H as [|k ks Hk _ IH]; intros i; [reflexivity|].
  cbn [mapKids]. rewrite !elementsFrom_cons, map_app, IH, Hk, !map_map. reflexivity.
Qed.

Lemma elements_mapElems (g : path -> element -> element) (n : node) :
  elements (mapElems g n) = map (mapped g) (elements n).
Proof.
  revert g. induction n as [d|e ks IH] using node_ind'; intros g; [reflexivity|].
  rewrite mapElems_Elem, !elements_Elem, elementsFrom_mapKids_aux by exact IH.
  cbn [map]. f_equal. unfold mapped. cbn [fst snd]. rewrite mapElems_Elem. reflexivity.
Qed.

Lemma descendants_mapElems (g : path -> element -> element) (n : node) :
  descendants (mapElems g n) = map (mapped g) (descendants n).
Proof.
  destruct n as [d|e ks]; [reflexivity|]. rewrite mapElems_Elem.
  apply elementsFrom_mapKids_aux. apply Forall_forall. intros k _ g'.
  apply elements_mapElems.
Qed.

Lemma elementsFrom_In (i : nat) (ks : list node) (p : path) (d : node) :
  In (p, d) (elementsFrom i ks) ->
  exists j k q, ks !! j = Some k /\ p = (i + j)%nat :: q /\ In (q, d) (elements k).
Proof.
  revert i. induction ks as [|k ks IH]; intros i Hin; [destruct Hin|].
  rewrite elementsFrom_cons in Hin. apply in_app_or in Hin as [Hin|Hin].
  - apply in_map_iff in Hin as ([q d'] & [= <- <-] & Hin).
    exists 0%nat, k, q. rewrite Nat.add_0_r. auto.
  - destruct (IH _ Hin) as (j & k' & q & Hj & -> & Hq).
    exists (S j), k', q. split; [exact Hj|split; [f_equal; lia|exact Hq]].
Qed.

(** The paths listed by [elements] denote the elements they come with. *)
Lemma elements_getNode (n : node) (p : path) (d : node) :
  In (p, d) (elements n) -> getNode n p = Some d /\ exists e ks, d = Elem e ks.
Proof.
  revert p d. induction n as [t|e ks IH] using node_ind'; intros p d; [intros []|].
  rewrite elements_Elem. intros [[= <- <-]|Hin]; [split; [reflexivity|eauto]|].
  apply elementsFrom_In in Hin as (j & k & q & Hj & -> & Hq).
  eapply Forall_lookup_1 in IH; [|exact Hj]. cbn [getNode Nat.add]. rewrite Hj.
  apply IH. exact Hq.
Qed.

Lemma querySelectorAll_elementAt (doc : node) (s : selector) (p : path) :
  In p (querySelectorAll doc s) ->
  exists e, elementAt doc p = Some e /\ matchesSelector s e = true.
Proof.
  unfold querySelectorAll. intros H. apply in_map_iff in H as ([q d] & <- & H).
  apply filter_In in H as [H Hm]. apply elements_getNode in H as [H (e & ks & ->)].
  exists e. unfold elementAt. cbn [fst]. rewrite H. auto.
Qed.

(** ** Selectors and the classes of the script *)

Lemma isBlockerClass_inv (tok : jsstring) :
  isBlockerClass tok = true -> tok = processedClass \/ tok = hiddenClass.
Proof.
  unfold isBlockerClass. rewrite orb_true_iff, !str_eqb_eq. tauto.
Qed.

Lemma some_blind (P : jsstring -> bool) (l : list jsstring) :
  blind P = true ->
  some l P = some (List.filter (fun tok => negb (isBlockerClass tok)) l) P.
Proof.
  unfold blind. rewrite andb_true_iff, !negb_true_iff. intros [H1 H2].
  unfold some. induction l as [|tok l IH]; [reflexivity|]. cbn [existsb List.filter].
  destruct (isBlockerClass tok) eqn:E; cbn [negb existsb].
  - apply isBlockerClass_inv in E as [-> | ->]; [rewrite H1|rewrite H2]; exact IH.
  - rewrite IH. reflexivity.
Qed.

Lemma matchesCond_some (c : classCond) (e : element) :
  matchesCond c e = some (classList e) (condTest c).
Proof. destruct c; reflexivity. Qed.

Lemma matchesSelector_cosmetic (s : selector) (f : element -> element) (e : element) :
  blindSelector s = true -> cosmetic f ->
  matchesSelector s (f e) = matchesSelector s e.
Proof.
  intros Hs Hf. destruct (Hf e) as [Hn Hc]. unfold matchesSelector, blindSelector in *.
  rewrite Hn. f_equal. destruct (sel_cond s) as [c|]; [|reflexivity].
  rewrite !matchesCond_some, !(some_blind _ (classList _) Hs).
  unfold ownClasses in Hc. rewrite Hc. reflexivity.
Qed.

Lemma nodeMatches_mapElems (s : selector) (g : path -> element -> element) (n : node) :
  blindSelector s = true -> cosmetic (g []) ->
  nodeMatches s (mapElems g n) = nodeMatches s n.
Proof.
  intros Hs Hg. destruct n as [d|e ks]; [reflexivity|]. rewrite mapElems_Elem.
  apply matchesSelector_cosmetic; assumption.
Qed.

Lemma filter_map_commute {A B : Type} (P : B -> bool) (F : A -> B) (l : list A) :
  List.filter P (map F l) = map F (List.filter (fun x => P (F x)) l).
Proof.
  induction l as [|x l IH]; [reflexivity|]. cbn [map List.filter].
  destruct (P (F x)); cbn [map]; rewrite IH; reflexivity.
Qed.

Lemma querySelectorAll_mapElems (g : path -> element -> element) (doc : node) (s : selector) :
  blindSelector s = true -> (forall q, cosmetic (g q)) ->
  querySelectorAll (mapElems g doc) s = querySelectorAll doc s.
Proof.
  intros Hs Hg. unfold querySelectorAll.
  rewrite elements_mapElems, filter_map_commute, map_map. cbn [mapped fst snd].
  f_equal. apply filter_ext. intros [q d]. cbn [fst snd].
  apply nodeMatches_mapElems; [exact Hs|]. rewrite app_nil_r. apply Hg.
Qed.

Lemma findStreamCards_mapElems (g : path -> element -> element) (doc : node) :
  (forall q, cosmetic (g q)) ->
  findStreamCards (mapElems g doc) = findStreamCards doc.
Proof.
  intros Hg. unfold findStreamCards. f_equal.
  assert (Hb : Forall (fun s => blindSelector s = true) selectors).
  { repeat constructor. }
  generalize (@nil path). induction Hb as [|s l Hs _ IH]; intros acc; [reflexivity|].
  cbn [fold_left]. rewrite querySelectorAll_mapElems by assumption. apply IH.
Qed.

(** ** The field extractor does not see what the script changes *)

Lemma hasClassContaining_own (x : jsstring) (e : element) :
  blind (fun tok => includes (toLowerCase tok) (toLowerCase x)) = true ->
  hasClassContaining (classList e) x = hasClassContaining (ownClasses e) x.
Proof. intros H. apply (some_blind _ _ H). Qed.

Lemma nameStep_own (words : list jsstring) (info : streamerInfo) (e : element) (t : jsstring) :
  nameStep words info (classList e) t = nameStep words info (ownClasses e) t.
Proof.
  unfold nameStep.
  rewrite (hasClassContaining_own (lit "channel")), (hasClassContaining_own (lit "name")),
    (hasClassContaining_own (lit "ellipsis")) by reflexivity.
  reflexivity.
Qed.

Lemma titleStep_own (info : streamerInfo) (e : element) (t : jsstring) :
  titleStep info (classList e) t = titleStep info (ownClasses e) t.
Proof.
  unfold titleStep. rewrite (hasClassContaining_own (lit "title")) by reflexivity.
  reflexivity.
Qed.

Lemma tagStep_own (info : streamerInfo) (e : element) (t : jsstring) :
  tagStep info (classList e) t = tagStep info (ownClasses e) t.
Proof.
  unfold tagStep.
  rewrite (hasClassContaining_own (lit "tag")), (hasClassContaining_own (lit "category")),
    (hasClassContaining_own (lit "genre")) by reflexivity.
  reflexivity.
Qed.

Section Unseen.

Variable g : path -> element -> element.
Hypothesis g_cosmetic : forall q, cosmetic (g q).

Lemma Content_scanElement_mapElems (info : streamerInfo) (p : path) (d : node) :
  Content.scanElement info (mapElems (fun q => g (p ++ q)) d) =
  Content.scanElement info d.
Proof.
  unfold Content.scanElement. rewrite textContent_mapElems.
  destruct d as [t|e ks]; [reflexivity|]. rewrite mapElems_Elem. cbn [nodeClassList].
  destruct (g_cosmetic (p ++ []) e) as [_ Hc].
  rewrite !nameStep_own, !titleStep_own, !tagStep_own, Hc. reflexivity.
Qed.

Lemma Menu_scanName_mapElems (info : streamerInfo) (p : path) (d : node) :
  Menu.scanName info (mapElems (fun q => g (p ++ q)) d) = Menu.scanName info d.
Proof.
  unfold Menu.scanName. rewrite textContent_mapElems.
  destruct d as [t|e ks]; [reflexivity|]. rewrite mapElems_Elem. cbn [nodeClassList].
  destruct (g_cosmetic (p ++ []) e) as [_ Hc].
  rewrite !nameStep_own, Hc. reflexivity.
Qed.

Lemma Menu_scanTitleTags_mapElems (info : streamerInfo) (p : path) (d : node) :
  Menu.scanTitleTags info (mapElems (fun q => g (p ++ q)) d) =
  Menu.scanTitleTags info d.
Proof.
  unfold Menu.scanTitleTags. rewrite textContent_mapElems.
  destruct d as [t|e ks]; [reflexivity|]. rewrite mapElems_Elem. cbn [nodeClassList].
  destruct (g_cosmetic (p ++ []) e) as [_ Hc].
  rewrite !titleStep_own, !tagStep_own, Hc. reflexivity.
Qed.

Lemma fold_scan_mapped (scan : streamerInfo -> node -> streamerInfo)
    (l : list (path * node)) (info : streamerInfo) :
  (forall info p d, scan info (mapElems (fun q => g (p ++ q)) d) = scan info d) ->
  fold_left scan (map snd (map (mapped g) l)) info = fold_left scan (map snd l) info.
Proof.
  intros H. revert info. induction l as [|[p d] l IH]; intros info; [reflexivity|].
  cbn [map fold_left mapped fst snd]. rewrite H. apply IH.
Qed.

Lemma fallbackName_mapElems (card : node) (info : streamerInfo) :
  fallbackName (mapElems g card) info = fallbackName card info.
Proof. unfold fallbackName. rewrite textContent_mapElems. reflexivity. Qed.

Lemma Content_extract_mapElems (card : node) :
  Content.extractStreamerInfo (mapElems g card) = Content.extractStreamerInfo card.
Proof.
  unfold Content.extractStreamerInfo.
  rewrite descendants_mapElems, fallbackName_mapElems.
  rewrite (fold_scan_mapped _ _ _ Content_scanElement_mapElems). reflexivity.
Qed.

Lemma nameText_mapped (l : list (path * node)) :
  let s := sel None (ClassContains (lit "name_text")) in
  textContent <$> head (List.filter (nodeMatches s) (map snd (map (mapped g) l))) =
  textContent <$> head (List.filter (nodeMatches s) (map snd l)).
Proof.
  intros s. induction l as [|[p d] l IH]; [reflexivity|].
  cbn [map mapped fst snd List.filter].
  rewrite (nodeMatches_mapElems s) by (reflexivity || apply g_cosmetic).
  destruct (nodeMatches s d); [|exact IH].
  cbn [head fmap option_fmap option_map]. rewrite textContent_mapElems. reflexivity.
Qed.

Lemma Menu_fromNameText_mapElems (card : node) (info : streamerInfo) :
  Menu.fromNameText (mapElems g card) info = Menu.fromNameText card info.
Proof.
  unfold Menu.fromNameText, Menu.nameTextElement.
  pose proof (nameText_mapped (descendants card)) as H. cbv zeta in H.
  rewrite descendants_mapElems.
  destruct (head (List.filter _ (map snd (map (mapped g) (descendants card)))));
    destruct (head (List.filter _ (map snd (descendants card))));
    cbn [fmap option_fmap option_map] in H; try discriminate H; [|reflexivity].
  injection H as ->. reflexivity.
Qed.

Lemma Menu_extract_mapElems (card : node) :
  Menu.extractStreamerInfo (mapElems g card) = Menu.extractStreamerInfo card.
Proof.
  unfold Menu.extractStreamerInfo.
  rewrite Menu_fromNameText_mapElems, descendants_mapElems, fallbackName_mapElems.
  rewrite !(fold_scan_mapped _ _ _ Menu_scanName_mapElems).
  rewrite !(fold_scan_mapped _ _ _ Menu_scanTitleTags_mapElems). reflexivity.
Qed.

End Unseen.

(** ** Visibility controller *)

Lemma style_visible (card : element) :
  style (setCardVisibility card true) = foldr delete (style card) hidingProperties.
Proof. reflexivity. Qed.

Lemma style_hidden (card : element) :
  style (setCardVisibility card false) =
  foldr (fun kv m => <[fst kv := snd kv]> m) (style card) hidingStyle.
Proof. reflexivity. Qed.

Lemma lookup_foldr_delete (m : gmap string string) (l : list string) (k : string) :
  foldr delete m l !! k = if decide (k ∈ l) then None else m !! k.
Proof.
  induction l as [|x l IH]; cbn [foldr].
  - rewrite decide_False by apply not_elem_of_nil. reflexivity.
  - destruct (decide (x = k)) as [->|Hne].
    + rewrite lookup_delete_eq, decide_True by apply list_elem_of_here. reflexivity.
    + rewrite lookup_delete_ne, IH by exact Hne.
      destruct (decide (k ∈ l)) as [Hin|Hin].
      * rewrite decide_True by (apply list_elem_of_further; exact Hin). reflexivity.
      * rewrite decide_False; [reflexivity|]. rewrite elem_of_cons. intros [->|?]; auto.
Qed.

Lemma lookup_foldr_insert (m : gmap string string) (l : list (string * string)) (k : string) :
  foldr (fun kv m => <[fst kv := snd kv]> m) m l !! k =
  match assoc l k with Some v => Some v | None => m !! k end.
Proof.
  induction l as [|[x v] l IH]; cbn [foldr assoc fst snd]; [reflexivity|].
  destruct (decide (x = k)) as [->|Hne].
  - apply lookup_insert_eq.
  - rewrite lookup_insert_ne by exact Hne. exact IH.
Qed.

Lemma foldr_delete_idemp (m : gmap string string) (l : list string) :
  foldr delete (foldr delete m l) l = foldr delete m l.
Proof.
  apply map_eq. intros k. rewrite !lookup_foldr_delete.
  destruct (decide (k ∈ l)); reflexivity.
Qed.

Lemma foldr_insert_idemp (m : gmap string string) (l : list (string * string)) :
  foldr (fun kv m => <[fst kv := snd kv]> m)
        (foldr (fun kv m => <[fst kv := snd kv]> m) m l) l =
  foldr (fun kv m => <[fst kv := snd kv]> m) m l.
Proof.
  apply map_eq. intros k. rewrite !lookup_foldr_insert.
  destruct (assoc l k); reflexivity.
Qed.

Lemma classList_add_includes (tok x : jsstring) (l : list jsstring) :
  arr_includes (classList_add tok l) x = arr_includes l x || str_eqb tok x.
Proof.
  unfold classList_add. destruct (arr_includes l tok) eqn:E.
  - destruct (str_eqb tok x) eqn:Ex; [|rewrite orb_false_r; reflexivity].
    apply str_eqb_eq in Ex. subst. rewrite E. reflexivity.
  - rewrite arr_includes_app. cbn [arr_includes existsb]. rewrite orb_false_r. reflexivity.
Qed.

Lemma classList_add_idemp (tok : jsstring) (l : list jsstring) :
  arr_includes l tok = true -> classList_add tok l = l.
Proof. intros H. unfold classList_add. rewrite H. reflexivity. Qed.

Lemma classList_remove_includes (tok x : jsstring) (l : list jsstring) :
  arr_includes (classList_remove tok l) x = arr_includes l x && negb (str_eqb x tok).
Proof.
  unfold classList_remove, arr_includes.
  induction l as [|y l IH]; [reflexivity|]. cbn [List.filter existsb].
  destruct (str_eqb y tok) eqn:E; cbn [negb existsb]; rewrite IH.
  - apply str_eqb_eq in E. subst y.
    destruct (str_eqb tok x) eqn:Ex.
    + apply str_eqb_eq in Ex. subst x. rewrite str_eqb_refl. cbn [negb].
      rewrite !andb_false_r. reflexivity.
    + reflexivity.
  - destruct (str_eqb y x) eqn:Ex; [|reflexivity].
    apply str_eqb_eq in Ex. subst y. rewrite E. cbn [negb orb]. rewrite andb_true_r.
    reflexivity.
Qed.

Lemma classList_remove_idemp (tok : jsstring) (l : list jsstring) :
  classList_remove tok (classList_remove tok l) = classList_remove tok l.
Proof.
  unfold classList_remove. induction l as [|y l IH]; [reflexivity|].
  cbn [List.filter]. destruct (str_eqb y tok) eqn:E; cbn [negb List.filter]; [exact IH|].
  rewrite E. cbn [negb]. rewrite IH. reflexivity.
Qed.

Lemma element_eq (a b : element) :
  localName a = localName b -> classList a = classList b -> style a = style b -> a = b.
Proof. destruct a, b. cbn. intros -> -> ->. reflexivity. Qed.

Lemma classList_visible (card : element) :
  classList (setCardVisibility card true) =
  classList_remove hiddenClass (classList_add processedClass (classList card)).
Proof. reflexivity. Qed.

Lemma classList_hidden (card : element) :
  classList (setCardVisibility card false) =
  classList_add hiddenClass (classList_add processedClass (classList card)).
Proof. reflexivity. Qed.

Lemma localName_setCardVisibility (card : element) (v : bool) :
  localName (setCardVisibility card v) = localName card.
Proof. destruct v; reflexivity. Qed.

Lemma setCardVisibility_idempotent (card : element) (v : bool) :
  setCardVisibility (setCardVisibility card v) v = setCardVisibility card v.
Proof.
  assert (Hp : forall l, arr_includes (classList_add processedClass l) processedClass = true).
  { intros l. rewrite classList_add_includes, str_eqb_refl. apply orb_true_r. }
  apply element_eq; [apply localName_setCardVisibility| |]; destruct v.
  - rewrite !classList_visible. rewrite (classList_add_idemp processedClass).
    + apply classList_remove_idemp.
    + rewrite classList_remove_includes, Hp. reflexivity.
  - rewrite !classList_hidden. rewrite (classList_add_idemp processedClass).
    + apply classList_add_idemp. rewrite classList_add_includes, str_eqb_refl.
      apply orb_true_r.
    + rewrite classList_add_includes, Hp. reflexivity.
  - rewrite !style_visible. apply foldr_delete_idemp.
  - rewrite !style_hidden. apply foldr_insert_idemp.
Qed.

Lemma ownClasses_add (tok : jsstring) (l : list jsstring) :
  isBlockerClass tok = true ->
  List.filter (fun t => negb (isBlockerClass t)) (classList_add tok l) =
  List.filter (fun t => negb (isBlockerClass t)) l.
Proof.
  intros H. unfold classList_add. destruct (arr_includes l tok); [reflexivity|].
  rewrite List.filter_app. cbn [List.filter]. rewrite H. apply app_nil_r.
Qed.

Lemma ownClasses_remove (tok : jsstring) (l : list jsstring) :
  isBlockerClass tok = true ->
  List.filter (fun t => negb (isBlockerClass t)) (classList_remove tok l) =
  List.filter (fun t => negb (isBlockerClass t)) l.
Proof.
  intros H. unfold classList_remove. induction l as [|y l IH]; [reflexivity|].
  cbn [List.filter]. destruct (str_eqb y tok) eqn:E; cbn [negb List.filter].
  - apply str_eqb_eq in E. subst y. rewrite H. exact IH.
  - rewrite IH. reflexivity.
Qed.

Lemma setCardVisibility_cosmetic (v : bool) : cosmetic (fun e => setCardVisibility e v).
Proof.
  intros e. unfold ownClasses. destruct v; cbn [setCardVisibility localName classList];
    (split; [reflexivity|]).
  - rewrite ownClasses_remove, ownClasses_add by reflexivity. reflexivity.
  - rewrite !ownClasses_add by reflexivity. reflexivity.
Qed.

Lemma showCard_cosmetic : cosmetic showCard.
Proof.
  intros e. unfold ownClasses. cbn [showCard localName classList]. split; [reflexivity|].
  apply ownClasses_remove. reflexivity.
Qed.

Lemma cosmetic_id : cosmetic (fun e => e).
Proof. intros e. split; reflexivity. Qed.

Lemma isHiddenCard_setCardVisibility (card : element) (v : bool) :
  isHiddenCard (setCardVisibility card v) = negb v.
Proof.
  unfold isHiddenCard. destruct v; cbn [setCardVisibility classList negb].
  - rewrite classList_remove_includes, str_eqb_refl. apply andb_false_r.
  - rewrite classList_add_includes, str_eqb_refl. apply orb_true_r.
Qed.

Lemma isHiddenCard_showCard (card : element) : isHiddenCard (showCard card) = false.
Proof.
  unfold isHiddenCard. cbn [showCard classList].
  rewrite classList_remove_includes, str_eqb_refl. apply andb_false_r.
Qed.

(** ** A pass as one parallel update *)

Lemma elementAt_mapElems (g : path -> element -> element) (doc : node) (p : path) :
  elementAt (mapElems g doc) p = g p <$> elementAt doc p.
Proof.
  unfold elementAt. rewrite getNode_mapElems.
  destruct (getNode doc p) as [[d|e ks]|]; try reflexivity.
  cbn [fmap option_fmap option_map]. rewrite mapElems_Elem, app_nil_r. reflexivity.
Qed.

Lemma nodeAt_mapElems (g : path -> element -> element) (doc : node) (p : path) :
  nodeAt (mapElems g doc) p = mapElems (fun q => g (p ++ q)) (nodeAt doc p).
Proof.
  unfold nodeAt. rewrite getNode_mapElems. destruct (getNode doc p); reflexivity.
Qed.

Lemma elementAt_cons (e : element) (ks : list node) (j : nat) (k : node) (q : path) :
  ks !! j = Some k -> elementAt (Elem e ks) (j :: q) = elementAt k q.
Proof. intros H. unfold elementAt. cbn [getNode]. rewrite H. reflexivity. Qed.

(** Two updates that agree on the elements of the tree have the same
    effect. *)
Lemma mapElems_ext_on (g h : path -> element -> element) (n : node) :
  (forall q e, elementAt n q = Some e -> g q e = h q e) -> mapElems g n = mapElems h n.
Proof.
  revert g h. induction n as [d|e ks IH] using node_ind'; intros g h Hgh; [reflexivity|].
  rewrite !mapElems_Elem, (Hgh [] e) by reflexivity. f_equal. apply list_eq. intros j.
  rewrite !mapKids_lookup. destruct (ks !! j) as [k|] eqn:Hk; [|reflexivity].
  cbn [fmap option_fmap option_map Nat.add]. f_equal.
  eapply Forall_lookup_1 in IH; [|exact Hk]. apply IH. intros q e' Hq. apply Hgh.
  rewrite (elementAt_cons _ _ _ _ _ Hk). exact Hq.
Qed.

Lemma elementsFrom_lookup (i j : nat) (ks : list node) (k : node) (q : path) (d : node) :
  ks !! j = Some k -> In (q, d) (elements k) ->
  In ((i + j)%nat :: q, d) (elementsFrom i ks).
Proof.
  revert i j. induction ks as [|k0 ks IH]; intros i j Hj Hin; [discriminate|].
  rewrite elementsFrom_cons. apply in_or_app. destruct j as [|j].
  - injection Hj as ->. left. rewrite Nat.add_0_r.
    apply in_map_iff. exists (q, d). auto.
  - right. replace (i + S j)%nat with (S i + j)%nat by lia. apply IH; assumption.
Qed.

Lemma getNode_elements (n : node) (p : path) (e : element) (ks : list node) :
  getNode n p = Some (Elem e ks) -> In (p, Elem e ks) (elements n).
Proof.
  revert n. induction p as [|i p IH]; intros n H.
  - injection H as ->. rewrite elements_Elem. left. reflexivity.
  - destruct n as [d|e0 ks0]; [discriminate|]. cbn [getNode] in H.
    destruct (ks0 !! i) as [k|] eqn:Hk; [|discriminate].
    rewrite elements_Elem. right.
    apply (elementsFrom_lookup 0 i ks0 k p _ Hk). apply IH. exact H.
Qed.

Lemma elementAt_querySelectorAll (doc : node) (s : selector) (p : path) (e : element) :
  elementAt doc p = Some e -> matchesSelector s e = true -> In p (querySelectorAll doc s).
Proof.
  unfold elementAt, querySelectorAll. intros H Hm.
  destruct (getNode doc p) as [[d|e' ks]|] eqn:Hg; try discriminate. injection H as ->.
  apply in_map_iff. exists (p, Elem e ks). split; [reflexivity|].
  apply filter_In. split; [apply getNode_elements; exact Hg|exact Hm].
Qed.

Lemma uniqueFrom_In (seen l : list path) (x : path) :
  In x (uniqueFrom seen l) <-> In x l /\ ~ x ∈ seen.
Proof.
  revert seen. induction l as [|y l IH]; intros seen; cbn [uniqueFrom In]; [tauto|].
  destruct (bool_decide (y ∈ seen)) eqn:E.
  - apply bool_decide_eq_true in E. rewrite IH. split; [tauto|].
    intros [[->|H] Hn]; [contradiction|auto].
  - apply bool_decide_eq_false in E. cbn [In]. rewrite IH, elem_of_cons.
    destruct (decide (y = x)) as [->|Hne]; [tauto|]. split.
    + intros [?|[? ?]]; [contradiction|]. split; [tauto|]. intros ?. tauto.
    + intros [[?|?] ?]; [contradiction|]. right. split; [assumption|].
      intros [?|?]; [congruence|contradiction].
Qed.

Lemma findStreamCards_In (doc : node) (p : path) :
  In p (findStreamCards doc) <-> exists s, In s selectors /\ In p (querySelectorAll doc s).
Proof.
  unfold findStreamCards, unique. rewrite uniqueFrom_In.
  assert (H : forall l acc, In p (fold_left (fun cards selector =>
                 cards ++ querySelectorAll doc selector) l acc) <->
               In p acc \/ exists s, In s l /\ In p (querySelectorAll doc s)).
  { induction l as [|s l IH]; intros acc; cbn [fold_left].
    - split; [auto|]. intros [?|(s & [] & _)]. assumption.
    - rewrite IH, in_app_iff. split.
      + intros [[?|?]|(s' & ? & ?)]; [auto|right; exists s; split; [left; reflexivity|assumption]|].
        right. exists s'. split; [right; assumption|assumption].
      + intros [?|(s' & [<-|?] & ?)]; [auto|auto|]. right. exists s'. auto. }
  rewrite H. split.
  - intros [[[]|?] _]. assumption.
  - intros ?. split; [right; assumption|]. apply not_elem_of_nil.
Qed.

Lemma onPaths_cosmetic (F : path -> element -> element) (ps : list path) :
  (forall q, cosmetic (F q)) -> forall q, cosmetic (onPaths F ps q).
Proof.
  intros HF q e. unfold onPaths. destruct (decide (q ∈ ps)); [apply HF|apply cosmetic_id].
Qed.

(** A loop of in-place updates, each of which applies [F p] to the element
    at [p], amounts to one parallel update. *)
Lemma fold_updates (F : path -> element -> element) (step : node -> path -> node)
    (doc : node) :
  (forall q e, F q (F q e) = F q e) ->
  (forall done p, step (mapElems (onPaths F done) doc) p =
                  updateElem (F p) p (mapElems (onPaths F done) doc)) ->
  forall ps done,
    fold_left step ps (mapElems (onPaths F done) doc) =
    mapElems (onPaths F (done ++ ps)) doc.
Proof.
  intros Hidem Hstep. induction ps as [|p ps IH]; intros done.
  - rewrite app_nil_r. reflexivity.
  - cbn [fold_left]. rewrite Hstep, updateElem_mapElems, mapElems_compose.
    replace (done ++ p :: ps) with ((done ++ [p]) ++ ps) by (rewrite <- app_assoc; reflexivity).
    rewrite <- IH. f_equal. apply mapElems_ext. intros q e. unfold onPaths.
    destruct (decide (q = p)) as [->|Hne].
    + rewrite (decide_True (P := p ∈ done ++ [p]))
        by (apply elem_of_app; right; apply list_elem_of_here).
      destruct (decide (p ∈ done)); [apply Hidem|reflexivity].
    + destruct (decide (q ∈ done)) as [Hin|Hin].
      * rewrite decide_True by (apply elem_of_app; left; exact Hin). reflexivity.
      * rewrite decide_False; [reflexivity|]. rewrite elem_of_app, list_elem_of_singleton. tauto.
Qed.

Lemma fold_updates_start (F : path -> element -> element) (step : node -> path -> node)
    (doc : node) (ps : list path) :
  (forall q e, F q (F q e) = F q e) ->
  (forall done p, step (mapElems (onPaths F done) doc) p =
                  updateElem (F p) p (mapElems (onPaths F done) doc)) ->
  fold_left step ps doc = mapElems (onPaths F ps) doc.
Proof.
  intros Hidem Hstep. pose proof (fold_updates F step doc Hidem Hstep ps []) as H.
  cbn [app] in H. rewrite <- H.
  f_equal. symmetry. apply mapElems_same. intros q e. unfold onPaths.
  rewrite decide_False by apply not_elem_of_nil. reflexivity.
Qed.

(** *** [showAllStreamCards] *)

Lemma showCard_idempotent (e : element) : showCard (showCard e) = showCard e.
Proof.
  apply element_eq; cbn [showCard localName classList style]; [reflexivity| |].
  - apply classList_remove_idemp.
  - apply (foldr_delete_idemp _ ["display"%string]).
Qed.

Lemma matchesSelector_hidden (e : element) :
  matchesSelector (sel None (HasClass hiddenClass)) e = isHiddenCard e.
Proof. reflexivity. Qed.

Lemma showAllStreamCards_mapElems (doc : node) :
  showAllStreamCards doc = mapElems (fun _ => showIfHidden) doc.
Proof.
  unfold showAllStreamCards.
  rewrite (fold_updates_start (fun _ => showCard)
             (fun doc card => updateElem showCard card doc));
    [|intros; apply showCard_idempotent|reflexivity].
  apply mapElems_ext_on. intros q e Hq. unfold onPaths, showIfHidden.
  destruct (isHiddenCard e) eqn:E.
  - rewrite decide_True; [reflexivity|]. apply list_elem_of_In.
    eapply elementAt_querySelectorAll; [exact Hq|]. rewrite matchesSelector_hidden. exact E.
  - rewrite decide_False; [reflexivity|]. rewrite list_elem_of_In. intros Hin.
    apply querySelectorAll_elementAt in Hin as (e' & He' & Hm).
    rewrite matchesSelector_hidden in Hm. congruence.
Qed.

Lemma showIfHidden_idempotent (e : element) : showIfHidden (showIfHidden e) = showIfHidden e.
Proof.
  unfold showIfHidden. destruct (isHiddenCard e) eqn:E.
  - rewrite isHiddenCard_showCard. reflexivity.
  - rewrite E. reflexivity.
Qed.

Lemma isHiddenCard_showIfHidden (e : element) : isHiddenCard (showIfHidden e) = false.
Proof.
  unfold showIfHidden. destruct (isHiddenCard e) eqn:E; [apply isHiddenCard_showCard|exact E].
Qed.

Lemma showAllStreamCards_idempotent (doc : node) :
  showAllStreamCards (showAllStreamCards doc) = showAllStreamCards doc.
Proof.
  rewrite !showAllStreamCards_mapElems, mapElems_compose. apply mapElems_ext.
  intros q e. apply showIfHidden_idempotent.
Qed.

(** *** [applyBlocking] *)

Section Pass.

Variable extract : node -> streamerInfo.
Hypothesis extract_unseen :
  forall g, (forall q, cosmetic (g q)) ->
  forall card, extract (mapElems g card) = extract card.

Lemma shouldHideCard_mapElems (st : settings) (g : path -> element -> element)
    (doc : node) (p : path) :
  (forall q, cosmetic (g q)) ->
  shouldHideCard extract st (mapElems g doc) p = shouldHideCard extract st doc p.
Proof.
  intros Hg. unfold shouldHideCard. rewrite nodeAt_mapElems, extract_unseen; [reflexivity|].
  intros q. apply Hg.
Qed.

Lemma verdict_cosmetic (st : settings) (doc : node) (q : path) :
  cosmetic (verdict extract st doc q).
Proof. apply setCardVisibility_cosmetic. Qed.

Lemma applyBlocking_cases (st : settings) (doc : node) :
  applyBlocking extract st doc =
  if enabled st
  then mapElems (onPaths (verdict extract st doc) (findStreamCards doc)) doc
  else showAllStreamCards doc.
Proof.
  unfold applyBlocking, enabled.
  destruct (masterEnabled st); cbn [negb orb andb]; [|reflexivity].
  destruct (length (blockedStreamers st) + length (blockedTags st) =? 0)%nat;
    cbn [negb]; [reflexivity|].
  apply (fold_updates_start (verdict extract st doc)).
  - intros q e. apply setCardVisibility_idempotent.
  - intros done p. cbv beta zeta.
    rewrite shouldHideCard_mapElems; [reflexivity|].
    apply onPaths_cosmetic. apply verdict_cosmetic.
Qed.

Lemma applyBlocking_idempotent (st : settings) (doc : node) :
  applyBlocking extract st (applyBlocking extract st doc) = applyBlocking extract st doc.
Proof.
  rewrite (applyBlocking_cases st doc).
  rewrite applyBlocking_cases. destruct (enabled st).
  - assert (Hc : forall q, cosmetic (onPaths (verdict extract st doc) (findStreamCards doc) q)).
    { apply onPaths_cosmetic. apply verdict_cosmetic. }
    rewrite findStreamCards_mapElems by exact Hc.
    rewrite mapElems_compose. apply mapElems_ext. intros q e. unfold onPaths.
    destruct (decide (q ∈ findStreamCards doc)); [|reflexivity].
    unfold verdict. rewrite shouldHideCard_mapElems by exact Hc.
    apply setCardVisibility_idempotent.
  - apply showAllStreamCards_idempotent.
Qed.

Lemma enabled_false (st : settings) :
  enabled st = false ->
  masterEnabled st = false \/ (blockedStreamers st = [] /\ blockedTags st = []).
Proof.
  unfold enabled. destruct (masterEnabled st); [|auto]. cbn [andb].
  destruct (blockedStreamers st), (blockedTags st); cbn; try discriminate. auto.
Qed.

Lemma enabled_true (st : settings) :
  enabled st = true ->
  masterEnabled st = true /\ (blockedStreamers st <> [] \/ blockedTags st <> []).
Proof.
  unfold enabled. destruct (masterEnabled st); [|discriminate]. cbn [andb].
  destruct (blockedStreamers st), (blockedTags st); cbn; try discriminate;
    intros _; split; auto; (left; discriminate) || (right; discriminate).
Qed.

(** The marker of a scanned card after a pass. *)
Lemma applyBlocking_marker (st : settings) (doc : node) (p : path) :
  In p (findStreamCards doc) ->
  exists card',
    elementAt (applyBlocking extract st doc) p = Some card'
    /\ isHiddenCard card' =
       masterEnabled st && shouldHideInfo st (extract (nodeAt doc p)).
Proof.
  intros Hp. pose proof Hp as Hp'. apply findStreamCards_In in Hp' as (s & _ & Hs).
  apply querySelectorAll_elementAt in Hs as (e & He & _).
  rewrite applyBlocking_cases. destruct (enabled st) eqn:E.
  - rewrite elementAt_mapElems, He. cbn [fmap option_fmap option_map].
    eexists. split; [reflexivity|]. unfold onPaths.
    rewrite decide_True by (apply list_elem_of_In; exact Hp).
    unfold verdict. rewrite isHiddenCard_setCardVisibility, negb_involutive.
    apply enabled_true in E as [-> _]. reflexivity.
  - rewrite showAllStreamCards_mapElems, elementAt_mapElems, He.
    cbn [fmap option_fmap option_map]. eexists. split; [reflexivity|].
    rewrite isHiddenCard_showIfHidden. symmetry.
    apply enabled_false in E as [->|[H1 H2]]; [reflexivity|].
    unfold shouldHideInfo. rewrite H1, H2. cbn [length Nat.eqb negb some existsb].
    rewrite !andb_false_r. reflexivity.
Qed.

Lemma applyBlocking_in_force (st : settings) (doc : node) (p : path) :
  In p (findStreamCards doc) -> enabled st = true ->
  exists card,
    elementAt doc p = Some card
    /\ elementAt (applyBlocking extract st doc) p
       = Some (setCardVisibility card (negb (shouldHideInfo st (extract (nodeAt doc p))))).
Proof.
  intros Hp E. pose proof Hp as Hp'. apply findStreamCards_In in Hp' as (s & _ & Hs).
  apply querySelectorAll_elementAt in Hs as (e & He & _).
  exists e. split; [exact He|].
  rewrite applyBlocking_cases, E, elementAt_mapElems, He.
  cbn [fmap option_fmap option_map]. unfold onPaths.
  rewrite decide_True by (apply list_elem_of_In; exact Hp). reflexivity.
Qed.

End Pass.

Lemma suppressed_hidden (card : element) : suppressed (setCardVisibility card false).
Proof.
  split; [apply (isHiddenCard_setCardVisibility card false)|].
  intros k v Hin. rewrite style_hidden, lookup_foldr_insert.
  cbn [hidingStyle In] in Hin.
  repeat (destruct Hin as [[= <- <-]|Hin]; [reflexivity|]). destruct Hin.
Qed.

Lemma unsuppressed_shown (card : element) : unsuppressed (setCardVisibility card true).
Proof.
  split; [apply (isHiddenCard_setCardVisibility card true)|].
  intros k Hin. rewrite style_visible, lookup_foldr_delete.
  rewrite decide_True by (apply list_elem_of_In; exact Hin). reflexivity.
Qed.

Lemma showIfHidden_keeps_seven (card : element) (k v : string) :
  In (k, v) hidingStyle -> k <> "display"%string ->
  style (showIfHidden (setCardVisibility card false)) !! k = Some v.
Proof.
  intros Hin Hk. unfold showIfHidden.
  rewrite (isHiddenCard_setCardVisibility card false). cbn [negb showCard style].
  rewrite lookup_delete_ne by congruence.
  apply (proj2 (suppressed_hidden card)). exact Hin.
Qed.

(** C4: a pass with hiding in force leaves every card that the scan finds
    hidden (the marker and the eight properties set) if the master switch
    is on and the streamer rule fires (switch on, list not empty) or the
    tag rule fires (switch on, list not empty) on the record extracted from
    the card, and shown (no marker, none of the eight properties)
    otherwise.  A later pass with the master switch off or with empty lists
    does not bring a hidden card back: the marker is cleared but seven of
    the eight properties stay, so the card is still invisible with the
    master switch off. *)
Theorem C4_hidden_iff_rules (extract : node -> streamerInfo) (st : settings)
    (doc : node) (p : path) :
  extract = Content.extractStreamerInfo \/ extract = Menu.extractStreamerInfo ->
  In p (findStreamCards doc) ->
  enabled st = true ->
  let info := extract (nodeAt doc p) in
  let rules :=
    masterEnabled st = true
    /\ ((streamerEnabled st = true /\ blockedStreamers st <> [] /\
         exists b, In b (blockedStreamers st) /\ matchesStreamer info b = true)
        \/ (tagEnabled st = true /\ blockedTags st <> [] /\
            exists t, In t (blockedTags st) /\ matchesTag info t = true)) in
  exists card',
    elementAt (applyBlocking extract st doc) p = Some card'
    /\ (suppressed card' <-> rules)
    /\ (unsuppressed card' <-> ~ rules)
    /\ (forall st', enabled st' = false -> rules ->
        exists card'',
          elementAt (applyBlocking extract st' (applyBlocking extract st doc)) p
          = Some card''
          /\ isHiddenCard card'' = false
          /\ forall k v, In (k, v) hidingStyle -> k <> "display"%string ->
                         style card'' !! k = Some v).
Proof.
  intros Hx Hp E info rules.
  assert (Hunseen : forall g, (forall q, cosmetic (g q)) ->
                    forall card, extract (mapElems g card) = extract card).
  { destruct Hx as [-> | ->]; [exact Content_extract_mapElems|exact Menu_extract_mapElems]. }
  destruct (applyBlocking_in_force extract Hunseen st doc p Hp E) as (card & Hc & Hc').
  fold info in Hc'.
  assert (Hrules : rules <-> shouldHideInfo st info = true).
  { unfold rules. rewrite shouldHideInfo_spec.
    apply enabled_true in E as [Hm _]. tauto. }
  eexists. split; [exact Hc'|].
  destruct (shouldHideInfo st info) eqn:Eh; cbn [negb].
  - assert (Hr : rules) by (apply Hrules; reflexivity).
    split; [|split].
    + split; [intros _; exact Hr|intros _; apply suppressed_hidden].
    + split; [|intros Hn; destruct (Hn Hr)].
      intros [Hmark _]. rewrite (isHiddenCard_setCardVisibility card false) in Hmark.
      discriminate Hmark.
    + intros st' E' _. rewrite (applyBlocking_cases extract Hunseen st'), E'.
      rewrite showAllStreamCards_mapElems, elementAt_mapElems, Hc'.
      cbn [fmap option_fmap option_map]. eexists. split; [reflexivity|].
      split; [apply isHiddenCard_showIfHidden|]. intros k v. apply showIfHidden_keeps_seven.
  - assert (Hr : ~ rules) by (intros Hr; apply Hrules in Hr; discriminate Hr).
    split; [|split].
    + split; [|intros Hr'; destruct (Hr Hr')].
      intros [Hmark _]. rewrite (isHiddenCard_setCardVisibility card true) in Hmark.
      discriminate Hmark.
    + split; [intros _; exact Hr|intros _; apply unsuppressed_shown].
    + intros st' _ Hr'. destruct (Hr Hr').
Qed.

(** C5: [setCardVisibility] is idempotent, and so is a pass: a second
    pass on the document the first one left, with the same settings, changes
    nothing. *)
Theorem C5_idempotent :
  (forall card v,
      setCardVisibility (setCardVisibility card v) v = setCardVisibility card v)
  /\ (forall st doc,
         applyBlocking Content.extractStreamerInfo st
           (applyBlocking Content.extractStreamerInfo st doc) =
         applyBlocking Content.extractStreamerInfo st doc)
  /\ (forall st doc,
         applyBlocking Menu.extractStreamerInfo st
           (applyBlocking Menu.extractStreamerInfo st doc) =
         applyBlocking Menu.extractStreamerInfo st doc).
Proof.
  split; [exact setCardVisibility_idempotent|split].
  - apply applyBlocking_idempotent. exact Content_extract_mapElems.
  - apply applyBlocking_idempotent. exact Menu_extract_mapElems.
Qed.

Lemma C4_hidden_iff_rules_witness :
  exists card' card'',
    elementAt (applyBlocking Content.extractStreamerInfo blockNova exampleDoc) [0; 0]%nat
    = Some card'
    /\ suppressed card'
    /\ elementAt (applyBlocking Content.extractStreamerInfo masterOff
                    (applyBlocking Content.extractStreamerInfo blockNova exampleDoc))
                 [0; 0]%nat
       = Some card''
    /\ masterEnabled masterOff = false
    /\ style card'' !! "visibility"%string = Some "hidden"%string.
Proof.
  destruct (C4_hidden_iff_rules Content.extractStreamerInfo blockNova exampleDoc [0; 0]%nat
              (or_introl eq_refl))
    as (card' & H1 & H2 & _ & H3); [vm_compute; auto|reflexivity|].
  assert (Hr : masterEnabled blockNova = true
               /\ ((streamerEnabled blockNova = true /\ blockedStreamers blockNova <> [] /\
                    exists b, In b (blockedStreamers blockNova)
                              /\ matchesStreamer
                                   (Content.extractStreamerInfo
                                      (nodeAt exampleDoc [0; 0]%nat)) b = true)
                   \/ (tagEnabled blockNova = true /\ blockedTags blockNova <> [] /\
                       exists t, In t (blockedTags blockNova)
                                 /\ matchesTag
                                      (Content.extractStreamerInfo
                                         (nodeAt exampleDoc [0; 0]%nat)) t = true))).
  { split; [reflexivity|]. left. split; [reflexivity|]. split; [discriminate|].
    exists (lit "Nova"). split; [left; reflexivity|vm_compute; reflexivity]. }
  destruct (H3 masterOff eq_refl Hr) as (card'' & H4 & _ & H5).
  exists card', card''. split; [exact H1|]. split; [apply H2; exact Hr|].
  split; [exact H4|]. split; [reflexivity|].
  apply H5; [right; right; right; right; right; right; left; reflexivity|discriminate].
Defined.

(** ** The disable path *)

Lemma showAll_keeps_suppression (card : element) :
  let hidden := setCardVisibility card false in
  let shown := showIfHidden hidden in
  isHiddenCard hidden = true
  /\ isHiddenCard shown = false
  /\ style shown !! "display"%string = None
  /\ style shown !! "visibility"%string = Some "hidden"%string
  /\ style shown !! "opacity"%string = Some "0"%string
  /\ style shown !! "height"%string = Some "0px"%string
  /\ style shown !! "width"%string = Some "0px"%string
  /\ style shown !! "position"%string = Some "absolute"%string
  /\ style shown !! "left"%string = Some "-9999px"%string
  /\ style shown !! "top"%string = Some "-9999px"%string.
Proof.
  intros hidden shown.
  assert (Hh : isHiddenCard hidden = true) by apply (isHiddenCard_setCardVisibility card false).
  split; [exact Hh|]. split; [apply isHiddenCard_showIfHidden|].
  unfold shown, showIfHidden. rewrite Hh. cbn [showCard style].
  split; [apply lookup_delete_eq|].
  repeat split; (rewrite lookup_delete_ne by discriminate);
    unfold hidden; rewrite style_hidden, lookup_foldr_insert; reflexivity.
Qed.

(** C1: a pass with the master switch off or with empty lists.  The marker
    of every element is cleared, but of the eight properties that
    [setCardVisibility] sets to hide a card only [display] is removed: a
    card hidden by the script keeps [visibility: hidden], zero opacity and
    size and its off-screen position, and stays invisible. *)
Theorem C1_disable_keeps_suppression (st : settings) (doc : node) (p : path)
    (card : element) :
  enabled st = false ->
  elementAt doc p = Some (setCardVisibility card false) ->
  exists card',
    elementAt (applyBlocking Content.extractStreamerInfo st doc) p = Some card'
    /\ isHiddenCard card' = false
    /\ style card' !! "display"%string = None
    /\ style card' !! "visibility"%string = Some "hidden"%string
    /\ style card' !! "opacity"%string = Some "0"%string
    /\ style card' !! "height"%string = Some "0px"%string
    /\ style card' !! "width"%string = Some "0px"%string
    /\ style card' !! "position"%string = Some "absolute"%string
    /\ style card' !! "left"%string = Some "-9999px"%string
    /\ style card' !! "top"%string = Some "-9999px"%string
    /\ style (setCardVisibility (setCardVisibility card false) true)
         !! "visibility"%string = None.
Proof.
  intros Hd Hp.
  rewrite (applyBlocking_cases _ Content_extract_mapElems), Hd.
  rewrite showAllStreamCards_mapElems, elementAt_mapElems, Hp.
  cbn [fmap option_fmap option_map]. eexists. split; [reflexivity|].
  destruct (showAll_keeps_suppression card)
    as (_ & H1 & H2 & H3 & H4 & H5 & H6 & H7 & H8 & H9).
  repeat (split; [assumption|]).
  rewrite style_visible, lookup_foldr_delete. reflexivity.
Qed.

Lemma C1_disable_keeps_suppression_witness :
  let hiddenDoc := applyBlocking Content.extractStreamerInfo blockNova exampleDoc in
  enabled masterOff = false
  /\ (style <$> elementAt hiddenDoc [0; 0]%nat) =
     (style <$> Some (setCardVisibility
                        (Element "li" [lit "navigation_component_item__iMPOI"] ∅) false))
  /\ exists card',
       elementAt (applyBlocking Content.extractStreamerInfo masterOff hiddenDoc)
                 [0; 0]%nat = Some card'
       /\ style card' !! "visibility"%string = Some "hidden"%string.
Proof.
  intros hiddenDoc. split; [reflexivity|]. split; [vm_compute; reflexivity|].
  destruct (C1_disable_keeps_suppression masterOff hiddenDoc [0; 0]%nat
              (Element "li" [lit "navigation_component_item__iMPOI"] ∅))
    as (card' & H1 & _ & _ & H2 & _).
  - reflexivity.
  - vm_compute. reflexivity.
  - exists card'. split; assumption.
Defined.

(** After such a pass no element carries the marker. *)
Lemma applyBlocking_disabled_marker (st : settings) (doc : node) (p : path) (e : element) :
  enabled st = false ->
  elementAt (applyBlocking Content.extractStreamerInfo st doc) p = Some e ->
  isHiddenCard e = false.
Proof.
  intros Hd. rewrite (applyBlocking_cases _ Content_extract_mapElems), Hd.
  rewrite showAllStreamCards_mapElems, elementAt_mapElems.
  destruct (elementAt doc p); [|discriminate]. intros [= <-].
  apply isHiddenCard_showIfHidden.
Qed.

(** ** The scan of the selector catalog *)





(** ** The right-click actions *)

Lemma indexOf_split (l : list jsstring) (x : jsstring) :
  In x l ->
  exists l1 l2, l = l1 ++ x :: l2 /\ ~ In x l1 /\ indexOf l x = Some (length l1).
Proof.
  induction l as [|y l IH]; [intros []|]. intros Hin. cbn [indexOf].
  destruct (str_eqb y x) eqn:E.
  - apply str_eqb_eq in E. subst y. exists [], l. auto.
  - assert (Hne : y <> x) by (intros ->; rewrite str_eqb_refl in E; discriminate).
    destruct Hin as [?|Hin]; [contradiction|].
    destruct (IH Hin) as (l1 & l2 & -> & Hn & Hi).
    exists (y :: l1), l2. rewrite Hi. split; [reflexivity|split; [|reflexivity]].
    intros [?|?]; [congruence|contradiction].
Qed.

Lemma delete_at_length (l1 l2 : list jsstring) (x : jsstring) :
  delete (length l1) (l1 ++ x :: l2) = l1 ++ l2.
Proof. induction l1 as [|y l1 IH]; [reflexivity|]. cbn. f_equal. exact IH. Qed.

Lemma occurrences_app (x : jsstring) (l1 l2 : list jsstring) :
  occurrences x (l1 ++ l2) = (occurrences x l1 + occurrences x l2)%nat.
Proof. unfold occurrences. rewrite List.filter_app, length_app. reflexivity. Qed.

Lemma occurrences_absent (x : jsstring) (l : list jsstring) :
  ~ In x l -> occurrences x l = 0%nat.
Proof.
  unfold occurrences. induction l as [|y l IH]; [reflexivity|]. intros H.
  cbn [List.filter]. destruct (str_eqb y x) eqn:E.
  - apply str_eqb_eq in E. subst y. exfalso. apply H. left. reflexivity.
  - apply IH. intros ?. apply H. right. assumption.
Qed.

Lemma occurrences_one (x : jsstring) : occurrences x [x] = 1%nat.
Proof. unfold occurrences. cbn [List.filter]. rewrite str_eqb_refl. reflexivity. Qed.

Lemma arr_includes_false (l : list jsstring) (x : jsstring) :
  ~ In x l -> arr_includes l x = false.
Proof.
  intros H. destruct (arr_includes l x) eqn:E; [|reflexivity].
  apply arr_includes_In in E. contradiction.
Qed.

Lemma isEmpty_false (s : jsstring) : s <> [] -> isEmpty s = false.
Proof. destruct s; [congruence|reflexivity]. Qed.

Lemma showIfHidden_cosmetic : cosmetic showIfHidden.
Proof.
  intros e. unfold showIfHidden. destruct (isHiddenCard e);
    [apply showCard_cosmetic|apply cosmetic_id].
Qed.

(** A pass does not change what the extractor reads from a card. *)
Lemma Menu_extract_applyBlocking (st : settings) (doc : node) (card : path) :
  Menu.extractStreamerInfo (nodeAt (applyBlocking Menu.extractStreamerInfo st doc) card) =
  Menu.extractStreamerInfo (nodeAt doc card).
Proof.
  rewrite (applyBlocking_cases _ Menu_extract_mapElems). destruct (enabled st).
  - rewrite nodeAt_mapElems. apply Menu_extract_mapElems. intros q.
    apply onPaths_cosmetic. apply (verdict_cosmetic Menu.extractStreamerInfo).
  - rewrite showAllStreamCards_mapElems, nodeAt_mapElems.
    apply Menu_extract_mapElems. intros q. apply showIfHidden_cosmetic.
Qed.

Section Toggle.

Variables (b : blocker) (card : path) (n : jsstring).
Hypothesis target_b : contextTarget b = Some card.
Hypothesis name_b :
  name (Menu.extractStreamerInfo (nodeAt (document b) card)) = n.
Hypothesis name_resolved : n <> [].

Let blocked := blockedStreamers (config b).

Lemma native_absent :
  ~ In n blocked ->
  NativeMenu.handleContextMenuAction b =
  AwaitSet (setStreamers (blocked ++ [n]) b)
           {[ "blockedStreamers"%string := StoredList (blocked ++ [n]) ]}
           NativeMenu.afterWrite.
Proof.
  intros Hn. unfold NativeMenu.handleContextMenuAction.
  rewrite target_b, name_b, (isEmpty_false _ name_resolved).
  fold blocked. rewrite (arr_includes_false _ _ Hn). reflexivity.
Qed.

Lemma native_present (l1 l2 : list jsstring) :
  blocked = l1 ++ n :: l2 -> ~ In n l1 ->
  NativeMenu.handleContextMenuAction b =
  AwaitSet (setStreamers (l1 ++ l2) b)
           {[ "blockedStreamers"%string := StoredList (l1 ++ l2) ]}
           NativeMenu.afterWrite.
Proof.
  intros Hb Hn. unfold NativeMenu.handleContextMenuAction.
  rewrite target_b, name_b, (isEmpty_false _ name_resolved).
  fold blocked. assert (Hin : In n blocked).
  { rewrite Hb. apply in_or_app. right. left. reflexivity. }
  rewrite (proj2 (arr_includes_In _ _) Hin).
  destruct (indexOf_split _ _ Hin) as (l1' & l2' & Hb' & Hn' & Hi).
  rewrite Hi, Hb', delete_at_length.
  assert (l1' = l1 /\ l2' = l2) as [-> ->]; [|reflexivity].
  rewrite Hb in Hb'. clear - Hb' Hn Hn'. revert l1' Hb' Hn'.
  induction l1 as [|y l1 IH]; intros [|y' l1'] Hb' Hn'; cbn in Hb'.
  - injection Hb' as ->. auto.
  - injection Hb' as <- _. exfalso. apply Hn'. left. reflexivity.
  - injection Hb' as -> _. exfalso. apply Hn. left. reflexivity.
  - injection Hb' as <- Hb'. destruct (IH (fun H => Hn (or_intror H)) l1' Hb'
                                         (fun H => Hn' (or_intror H))) as [-> ->].
    auto.
Qed.

Lemma page_absent :
  ~ In n blocked ->
  PageMenu.blockStreamerFromContext b =
  AwaitSet (setStreamers (blocked ++ [n]) b)
           {[ "blockedStreamers"%string := StoredList (blocked ++ [n]) ]}
           PageMenu.afterWrite.
Proof.
  intros Hn. unfold PageMenu.blockStreamerFromContext.
  rewrite target_b, name_b, (isEmpty_false _ name_resolved).
  fold blocked. rewrite (arr_includes_false _ _ Hn). reflexivity.
Qed.

Lemma page_present :
  In n blocked -> PageMenu.blockStreamerFromContext b = Return b.
Proof.
  intros Hn. unfold PageMenu.blockStreamerFromContext.
  rewrite target_b, name_b, (isEmpty_false _ name_resolved).
  fold blocked. rewrite (proj2 (arr_includes_In _ _) Hn). reflexivity.
Qed.

End Toggle.

Lemma native_no_target (b : blocker) :
  contextTarget b = None -> NativeMenu.handleContextMenuAction b = Return b.
Proof. intros H. unfold NativeMenu.handleContextMenuAction. rewrite H. reflexivity. Qed.

Lemma settle_native (ok : bool) (items : gmap string storedValue) (b : blocker) :
  config (settle ok items NativeMenu.afterWrite b) = config b
  /\ contextTarget (settle ok items NativeMenu.afterWrite b) = None.
Proof. destruct ok; repeat split. Qed.

Lemma settle_page (ok : bool) (items : gmap string storedValue) (b : blocker) (card : path) :
  config (settle ok items PageMenu.afterWrite b) = config b
  /\ contextTarget (settle ok items PageMenu.afterWrite b) = contextTarget b
  /\ Menu.extractStreamerInfo
       (nodeAt (document (settle ok items PageMenu.afterWrite b)) card) =
     Menu.extractStreamerInfo (nodeAt (document b) card).
Proof.
  destruct ok; repeat split. cbn. apply Menu_extract_applyBlocking.
Qed.

(** C7, as amended.  For a captured card whose name resolves to [n]:
    [handleContextMenuAction] (native menu) appends [n] when it is absent,
    after which it occurs once, and removes the first entry equal to [n]
    when it is present; a second call after the first has finished changes
    nothing, a second call that starts while the first waits for the
    storage write removes the entry again.  [blockStreamerFromContext]
    (in-page menu) appends [n] when it is absent and leaves the list as it
    is when [n] is present; called twice it leaves one entry. *)
Theorem C7_toggle_membership (b : blocker) (card : path) (n : jsstring) :
  contextTarget b = Some card ->
  name (Menu.extractStreamerInfo (nodeAt (document b) card)) = n ->
  n <> [] ->
  let blocked := blockedStreamers (config b) in
  let native ok b := complete ok (NativeMenu.handleContextMenuAction b) in
  let page ok b := complete ok (PageMenu.blockStreamerFromContext b) in
  (~ In n blocked -> forall ok ok',
      blockedStreamers (config (native ok b)) = blocked ++ [n]
      /\ occurrences n (blocked ++ [n]) = 1%nat
      /\ blockedStreamers (config (native ok' (native ok b))) = blocked ++ [n]
      /\ blockedStreamers
           (config (overlapped NativeMenu.handleContextMenuAction ok ok' b)) = blocked)
  /\ (In n blocked -> forall ok,
        exists l1 l2, blocked = l1 ++ n :: l2 /\ ~ In n l1
                      /\ blockedStreamers (config (native ok b)) = l1 ++ l2)
  /\ (~ In n blocked -> forall ok ok',
        blockedStreamers (config (page ok b)) = blocked ++ [n]
        /\ blockedStreamers (config (page ok' (page ok b))) = blocked ++ [n]
        /\ blockedStreamers
             (config (overlapped PageMenu.blockStreamerFromContext ok ok' b))
           = blocked ++ [n])
  /\ (In n blocked -> forall ok, blockedStreamers (config (page ok b)) = blocked).
Proof.
  intros Ht Hname Hn blocked native page. subst blocked native page. cbv beta.
  split; [intros H ok ok'; split; [|split; [|split]]
         |split; [intros H ok
                 |split; [intros H ok ok'; split; [|split]|intros H ok]]].
  - rewrite (native_absent b card n Ht Hname Hn H). cbn [complete].
    rewrite (proj1 (settle_native _ _ _)). reflexivity.
  - rewrite occurrences_app, occurrences_absent, occurrences_one by exact H. reflexivity.
  - rewrite (native_absent b card n Ht Hname Hn H). cbn [complete].
    rewrite native_no_target by apply settle_native. cbn [complete].
    rewrite (proj1 (settle_native _ _ _)). reflexivity.
  - unfold overlapped. rewrite (native_absent b card n Ht Hname Hn H). cbv beta iota.
    rewrite (native_present (setStreamers (blockedStreamers (config b) ++ [n]) b)
               card n Ht Hname Hn (blockedStreamers (config b)) []);
      [|reflexivity|exact H].
    rewrite !(proj1 (settle_native _ _ _)). cbn. apply app_nil_r.
  - destruct (indexOf_split _ _ H) as (l1 & l2 & Hb & Hl1 & _).
    exists l1, l2. split; [exact Hb|split; [exact Hl1|]].
    rewrite (native_present b card n Ht Hname Hn l1 l2 Hb Hl1).
    cbn [complete]. rewrite (proj1 (settle_native _ _ _)). reflexivity.
  - rewrite (page_absent b card n Ht Hname Hn H). cbn [complete].
    rewrite (proj1 (settle_page _ _ _ card)). reflexivity.
  - rewrite (page_absent b card n Ht Hname Hn H). cbn [complete].
    destruct (settle_page ok
                {[ "blockedStreamers"%string :=
                     StoredList (blockedStreamers (config b) ++ [n]) ]}
                (setStreamers (blockedStreamers (config b) ++ [n]) b) card)
      as (Hc & Htg & Hx).
    rewrite (page_present _ card n).
    + cbn [complete]. rewrite Hc. reflexivity.
    + rewrite Htg. exact Ht.
    + rewrite Hx. exact Hname.
    + exact Hn.
    + rewrite Hc. cbn. apply in_or_app. right. left. reflexivity.
  - unfold overlapped. rewrite (page_absent b card n Ht Hname Hn H). cbv beta iota.
    rewrite (page_present (setStreamers (blockedStreamers (config b) ++ [n]) b)
               card n Ht Hname Hn).
    + rewrite (proj1 (settle_page _ _ _ card)). reflexivity.
    + cbn. apply in_or_app. right. left. reflexivity.
  - rewrite (page_present b card n Ht Hname Hn H). reflexivity.
Qed.

Lemma C7_toggle_membership_witness :
  contextTarget (fooBlocker []) = Some [0; 0]%nat
  /\ name (Menu.extractStreamerInfo (nodeAt (document (fooBlocker [])) [0; 0]%nat))
     = lit "Foo"
  /\ lit "Foo" <> []
  /\ ~ In (lit "Foo") (blockedStreamers (config (fooBlocker [])))
  /\ blockedStreamers
       (config (complete true (NativeMenu.handleContextMenuAction (fooBlocker []))))
     = [lit "Foo"].
Proof.
  split; [reflexivity|]. split; [reflexivity|]. split; [discriminate|].
  split; [intros []|].
  destruct (C7_toggle_membership (fooBlocker []) [0; 0]%nat (lit "Foo")
              eq_refl eq_refl ltac:(discriminate)) as [H _].
  destruct (H (fun x => x) true true) as [E _]. exact E.
Defined.

(** The toggle as the specification words it fails in both variants: the in-page menu does not
    remove the entry of a card that is already blocked, and two calls of the
    native-menu action in immediate succession leave no entry "Foo" instead
    of one. *)
Lemma C7_toggle_counterexample :
  name (Menu.extractStreamerInfo (nodeAt fooDoc [0; 0]%nat)) = lit "Foo"
  /\ blockedStreamers
       (config (complete true (PageMenu.blockStreamerFromContext (fooBlocker [lit "Foo"]))))
     = [lit "Foo"]
  /\ blockedStreamers
       (config (overlapped NativeMenu.handleContextMenuAction true true (fooBlocker [])))
     = [].
Proof. split; [reflexivity|split; reflexivity]. Qed.

(** *** Frame *)

Lemma lookup_written (items storage : gmap string storedValue) (l : list jsstring)
    (key : string) :
  items = {[ "blockedStreamers"%string := StoredList l ]} ->
  key <> "blockedStreamers"%string ->
  (items ∪ storage) !! key = storage !! key.
Proof.
  intros -> Hk. apply lookup_union_r. apply lookup_singleton_ne. congruence.
Qed.

Lemma native_frame : touchesOnlyStreamers NativeMenu.handleContextMenuAction.
Proof.
  intros b ok. unfold NativeMenu.handleContextMenuAction.
  destruct (contextTarget b) as [card|]; [|cbn; auto 10].
  destruct (isEmpty _); [cbn; auto 10|].
  cbv zeta. cbn [complete]. unfold settle, NativeMenu.afterWrite.
  destruct ok; cbn [config storage setTarget setDocument setStreamers masterEnabled
                    streamerEnabled tagEnabled blockedTags];
    (split; [reflexivity|split; [reflexivity|split; [reflexivity|split; [reflexivity|
       split; [|apply dom_singleton_L]]]]]);
    intros key Hk; [|reflexivity].
  eapply lookup_written; [reflexivity|exact Hk].
Qed.

Lemma page_frame : touchesOnlyStreamers PageMenu.blockStreamerFromContext.
Proof.
  intros b ok. unfold PageMenu.blockStreamerFromContext.
  destruct (contextTarget b) as [card|]; [|cbn; auto 10].
  destruct (isEmpty _); [cbn; auto 10|].
  cbv zeta. destruct (negb _); [|cbn; auto 10].
  cbn [complete]. unfold settle, PageMenu.afterWrite.
  destruct ok; cbn [config storage setTarget setDocument setStreamers masterEnabled
                    streamerEnabled tagEnabled blockedTags];
    (split; [reflexivity|split; [reflexivity|split; [reflexivity|split; [reflexivity|
       split; [|apply dom_singleton_L]]]]]);
    intros key Hk; [|reflexivity].
  eapply lookup_written; [reflexivity|exact Hk].
Qed.

Lemma click_frame : touchesOnlyStreamers PageMenu.menuItemClick.
Proof.
  intros b ok. unfold PageMenu.menuItemClick, PageMenu.blockStreamerFromContext.
  destruct (contextTarget b) as [card|]; [|cbn; auto 10].
  destruct (isEmpty _); [cbn; auto 10|].
  cbv zeta. destruct (negb _); [|cbn; auto 10].
  cbn [complete]. unfold settle, PageMenu.afterWrite, PageMenu.hideContextMenu.
  destruct ok; cbn [config storage setTarget setDocument setStreamers masterEnabled
                    streamerEnabled tagEnabled blockedTags];
    (split; [reflexivity|split; [reflexivity|split; [reflexivity|split; [reflexivity|
       split; [|apply dom_singleton_L]]]]]);
    intros key Hk; [|reflexivity].
  eapply lookup_written; [reflexivity|exact Hk].
Qed.

(** C10: the right-click actions change no setting other than
    [blockedStreamers] and write no storage key other than
    ["blockedStreamers"]. *)
Theorem C10_toggle_frame :
  touchesOnlyStreamers NativeMenu.handleContextMenuAction
  /\ touchesOnlyStreamers PageMenu.blockStreamerFromContext
  /\ touchesOnlyStreamers PageMenu.menuItemClick.
Proof. split; [exact native_frame|split; [exact page_frame|exact click_frame]]. Qed.

Lemma C10_toggle_frame_witness :
  let b := Blocker (Settings true true true [] [lit "talk"]) (Some [0; 0]%nat) fooDoc
                   {[ "masterBlockEnabled"%string := StoredBool true ]} in
  let b' := complete true (NativeMenu.handleContextMenuAction b) in
  "masterBlockEnabled"%string <> "blockedStreamers"%string
  /\ blockedTags (config b') = [lit "talk"]
  /\ storage b' !! "masterBlockEnabled"%string = Some (StoredBool true).
Proof.
  intros b b'. split; [discriminate|].
  destruct (proj1 C10_toggle_frame b true) as (_ & _ & _ & Ht & Hs & _).
  split; [exact Ht|]. apply Hs. discriminate.
Defined.

(** ** The field extractor *)

Lemma fold_left_invariant {A B : Type} (f : A -> B -> A) (P : A -> Prop) (l : list B) (a : A) :
  (forall a x, In x l -> P a -> P (f a x)) -> P a -> P (fold_left f l a).
Proof.
  revert a. induction l as [|x l IH]; intros a Hf Ha; [exact Ha|]. cbn [fold_left].
  apply IH.
  - intros a' y Hy. apply Hf. right. exact Hy.
  - apply Hf; [left; reflexivity|exact Ha].
Qed.

Lemma fold_left_reaches {A B : Type} (f : A -> B -> A) (P : A -> Prop) (l : list B)
    (x : B) (a : A) :
  In x l -> (forall a, P (f a x)) -> (forall a y, P a -> P (f a y)) ->
  P (fold_left f l a).
Proof.
  intros Hin Hx Hkeep. revert a. induction l as [|y l IH]; intros a; [destruct Hin|].
  cbn [fold_left]. destruct Hin as [->|Hin].
  - apply fold_left_invariant; [intros; apply Hkeep; assumption|apply Hx].
  - apply IH. exact Hin.
Qed.

Lemma nameStep_fields (words : list jsstring) (info : streamerInfo)
    (cl : list jsstring) (t : jsstring) :
  title (nameStep words info cl t) = title info
  /\ tags (nameStep words info cl t) = tags info
  /\ (name (nameStep words info cl t) = name info
      \/ (nameLabelled cl = true /\ name (nameStep words info cl t) = cleanText words t)).
Proof.
  unfold nameStep. fold (nameLabelled cl). destruct (nameLabelled cl); [|auto].
  destruct (_ && _); cbn; auto.
Qed.

Lemma titleStep_fields (info : streamerInfo) (cl : list jsstring) (t : jsstring) :
  name (titleStep info cl t) = name info
  /\ tags (titleStep info cl t) = tags info
  /\ (title (titleStep info cl t) = title info
      \/ (titleLabelled cl = true
          /\ title (titleStep info cl t) = cleanText titleBoilerplate t)).
Proof.
  unfold titleStep. fold (titleLabelled cl). destruct (titleLabelled cl); [|auto].
  destruct (_ && _); cbn; auto.
Qed.

Lemma tagStep_fields (info : streamerInfo) (cl : list jsstring) (t : jsstring) :
  name (tagStep info cl t) = name info
  /\ title (tagStep info cl t) = title info
  /\ (tags (tagStep info cl t) = tags info
      \/ (tagLabelled cl = true /\ tags (tagStep info cl t) = tags info ++ [t])).
Proof.
  unfold tagStep. fold (tagLabelled cl). destruct (tagLabelled cl); [|auto].
  destruct (_ && _); cbn; auto.
Qed.

(** A labelled element whose text has between 1 and 19 code units leaves
    its text among the tags. *)
Lemma tagStep_adds (info : streamerInfo) (cl : list jsstring) (t : jsstring) :
  tagLabelled cl = true -> (0 < length t < 20)%nat -> In t (tags (tagStep info cl t)).
Proof.
  intros Hl [H1 H2]. unfold tagStep. fold (tagLabelled cl). rewrite Hl.
  apply Nat.ltb_lt in H1, H2. rewrite H1, H2. cbn [andb].
  destruct (arr_includes (tags info) t) eqn:E; cbn [negb tags].
  - apply arr_includes_In. exact E.
  - apply in_or_app. right. left. reflexivity.
Qed.

Lemma tagStep_keeps (info : streamerInfo) (cl : list jsstring) (t x : jsstring) :
  In x (tags info) -> In x (tags (tagStep info cl t)).
Proof.
  intros H. destruct (tagStep_fields info cl t) as (_ & _ & [->|[_ ->]]); [exact H|].
  apply in_or_app. left. exact H.
Qed.

(** *** Title words *)

Lemma pushWords_fields (ws : list jsstring) (info : streamerInfo) :
  let info' :=
    fold_left (fun info word =>
                 if negb (arr_includes (tags info) word)
                 then Info (name info) (title info) (tags info ++ [word])
                 else info) ws info in
  name info' = name info /\ title info' = title info
  /\ (forall x, In x (tags info') <-> In x (tags info) \/ In x ws).
Proof.
  revert info. induction ws as [|w ws IH]; intros info; cbn [fold_left].
  - cbn. split; [reflexivity|split; [reflexivity|]]. intros x. cbn [In]. tauto.
  - cbv zeta in IH. destruct (arr_includes (tags info) w) eqn:E; cbn [negb].
    + destruct (IH info) as (H1 & H2 & H3). split; [exact H1|split; [exact H2|]].
      intros x. rewrite H3. cbn [In]. apply arr_includes_In in E.
      split; [tauto|]. intros [?|[<-|?]]; auto.
    + destruct (IH (Info (name info) (title info) (tags info ++ [w]))) as (H1 & H2 & H3).
      cbn [name title tags] in *. split; [exact H1|split; [exact H2|]].
      intros x. rewrite H3, in_app_iff. cbn [In]. tauto.
Qed.

Lemma pushTitleWords_fields (info : streamerInfo) :
  name (pushTitleWords info) = name info
  /\ title (pushTitleWords info) = title info
  /\ (forall x, In x (tags (pushTitleWords info)) <->
                In x (tags info) \/ In x (titleWords (title info))).
Proof.
  unfold pushTitleWords. destruct (isEmpty (title info)) eqn:E; cbn [negb].
  - split; [reflexivity|split; [reflexivity|]]. intros x.
    destruct (title info); [|discriminate]. cbn. tauto.
  - apply pushWords_fields.
Qed.

Lemma titleWords_In (t w : jsstring) :
  In w (titleWords t) <->
  In w (split t) /\ (2 <= length w <= 9)%nat /\ isStopWord w = false.
Proof.
  unfold titleWords. rewrite filter_In, !andb_true_iff, negb_true_iff, !Nat.ltb_lt.
  split; intros (H1 & H2); (split; [exact H1|]); split; try tauto; lia.
Qed.

Lemma fallbackName_fields (card : node) (info : streamerInfo) :
  title (fallbackName card info) = title info
  /\ tags (fallbackName card info) = tags info
  /\ (name (fallbackName card info) = name info
      \/ (name info = []
          /\ (matchRun isHangul 2 8 (textContent card) = Some (name (fallbackName card info))
              \/ matchRun isLatinLetter 3 15 (textContent card)
                 = Some (name (fallbackName card info))))).
Proof.
  unfold fallbackName. destruct (name info) eqn:En; cbn [isEmpty]; [|auto].
  destruct (matchRun isHangul 2 8 (textContent card)) as [k|].
  - destruct (negb _); cbn; rewrite ?En; auto 6.
  - destruct (matchRun isLatinLetter 3 15 (textContent card)) as [k|]; [|rewrite En; auto].
    destruct (negb _); cbn; rewrite ?En; auto 6.
Qed.

(** *** The loops over the descendants *)

Section Loop.

Variables (card : node) (p : path) (d : node).
Hypothesis d_in : In (p, d) (descendants card).

Lemma nameStep_sourced (words : list jsstring) (info : streamerInfo) :
  nameSourced words card info ->
  nameSourced words card
    (nameStep words info (nodeClassList d) (trim (textContent d))).
Proof.
  intros H. unfold nameSourced.
  destruct (nameStep_fields words info (nodeClassList d) (trim (textContent d)))
    as (_ & _ & [->|[Hl ->]]); [exact H|].
  right. exists p, d. auto.
Qed.

Lemma titleStep_sourced (info : streamerInfo) :
  titleSourced card info ->
  titleSourced card (titleStep info (nodeClassList d) (trim (textContent d))).
Proof.
  intros H. unfold titleSourced.
  destruct (titleStep_fields info (nodeClassList d) (trim (textContent d)))
    as (_ & _ & [->|[Hl ->]]); [exact H|].
  right. exists p, d. auto.
Qed.

Lemma tagStep_sourced (info : streamerInfo) :
  tagsSourced card info ->
  tagsSourced card (tagStep info (nodeClassList d) (trim (textContent d))).
Proof.
  intros H. unfold tagsSourced.
  destruct (tagStep_fields info (nodeClassList d) (trim (textContent d)))
    as (_ & _ & [->|[Hl ->]]); [exact H|].
  intros x Hx. apply in_app_or in Hx as [Hx|[<-|[]]]; [apply H; exact Hx|].
  exists p, d. auto.
Qed.

Lemma Content_scanElement_sourced (info : streamerInfo) :
  nameSourced Content.nameBoilerplate card info /\ titleSourced card info
  /\ tagsSourced card info ->
  let info' := Content.scanElement info d in
  nameSourced Content.nameBoilerplate card info' /\ titleSourced card info'
  /\ tagsSourced card info'.
Proof.
  intros (Hn & Ht & Hg). unfold Content.scanElement.
  destruct (isEmpty (trim (textContent d))); [cbv zeta; auto|]. cbv zeta.
  set (cl := nodeClassList d). set (t := trim (textContent d)).
  set (i1 := nameStep Content.nameBoilerplate info cl t).
  set (i2 := titleStep i1 cl t).
  assert (Hn1 : nameSourced Content.nameBoilerplate card i1) by (apply nameStep_sourced; exact Hn).
  destruct (nameStep_fields Content.nameBoilerplate info cl t) as (Et1 & Eg1 & _).
  fold i1 in Et1, Eg1.
  assert (Ht2 : titleSourced card i2).
  { apply titleStep_sourced. unfold titleSourced. rewrite Et1. exact Ht. }
  destruct (titleStep_fields i1 cl t) as (En2 & Eg2 & _). fold i2 in En2, Eg2.
  destruct (tagStep_fields i2 cl t) as (En3 & Et3 & _).
  split; [|split].
  - unfold nameSourced. rewrite En3, En2. exact Hn1.
  - unfold titleSourced. rewrite Et3. exact Ht2.
  - apply tagStep_sourced. unfold tagsSourced. rewrite Eg2, Eg1. exact Hg.
Qed.

Lemma Menu_scanName_sourced (info : streamerInfo) :
  nameSourced Menu.nameBoilerplate card info ->
  nameSourced Menu.nameBoilerplate card (Menu.scanName info d)
  /\ title (Menu.scanName info d) = title info
  /\ tags (Menu.scanName info d) = tags info.
Proof.
  intros Hn. unfold Menu.scanName.
  destruct (isEmpty (trim (textContent d))); [auto|].
  split; [apply nameStep_sourced; exact Hn|].
  destruct (nameStep_fields Menu.nameBoilerplate info (nodeClassList d)
              (trim (textContent d))) as (Et & Eg & _). auto.
Qed.

Lemma Menu_scanTitleTags_sourced (info : streamerInfo) :
  titleSourced card info /\ tagsSourced card info ->
  let info' := Menu.scanTitleTags info d in
  name info' = name info /\ titleSourced card info' /\ tagsSourced card info'.
Proof.
  intros (Ht & Hg). unfold Menu.scanTitleTags.
  destruct (isEmpty (trim (textContent d))); [cbv zeta; auto|]. cbv zeta.
  set (cl := nodeClassList d). set (t := trim (textContent d)).
  set (i1 := titleStep info cl t).
  destruct (titleStep_fields info cl t) as (En1 & Eg1 & _). fold i1 in En1, Eg1.
  destruct (tagStep_fields i1 cl t) as (En2 & Et2 & _).
  split; [rewrite En2; exact En1|split].
  - unfold titleSourced. rewrite Et2. apply titleStep_sourced. exact Ht.
  - apply tagStep_sourced. unfold tagsSourced. rewrite Eg1. exact Hg.
Qed.

(** An element with a tag label and a text of 1 to 19 code units puts
    its text among the tags. *)
Hypothesis d_tag : tagLabelled (nodeClassList d) = true.
Hypothesis d_text : (0 < length (trim (textContent d)) < 20)%nat.

Lemma Content_scanElement_adds (info : streamerInfo) :
  In (trim (textContent d)) (tags (Content.scanElement info d)).
Proof.
  unfold Content.scanElement.
  destruct (trim (textContent d)) as [|c t] eqn:E; [cbn in d_text; lia|].
  cbn [isEmpty]. cbv zeta. apply tagStep_adds; [exact d_tag|exact d_text].
Qed.

Lemma Menu_scanTitleTags_adds (info : streamerInfo) :
  In (trim (textContent d)) (tags (Menu.scanTitleTags info d)).
Proof.
  unfold Menu.scanTitleTags.
  destruct (trim (textContent d)) as [|c t] eqn:E; [cbn in d_text; lia|].
  cbn [isEmpty]. cbv zeta. apply tagStep_adds; [exact d_tag|exact d_text].
Qed.

End Loop.

Lemma Content_scanElement_keeps (info : streamerInfo) (d : node) (x : jsstring) :
  In x (tags info) -> In x (tags (Content.scanElement info d)).
Proof.
  intros H. unfold Content.scanElement. destruct (isEmpty _); [exact H|]. cbv zeta.
  apply tagStep_keeps.
  destruct (titleStep_fields (nameStep Content.nameBoilerplate info (nodeClassList d)
                                (trim (textContent d)))
              (nodeClassList d) (trim (textContent d))) as (_ & -> & _).
  destruct (nameStep_fields Content.nameBoilerplate info (nodeClassList d)
              (trim (textContent d))) as (_ & -> & _).
  exact H.
Qed.

Lemma Menu_scanTitleTags_keeps (info : streamerInfo) (d : node) (x : jsstring) :
  In x (tags info) -> In x (tags (Menu.scanTitleTags info d)).
Proof.
  intros H. unfold Menu.scanTitleTags. destruct (isEmpty _); [exact H|]. cbv zeta.
  apply tagStep_keeps.
  destruct (titleStep_fields info (nodeClassList d) (trim (textContent d)))
    as (_ & -> & _).
  exact H.
Qed.

Lemma in_map_snd (card : node) (d : node) :
  In d (map snd (descendants card)) <-> exists p, In (p, d) (descendants card).
Proof.
  rewrite in_map_iff. split.
  - intros ([p d'] & <- & H). exists p. exact H.
  - intros (p & H). exists (p, d). auto.
Qed.

(** *** What the extractor returns *)

Lemma finish_sourced (nameSrc : jsstring -> Prop) (card : node) (info : streamerInfo) :
  (name info = [] \/ nameSrc (name info)) ->
  titleSourced card info -> tagsSourced card info ->
  sourced nameSrc card (fallbackName card (pushTitleWords info)).
Proof.
  intros Hn Ht Hg.
  destruct (pushTitleWords_fields info) as (En & Et & Eg).
  destruct (fallbackName_fields card (pushTitleWords info)) as (Et' & Eg' & Hn').
  unfold sourced. rewrite Et', Eg', Et. split; [|split].
  - destruct Hn' as [->|[_ [H|H]]]; [rewrite En; tauto|auto|auto].
  - exact Ht.
  - intros x Hx. apply Eg in Hx as [Hx|Hx]; [left; apply Hg; exact Hx|right; exact Hx].
Qed.

Lemma Content_extract_sourced (card : node) :
  sourced (nameFromClass Content.nameBoilerplate card) card
          (Content.extractStreamerInfo card).
Proof.
  unfold Content.extractStreamerInfo. cbv zeta.
  assert (H : let info := fold_left Content.scanElement (map snd (descendants card))
                                    (Info [] [] []) in
              nameSourced Content.nameBoilerplate card info
              /\ titleSourced card info /\ tagsSourced card info).
  { apply (fold_left_invariant Content.scanElement
             (fun info => nameSourced Content.nameBoilerplate card info
                          /\ titleSourced card info /\ tagsSourced card info)).
    - intros info d Hd Hinv. apply in_map_snd in Hd as [p Hd].
      apply (Content_scanElement_sourced card p d Hd info Hinv).
    - split; [left; reflexivity|split; [left; reflexivity|intros x []]]. }
  destruct H as (Hn & Ht & Hg). apply finish_sourced; assumption.
Qed.

Lemma Menu_nameText_source (card : node) (d : node) :
  Menu.nameTextElement card = Some d ->
  exists p, In (p, d) (descendants card)
            /\ nodeMatches (sel None (ClassContains (lit "name_text"))) d = true.
Proof.
  unfold Menu.nameTextElement. intros H.
  assert (Hin : In d (List.filter (nodeMatches (sel None (ClassContains (lit "name_text"))))
                                  (map snd (descendants card)))).
  { destruct (List.filter _ _) as [|x l]; [discriminate|]. injection H as ->.
    left. reflexivity. }
  apply filter_In in Hin as [Hin Hm]. apply in_map_snd in Hin as [p Hin].
  exists p. auto.
Qed.

Lemma Menu_extract_sourced (card : node) :
  sourced (fun s => nameFromNameText card s \/ nameFromClass Menu.nameBoilerplate card s)
          card (Menu.extractStreamerInfo card).
Proof.
  unfold Menu.extractStreamerInfo. cbv zeta.
  set (i0 := Menu.fromNameText card (Info [] [] [])).
  assert (H0 : (name i0 = [] \/ nameFromNameText card (name i0))
               /\ title i0 = [] /\ tags i0 = []).
  { unfold i0, Menu.fromNameText.
    destruct (Menu.nameTextElement card) as [d|] eqn:E; [|cbn; auto].
    destruct (_ && _); [|cbn; auto]. cbn [name title tags].
    split; [|auto]. right. apply Menu_nameText_source in E as (p & Hin & Hm).
    exists p, d. auto. }
  destruct H0 as (Hn0 & Ht0 & Hg0).
  set (i1 := if isEmpty (name i0)
             then fold_left Menu.scanName (map snd (descendants card)) i0 else i0).
  assert (H1 : (name i1 = []
                \/ (nameFromNameText card (name i1)
                    \/ nameFromClass Menu.nameBoilerplate card (name i1)))
               /\ title i1 = [] /\ tags i1 = []).
  { unfold i1. destruct (isEmpty (name i0)) eqn:E.
    - assert (H : let info := fold_left Menu.scanName (map snd (descendants card)) i0 in
                  nameSourced Menu.nameBoilerplate card info
                  /\ title info = [] /\ tags info = []).
      { apply (fold_left_invariant Menu.scanName
                 (fun info => nameSourced Menu.nameBoilerplate card info
                              /\ title info = [] /\ tags info = [])).
        - intros info d Hd (Hn & Ht & Hg). apply in_map_snd in Hd as [p Hd].
          destruct (Menu_scanName_sourced card p d Hd info Hn) as (Hn' & -> & ->). auto.
        - split; [left; destruct (name i0); [reflexivity|discriminate]|auto]. }
      destruct H as ([Hn|Hn] & Ht & Hg); auto.
    - destruct Hn0 as [Hn0|Hn0]; auto. }
  destruct H1 as (Hn1 & Ht1 & Hg1).
  assert (H2 : let info := fold_left Menu.scanTitleTags (map snd (descendants card)) i1 in
               name info = name i1 /\ titleSourced card info /\ tagsSourced card info).
  { apply (fold_left_invariant Menu.scanTitleTags
             (fun info => name info = name i1 /\ titleSourced card info
                          /\ tagsSourced card info)).
    - intros info d Hd (Hn & Ht & Hg). apply in_map_snd in Hd as [p Hd].
      destruct (Menu_scanTitleTags_sourced card p d Hd info (conj Ht Hg)) as (En & Ht' & Hg').
      split; [rewrite En; exact Hn|auto].
    - split; [reflexivity|split; [left; exact Ht1|]]. intros x. rewrite Hg1. intros []. }
  destruct H2 as (En2 & Ht2 & Hg2). apply finish_sourced; [rewrite En2; exact Hn1| |]; assumption.
Qed.

Lemma includes_name_text (tok : jsstring) :
  includes tok (lit "name_text") = true ->
  includes (toLowerCase tok) (toLowerCase (lit "name")) = true.
Proof.
  rewrite !includes_spec. intros (pre & post & ->).
  destruct (toLowerCase_basicLatin pre (lit "name_text") post) as (a & b & E).
  { vm_compute. repeat constructor. }
  exists a, (lit "_text" ++ b). rewrite E.
  change (toLowerCase (lit "name")) with (lit "name").
  change (map lowerCU (lit "name_text")) with (lit "name" ++ lit "_text").
  rewrite <- app_assoc. reflexivity.
Qed.

Lemma name_text_labelled (d : node) :
  nodeMatches (sel None (ClassContains (lit "name_text"))) d = true ->
  nameLabelled (nodeClassList d) = true.
Proof.
  destruct d as [t|e ks]; [discriminate|]. cbn [nodeMatches nodeClassList].
  unfold matchesSelector. cbn [sel sel_type sel_cond matchesCond andb].
  intros H. apply some_exists in H as (tok & Hin & Htok).
  unfold nameLabelled. apply orb_true_iff. left. apply orb_true_iff. right.
  apply some_exists. exists tok. split; [exact Hin|apply includes_name_text; exact Htok].
Qed.

Lemma anonymous_sourced (nameSrc : jsstring -> Prop) (card : node) (info : streamerInfo) :
  anonymous card ->
  (forall s, nameSrc s ->
             exists p d, In (p, d) (descendants card)
                         /\ nameLabelled (nodeClassList d) = true) ->
  sourced nameSrc card info -> info = Info [] [] [].
Proof.
  intros (Hd & Hk & Hl) Hsrc (Hn & Ht & Hg). destruct info as [n t g]. cbn [name title tags] in *.
  assert (En : n = []).
  { destruct Hn as [?|[H|[H|H]]]; [assumption| |congruence|congruence].
    apply Hsrc in H as (p & d & Hin & Hlab). apply Hd in Hin as (Hf & _). congruence. }
  assert (Et : t = []).
  { destruct Ht as [?|(p & d & Hin & Hlab & _)]; [assumption|].
    apply Hd in Hin as (_ & Hf & _). congruence. }
  subst. f_equal. destruct g as [|x g]; [reflexivity|]. exfalso.
  destruct (Hg x (or_introl eq_refl)) as [(p & d & Hin & Hlab & _)|[]].
  apply Hd in Hin as (_ & _ & Hf). congruence.
Qed.

(** C8: the extractor is a total function; each field of the record it
    returns is either resolved from one of its sources or left empty (the
    empty string, the empty sequence), and on markup that no heuristic
    recognises the record is empty. *)
Theorem C8_extract_defaults (card : node) :
  sourced (nameFromClass Content.nameBoilerplate card) card
          (Content.extractStreamerInfo card)
  /\ sourced (fun s => nameFromNameText card s
                       \/ nameFromClass Menu.nameBoilerplate card s)
             card (Menu.extractStreamerInfo card)
  /\ (anonymous card ->
      Content.extractStreamerInfo card = Info [] [] []
      /\ Menu.extractStreamerInfo card = Info [] [] []).
Proof.
  split; [apply Content_extract_sourced|split; [apply Menu_extract_sourced|]].
  intros Ha. split.
  - eapply anonymous_sourced; [exact Ha| |apply Content_extract_sourced].
    intros s (p & d & Hin & Hlab & _). eauto.
  - eapply anonymous_sourced; [exact Ha| |apply Menu_extract_sourced].
    intros s [(p & d & Hin & Hm & _)|(p & d & Hin & Hlab & _)]; [|eauto].
    exists p, d. split; [exact Hin|apply name_text_labelled; exact Hm].
Qed.

Lemma C8_extract_defaults_witness :
  anonymous anonymousCard
  /\ Content.extractStreamerInfo anonymousCard = Info [] [] []
  /\ Menu.extractStreamerInfo anonymousCard = Info [] [] [].
Proof.
  assert (Ha : anonymous anonymousCard).
  { split; [intros p d []|split; reflexivity]. }
  split; [exact Ha|]. exact (proj2 (proj2 (C8_extract_defaults anonymousCard)) Ha).
Defined.

(** *** The two sources of tags *)

Lemma tag_fires (info : streamerInfo) (t : jsstring) :
  In t (tags info) -> matchesTag info t = true.
Proof.
  intros H. apply matchesTag_spec. left. exists t. split; [exact H|].
  left. apply contains_trim.
Qed.

Lemma tag_hides (st : settings) (info : streamerInfo) (t : jsstring) :
  masterEnabled st = true -> tagEnabled st = true -> In t (blockedTags st) ->
  In t (tags info) ->
  matchesTag info t = true /\ masterEnabled st && shouldHideInfo st info = true.
Proof.
  intros Hm He Hb Ht. pose proof (tag_fires info t Ht) as Hf. split; [exact Hf|].
  rewrite Hm. cbn [andb]. apply shouldHideInfo_spec. right.
  split; [exact He|split; [|exists t; auto]].
  intros E. rewrite E in Hb. destruct Hb.
Qed.

Lemma Content_tag_from_class (card : node) (t : jsstring) :
  tagFromClass card t -> (0 < length t < 20)%nat ->
  In t (tags (Content.extractStreamerInfo card)).
Proof.
  intros (p & d & Hin & Hlab & ->) Hlen. unfold Content.extractStreamerInfo. cbv zeta.
  rewrite (proj1 (proj2 (fallbackName_fields _ _))).
  apply (proj2 (proj2 (pushTitleWords_fields _))). left.
  apply (fold_left_reaches Content.scanElement
           (fun info => In (trim (textContent d)) (tags info)) _ d).
  - apply in_map_snd. exists p. exact Hin.
  - intros info. apply Content_scanElement_adds; assumption.
  - intros info y. apply Content_scanElement_keeps.
Qed.

Lemma Menu_tag_from_class (card : node) (t : jsstring) :
  tagFromClass card t -> (0 < length t < 20)%nat ->
  In t (tags (Menu.extractStreamerInfo card)).
Proof.
  intros (p & d & Hin & Hlab & ->) Hlen. unfold Menu.extractStreamerInfo. cbv zeta.
  rewrite (proj1 (proj2 (fallbackName_fields _ _))).
  apply (proj2 (proj2 (pushTitleWords_fields _))). left.
  apply (fold_left_reaches Menu.scanTitleTags
           (fun info => In (trim (textContent d)) (tags info)) _ d).
  - apply in_map_snd. exists p. exact Hin.
  - intros info. apply Menu_scanTitleTags_adds; assumption.
  - intros info y. apply Menu_scanTitleTags_keeps.
Qed.

Lemma tag_from_title (card : node) (info : streamerInfo) (t : jsstring) :
  In t (titleWords (title (fallbackName card (pushTitleWords info)))) ->
  In t (tags (fallbackName card (pushTitleWords info))).
Proof.
  rewrite (proj1 (fallbackName_fields _ _)), (proj1 (proj2 (fallbackName_fields _ _))).
  rewrite (proj1 (proj2 (pushTitleWords_fields _))). intros H.
  apply (proj2 (proj2 (pushTitleWords_fields _))). right. exact H.
Qed.

(** C9: with the master switch and the tag switch on and [t] among the
    blocked tags, a tag taken from an element labelled tag, category or
    genre (its trimmed text, of 1 to 19 code units) and equal to [t] fires
    the tag rule, and so does a word of the title (of 2 to 9 code units, not
    a stop word) equal to [t]; either way the card is to be hidden. *)
Theorem C9_tag_sources (extract : node -> streamerInfo) (st : settings)
    (card : node) (t : jsstring) :
  extract = Content.extractStreamerInfo \/ extract = Menu.extractStreamerInfo ->
  masterEnabled st = true -> tagEnabled st = true -> In t (blockedTags st) ->
  let info := extract card in
  (tagFromClass card t -> (0 < length t < 20)%nat ->
   In t (tags info) /\ matchesTag info t = true
   /\ masterEnabled st && shouldHideInfo st info = true)
  /\ (In t (split (title info)) -> (2 <= length t <= 9)%nat -> isStopWord t = false ->
      In t (tags info) /\ matchesTag info t = true
      /\ masterEnabled st && shouldHideInfo st info = true).
Proof.
  intros Hx Hm He Hb info.
  assert (H1 : tagFromClass card t -> (0 < length t < 20)%nat -> In t (tags info)).
  { unfold info. destruct Hx as [-> | ->];
      [apply Content_tag_from_class|apply Menu_tag_from_class]. }
  assert (H2 : In t (titleWords (title info)) -> In t (tags info)).
  { unfold info. destruct Hx as [-> | ->]; apply tag_from_title. }
  split.
  - intros Hsrc Hlen. split; [auto|]. apply tag_hides; auto.
  - intros Hw Hlen Hstop.
    assert (Ht : In t (tags info)) by (apply H2, titleWords_In; auto).
    split; [exact Ht|]. apply tag_hides; auto.
Qed.

Lemma C9_tag_sources_witness :
  (tagFromClass exampleCard (lit "talk")
   /\ matchesTag (Content.extractStreamerInfo exampleCard) (lit "talk") = true
   /\ shouldHideInfo blockTalk (Content.extractStreamerInfo exampleCard) = true)
  /\ (In (lit "RPG") (split (title (Content.extractStreamerInfo exampleCard)))
      /\ matchesTag (Content.extractStreamerInfo exampleCard) (lit "RPG") = true
      /\ shouldHideInfo blockRPG (Content.extractStreamerInfo exampleCard) = true).
Proof.
  assert (Hsrc : tagFromClass exampleCard (lit "talk")).
  { exists [2]%nat, (exampleElem "span" ["tag_item"]%string [Text (lit "talk")]).
    split; [right; right; left; reflexivity|split; reflexivity]. }
  assert (Hw : In (lit "RPG") (split (title (Content.extractStreamerInfo exampleCard)))).
  { vm_compute. right. left. reflexivity. }
  split.
  - split; [exact Hsrc|].
    destruct (C9_tag_sources Content.extractStreamerInfo blockTalk exampleCard (lit "talk")
                (or_introl eq_refl) eq_refl eq_refl (or_introl eq_refl)) as [H _].
    destruct H as (_ & H1 & H2); [exact Hsrc|vm_compute; lia|].
    apply andb_true_iff in H2 as [_ H2]. split; [exact H1|exact H2].
  - split; [exact Hw|].
    destruct (C9_tag_sources Content.extractStreamerInfo blockRPG exampleCard (lit "RPG")
                (or_introl eq_refl) eq_refl eq_refl (or_introl eq_refl)) as [_ H].
    destruct H as (_ & H1 & H2); [exact Hw|vm_compute; lia|reflexivity|].
    apply andb_true_iff in H2 as [_ H2]. split; [exact H1|exact H2].
Defined.

(** * Further properties *)

(** ** The scan *)

Lemma uniqueFrom_NoDup (seen l : list path) : List.NoDup (uniqueFrom seen l).
Proof.
  revert seen. induction l as [|x l IH]; intros seen; cbn [uniqueFrom]; [constructor|].
  destruct (bool_decide (x ∈ seen)); [apply IH|]. constructor; [|apply IH].
  rewrite uniqueFrom_In. intros [_ H]. apply H. apply list_elem_of_here.
Qed.

(** X1: the scan returns every element of the document that matches a
    query of the catalog, each exactly once, and nothing else. *)
Theorem X1_findStreamCards_exact (doc : node) :
  List.NoDup (findStreamCards doc)
  /\ forall p, In p (findStreamCards doc) <->
               exists e s, elementAt doc p = Some e /\ In s selectors
                           /\ matchesSelector s e = true.
Proof.
  split; [apply uniqueFrom_NoDup|]. intros p. rewrite findStreamCards_In. split.
  - intros (s & Hs & Hp). apply querySelectorAll_elementAt in Hp as (e & He & Hm).
    exists e, s. auto.
  - intros (e & s & He & Hs & Hm). exists s. split; [exact Hs|].
    eapply elementAt_querySelectorAll; eassumption.
Qed.

Lemma applyBlocking_as_update (extract : node -> streamerInfo) :
  (forall g, (forall q, cosmetic (g q)) -> forall card, extract (mapElems g card) = extract card) ->
  forall st doc, exists g, (forall q, cosmetic (g q))
                           /\ applyBlocking extract st doc = mapElems g doc.
Proof.
  intros Hx st doc. rewrite (applyBlocking_cases extract Hx). destruct (enabled st).
  - eexists. split; [|reflexivity]. apply onPaths_cosmetic. apply verdict_cosmetic.
  - rewrite showAllStreamCards_mapElems. eexists. split; [|reflexivity].
    intros q. apply showIfHidden_cosmetic.
Qed.

Lemma our_extractors (extract : node -> streamerInfo) :
  extract = Content.extractStreamerInfo \/ extract = Menu.extractStreamerInfo ->
  forall g, (forall q, cosmetic (g q)) -> forall card, extract (mapElems g card) = extract card.
Proof.
  intros [-> | ->]; [exact Content_extract_mapElems|exact Menu_extract_mapElems].
Qed.

Lemma paths_mapElems (g : path -> element -> element) (doc : node) :
  map fst (elements (mapElems g doc)) = map fst (elements doc).
Proof. rewrite elements_mapElems, map_map. reflexivity. Qed.

(** X2: a pass changes neither the set of elements of the document nor
    its text, tags and foreign class tokens, so the scan finds the same
    cards after it and the extractor reads the same record from each. *)
Theorem X2_pass_keeps_cards (extract : node -> streamerInfo) (st : settings) (doc : node) :
  extract = Content.extractStreamerInfo \/ extract = Menu.extractStreamerInfo ->
  let doc' := applyBlocking extract st doc in
  findStreamCards doc' = findStreamCards doc
  /\ map fst (elements doc') = map fst (elements doc)
  /\ textContent doc' = textContent doc
  /\ (forall p, extract (nodeAt doc' p) = extract (nodeAt doc p))
  /\ (forall p, option_map localName (elementAt doc' p)
                = option_map localName (elementAt doc p)
                /\ option_map ownClasses (elementAt doc' p)
                   = option_map ownClasses (elementAt doc p)).
Proof.
  intros Hx doc'. pose proof (our_extractors extract Hx) as Hu.
  destruct (applyBlocking_as_update extract Hu st doc) as (g & Hg & E).
  subst doc'. rewrite E. split; [apply findStreamCards_mapElems; exact Hg|].
  split; [apply paths_mapElems|]. split; [apply textContent_mapElems|]. split.
  - intros p. rewrite nodeAt_mapElems. apply Hu. intros q. apply Hg.
  - intros p. rewrite elementAt_mapElems. destruct (elementAt doc p) as [e|]; [|auto].
    cbn. destruct (Hg p e) as [-> ->]. auto.
Qed.

Lemma X2_pass_keeps_cards_witness :
  findStreamCards (applyBlocking Content.extractStreamerInfo blockNova exampleDoc)
  = findStreamCards exampleDoc.
Proof.
  exact (proj1 (X2_pass_keeps_cards Content.extractStreamerInfo blockNova exampleDoc
                  (or_introl eq_refl))).
Defined.

(** X3: a pass with hiding in force touches only the cards that the scan
    finds; a pass with hiding off touches only the elements that carry the
    hidden marker. *)
Theorem X3_pass_frame (extract : node -> streamerInfo) (st : settings) (doc : node)
    (p : path) :
  extract = Content.extractStreamerInfo \/ extract = Menu.extractStreamerInfo ->
  (enabled st = true -> ~ In p (findStreamCards doc) ->
   elementAt (applyBlocking extract st doc) p = elementAt doc p)
  /\ (enabled st = false ->
      option_map isHiddenCard (elementAt doc p) <> Some true ->
      elementAt (applyBlocking extract st doc) p = elementAt doc p).
Proof.
  intros Hx. pose proof (our_extractors extract Hx) as Hu.
  rewrite (applyBlocking_cases extract Hu). split; intros -> H.
  - rewrite elementAt_mapElems. destruct (elementAt doc p) as [e|]; [|reflexivity].
    cbn. unfold onPaths. rewrite decide_False; [reflexivity|].
    rewrite list_elem_of_In. exact H.
  - rewrite showAllStreamCards_mapElems, elementAt_mapElems.
    destruct (elementAt doc p) as [e|]; [|reflexivity]. cbn in *. unfold showIfHidden.
    destruct (isHiddenCard e); [congruence|reflexivity].
Qed.

Lemma X3_pass_frame_witness :
  enabled blockNova = true /\ ~ In [0]%nat (findStreamCards exampleDoc)
  /\ elementAt (applyBlocking Content.extractStreamerInfo blockNova exampleDoc) [0]%nat
     = elementAt exampleDoc [0]%nat.
Proof.
  assert (H : ~ In [0]%nat (findStreamCards exampleDoc)).
  { vm_compute. intros [H|[H|[]]]; discriminate H. }
  split; [reflexivity|split; [exact H|]].
  apply (proj1 (X3_pass_frame Content.extractStreamerInfo blockNova exampleDoc [0]%nat
                  (or_introl eq_refl))); [reflexivity|exact H].
Defined.

(** ** The visibility controller *)

Lemma classList_remove_add (tok : jsstring) (l : list jsstring) :
  classList_remove tok (classList_add tok l) = classList_remove tok l.
Proof.
  unfold classList_add. destruct (arr_includes l tok); [reflexivity|].
  unfold classList_remove. rewrite List.filter_app. cbn [List.filter].
  rewrite str_eqb_refl. apply app_nil_r.
Qed.

Lemma assoc_hidingStyle (k : string) :
  (exists v, assoc hidingStyle k = Some v) <-> In k hidingProperties.
Proof.
  unfold hidingStyle, hidingProperties. cbn [assoc fst snd In]. split.
  - intros [v H]. repeat (case_decide; [auto 10|]). discriminate.
  - intros H. repeat (case_decide; [eauto|]).
    repeat (destruct H as [H|H]; [congruence|]). destruct H.
Qed.

(** X4: [setCardVisibility] writes the eight hiding properties and the
    two class tokens of the script and nothing else; showing a card
    removes all eight properties, and hiding a card and then showing it
    gives what showing it at once gives. *)
Theorem X4_setCardVisibility_frame (card : element) (v : bool) :
  localName (setCardVisibility card v) = localName card
  /\ ownClasses (setCardVisibility card v) = ownClasses card
  /\ (forall k, ~ In k hidingProperties ->
                style (setCardVisibility card v) !! k = style card !! k)
  /\ (forall k, In k hidingProperties ->
                style (setCardVisibility card true) !! k = None
                /\ style (setCardVisibility card false) !! k = assoc hidingStyle k)
  /\ setCardVisibility (setCardVisibility card false) true = setCardVisibility card true.
Proof.
  split; [apply localName_setCardVisibility|].
  split; [apply (setCardVisibility_cosmetic v card)|]. split; [|split].
  - intros k Hk. destruct v.
    + rewrite style_visible, lookup_foldr_delete.
      rewrite decide_False; [reflexivity|]. rewrite list_elem_of_In. exact Hk.
    + rewrite style_hidden, lookup_foldr_insert.
      destruct (assoc hidingStyle k) as [x|] eqn:E; [|reflexivity].
      exfalso. apply Hk. apply assoc_hidingStyle. eauto.
  - intros k Hk. split.
    + rewrite style_visible, lookup_foldr_delete.
      rewrite decide_True; [reflexivity|]. rewrite list_elem_of_In. exact Hk.
    + rewrite style_hidden, lookup_foldr_insert.
      apply assoc_hidingStyle in Hk as [x ->]. reflexivity.
  - apply element_eq; [reflexivity| |].
    + rewrite !classList_visible, classList_hidden.
      rewrite (classList_add_idemp processedClass).
      * apply classList_remove_add.
      * rewrite !classList_add_includes, str_eqb_refl. rewrite orb_true_r. reflexivity.
    + rewrite !style_visible, style_hidden. apply map_eq. intros k.
      rewrite !lookup_foldr_delete. destruct (decide (k ∈ hidingProperties)) as [Hk|Hk];
        [reflexivity|].
      rewrite lookup_foldr_insert. destruct (assoc hidingStyle k) as [x|] eqn:E; [|reflexivity].
      exfalso. apply Hk. rewrite list_elem_of_In. apply assoc_hidingStyle. eauto.
Qed.

Lemma X4_setCardVisibility_frame_witness :
  ~ In "color"%string hidingProperties
  /\ style (setCardVisibility
              (Element "li" [lit "card"] {[ "color"%string := "red"%string ]}) false)
       !! "color"%string
     = Some "red"%string.
Proof.
  assert (H : ~ In "color"%string hidingProperties).
  { cbn. intros H. repeat (destruct H as [H|H]; [discriminate H|]). exact H. }
  split; [exact H|].
  exact (eq_trans
           (proj1 (proj2 (proj2 (X4_setCardVisibility_frame
                                   (Element "li" [lit "card"]
                                            {[ "color"%string := "red"%string ]})
                                   false))) _ H)
           eq_refl).
Defined.

(** ** The matcher *)

Lemma trim_blank (s : jsstring) : forallb isWhiteSpace s = true -> trim (toLowerCase s) = [].
Proof.
  intros H. rewrite (toLowerCase_blank s H).
  assert (E : trimStart s = []).
  { induction s as [|c s IH]; [reflexivity|]. cbn [forallb] in H.
    apply andb_true_iff in H as [Hc Hs]. cbn [trimStart].
    rewrite Hc. apply IH. exact Hs. }
  unfold trim. rewrite E. reflexivity.
Qed.

(** X5: a blocked entry that is empty or consists of white space matches
    every record, under the streamer rule and under the tag rule; with
    the switch of its list on it hides every card. *)
Theorem X5_blank_entry_matches_all (st : settings) (info : streamerInfo) (b : jsstring) :
  forallb isWhiteSpace b = true ->
  matchesStreamer info b = true
  /\ matchesTag info b = true
  /\ (streamerEnabled st = true -> In b (blockedStreamers st) ->
      shouldHideInfo st info = true)
  /\ (tagEnabled st = true -> In b (blockedTags st) -> shouldHideInfo st info = true).
Proof.
  intros Hb. pose proof (trim_blank b Hb) as E.
  assert (H1 : matchesStreamer info b = true).
  { unfold matchesStreamer. rewrite E, includes_nil. reflexivity. }
  assert (H2 : matchesTag info b = true).
  { unfold matchesTag. rewrite E, includes_nil. apply orb_true_r. }
  split; [exact H1|split; [exact H2|split]]; intros He Hin; apply shouldHideInfo_spec.
  - left. split; [exact He|split; [|eauto]]. intros E'. rewrite E' in Hin. destruct Hin.
  - right. split; [exact He|split; [|eauto]]. intros E'. rewrite E' in Hin. destruct Hin.
Qed.

Lemma X5_blank_entry_matches_all_witness :
  forallb isWhiteSpace (lit "  ") = true
  /\ shouldHideInfo (Settings true true false [lit "  "] [])
                    (Info (lit "Luna") (lit "Cooking") [lit "food"]) = true.
Proof.
  split; [reflexivity|].
  exact (proj1 (proj2 (proj2 (X5_blank_entry_matches_all
                                (Settings true true false [lit "  "] [])
                                (Info (lit "Luna") (lit "Cooking") [lit "food"])
                                (lit "  ") eq_refl)))
               eq_refl (or_introl eq_refl)).
Defined.

(** X6: adding entries to the lists never makes a hidden record visible:
    with the same switches and longer lists the matcher still says
    hide. *)
Theorem X6_more_entries_hide_more (st st' : settings) (info : streamerInfo) :
  streamerEnabled st' = streamerEnabled st ->
  tagEnabled st' = tagEnabled st ->
  incl (blockedStreamers st) (blockedStreamers st') ->
  incl (blockedTags st) (blockedTags st') ->
  shouldHideInfo st info = true -> shouldHideInfo st' info = true.
Proof.
  intros Hs Ht Hbs Hbt. rewrite !shouldHideInfo_spec, Hs, Ht.
  intros [(H1 & H2 & b & Hb & Hm)|(H1 & H2 & t & Hb & Hm)]; [left|right];
    (split; [exact H1|split; [|eauto]]).
  - intros E. apply Hbs in Hb. rewrite E in Hb. destruct Hb.
  - intros E. apply Hbt in Hb. rewrite E in Hb. destruct Hb.
Qed.

Lemma X6_more_entries_hide_more_witness :
  shouldHideInfo (Settings true true true [lit "Luna"; lit "Nova"] [lit "talk"])
                 (Info (lit "Nova_TV") [] []) = true.
Proof.
  apply (X6_more_entries_hide_more blockNova); try reflexivity.
  - intros x [<-|[]]. right. left. reflexivity.
  - intros x [].
Defined.

(** ** The right-click actions and the pass *)

Lemma includes_refl (s : jsstring) : includes s s = true.
Proof. apply includes_spec. exists [], []. rewrite app_nil_r. reflexivity. Qed.

Lemma own_name_matches (info : streamerInfo) : matchesStreamer info (name info) = true.
Proof. unfold matchesStreamer. rewrite includes_refl. reflexivity. Qed.

(** The marker of a scanned card after a pass with the name of the card
    among the blocked streamers. *)
Lemma blocked_name_hidden (st : settings) (doc : node) (card : path) :
  In card (findStreamCards doc) ->
  masterEnabled st = true -> streamerEnabled st = true ->
  In (name (Menu.extractStreamerInfo (nodeAt doc card))) (blockedStreamers st) ->
  exists e, elementAt (applyBlocking Menu.extractStreamerInfo st doc) card = Some e
            /\ isHiddenCard e = true.
Proof.
  intros Hc Hm Hs Hin.
  destruct (applyBlocking_marker Menu.extractStreamerInfo Menu_extract_mapElems
              st doc card Hc) as (e & He & Hh).
  exists e. split; [exact He|]. rewrite Hh, Hm. cbn [andb].
  apply shouldHideInfo_spec. left. split; [exact Hs|split].
  - intros E. rewrite E in Hin. destruct Hin.
  - eexists. split; [exact Hin|apply own_name_matches].
Qed.

(** X7: blocking a card from either context menu hides it.  With the
    master and the streamer switch on, for a captured card that the scan
    finds and whose name resolves and is not blocked yet, the card carries
    the hidden marker once the storage write has succeeded; after a failed
    write the name is in the list but the document and the storage are as
    before. *)
Theorem X7_block_hides_card (h : blocker -> async) (b : blocker) (card : path) :
  h = NativeMenu.handleContextMenuAction \/ h = PageMenu.blockStreamerFromContext ->
  contextTarget b = Some card ->
  In card (findStreamCards (document b)) ->
  let n := name (Menu.extractStreamerInfo (nodeAt (document b) card)) in
  n <> [] -> ~ In n (blockedStreamers (config b)) ->
  masterEnabled (config b) = true -> streamerEnabled (config b) = true ->
  (exists e, elementAt (document (complete true (h b))) card = Some e
             /\ isHiddenCard e = true)
  /\ blockedStreamers (config (complete false (h b))) = blockedStreamers (config b) ++ [n]
  /\ document (complete false (h b)) = document b
  /\ storage (complete false (h b)) = storage b.
Proof.
  intros Hh Ht Hc n Hn Hnew Hm Hs.
  assert (Hhide : exists e,
             elementAt (applyBlocking Menu.extractStreamerInfo
                          (config (setStreamers (blockedStreamers (config b) ++ [n]) b))
                          (document b)) card = Some e
             /\ isHiddenCard e = true).
  { apply blocked_name_hidden; [exact Hc|exact Hm|exact Hs|].
    cbn. apply in_or_app. right. left. reflexivity. }
  destruct Hh as [-> | ->].
  - rewrite (native_absent b card n Ht eq_refl Hn Hnew). cbn [complete].
    split; [exact Hhide|]. split; [|split]; reflexivity.
  - rewrite (page_absent b card n Ht eq_refl Hn Hnew). cbn [complete].
    split; [exact Hhide|]. split; [|split]; reflexivity.
Qed.

Lemma X7_block_hides_card_witness :
  exists e,
    elementAt (document (complete true (NativeMenu.handleContextMenuAction (fooBlocker []))))
              [0; 0]%nat = Some e
    /\ isHiddenCard e = true.
Proof.
  refine (proj1 (X7_block_hides_card NativeMenu.handleContextMenuAction (fooBlocker [])
                   [0; 0]%nat (or_introl eq_refl) eq_refl _ _ _ eq_refl eq_refl)).
  - vm_compute. left. reflexivity.
  - vm_compute. discriminate.
  - intros [].
Defined.

Lemma occurrences_here (x : jsstring) (l : list jsstring) :
  occurrences x (x :: l) = S (occurrences x l).
Proof. unfold occurrences. cbn [List.filter]. rewrite str_eqb_refl. reflexivity. Qed.

(** X8: the title that the native menu item gets at a right click tells
    what the action then does with the list: "hide" and the name of the
    card is appended, "undo" and one entry is removed, no title (the name
    does not resolve) and the action changes nothing. *)
Theorem X8_menu_title_announces_action (card : path) (b : blocker) (ok : bool) :
  let b1 := NativeMenu.onContextMenu card b in
  let n := name (Menu.extractStreamerInfo (nodeAt (document b) card)) in
  let after := complete ok (NativeMenu.handleContextMenuAction b1) in
  match contextMenuTitle card b with
  | Some HideStreamer =>
      blockedStreamers (config after) = blockedStreamers (config b) ++ [n]
  | Some UnhideStreamer =>
      In n (blockedStreamers (config b))
      /\ S (length (blockedStreamers (config after))) = length (blockedStreamers (config b))
      /\ S (occurrences n (blockedStreamers (config after)))
         = occurrences n (blockedStreamers (config b))
  | None => after = b1
  end.
Proof.
  intros b1 n after. unfold contextMenuTitle. fold n.
  assert (Ht : contextTarget b1 = Some card) by reflexivity.
  assert (Hname : name (Menu.extractStreamerInfo (nodeAt (document b1) card)) = n)
    by reflexivity.
  destruct n as [|c n'] eqn:En.
  - cbn [isEmpty negb]. unfold after, NativeMenu.handleContextMenuAction.
    rewrite Ht, Hname. reflexivity.
  - rewrite <- En in *. assert (Hn : n <> []) by (rewrite En; discriminate).
    replace (isEmpty n) with false by (rewrite En; reflexivity). cbn [negb].
    destruct (arr_includes (blockedStreamers (config b)) n) eqn:E.
    + apply arr_includes_In in E. split; [exact E|].
      destruct (indexOf_split _ _ E) as (l1 & l2 & Hb & Hl1 & _).
      unfold after.
      rewrite (native_present b1 card n Ht Hname Hn l1 l2 Hb Hl1). cbn [complete].
      rewrite (proj1 (settle_native _ _ _)). cbn [config setStreamers blockedStreamers].
      rewrite Hb, !length_app, !occurrences_app, occurrences_here. cbn [length].
      split; lia.
    + assert (Hnew : ~ In n (blockedStreamers (config b1))).
      { intros H. apply arr_includes_In in H. cbn in H. congruence. }
      unfold after. rewrite (native_absent b1 card n Ht Hname Hn Hnew). cbn [complete].
      rewrite (proj1 (settle_native _ _ _)). reflexivity.
Qed.

(** ** Loading what was stored *)

Lemma storedList_written (l : list jsstring) (data : gmap string storedValue) :
  storedList ({[ "blockedStreamers"%string := StoredList l ]} ∪ data) "blockedStreamers"
  = Some l.
Proof.
  unfold storedList. rewrite lookup_union, lookup_singleton_eq.
  destruct (data !! "blockedStreamers"%string); reflexivity.
Qed.

Lemma storedList_other (l : list jsstring) (data : gmap string storedValue) (key : string) :
  key <> "blockedStreamers"%string ->
  storedList ({[ "blockedStreamers"%string := StoredList l ]} ∪ data) key
  = storedList data key.
Proof.
  intros H. unfold storedList. rewrite lookup_union_r; [reflexivity|].
  apply lookup_singleton_ne. congruence.
Qed.

Lemma storedFlag_other (l : list jsstring) (data : gmap string storedValue) (key : string) :
  key <> "blockedStreamers"%string ->
  storedFlag ({[ "blockedStreamers"%string := StoredList l ]} ∪ data) key
  = storedFlag data key.
Proof.
  intros H. unfold storedFlag. rewrite lookup_union_r; [reflexivity|].
  apply lookup_singleton_ne. congruence.
Qed.

(** X9: what a right-click action stores is what [loadSettings] reads
    back.  When an action has changed the list and its write has
    succeeded, a reload of the settings yields the list of blocked
    streamers that the script holds in memory; the tags and the switches it
    yields are those that a reload before the action would have
    yielded. *)
Theorem X9_store_load_round_trip (h : blocker -> async) (b before reloaded : blocker)
    (b1 : blocker) (items : gmap string storedValue) (k : bool -> blocker -> blocker) :
  h = NativeMenu.handleContextMenuAction \/ h = PageMenu.blockStreamerFromContext ->
  h b = AwaitSet b1 items k ->
  loadSettings true b = Some before ->
  loadSettings true (complete true (h b)) = Some reloaded ->
  blockedStreamers (config reloaded) = blockedStreamers (config (complete true (h b)))
  /\ blockedTags (config reloaded) = blockedTags (config before)
  /\ masterEnabled (config reloaded) = masterEnabled (config before)
  /\ streamerEnabled (config reloaded) = streamerEnabled (config before)
  /\ tagEnabled (config reloaded) = tagEnabled (config before).
Proof.
  intros Hh Hb Hbefore Hre.
  assert (Hshape : exists l, b1 = setStreamers l b
                             /\ items = {[ "blockedStreamers"%string := StoredList l ]}
                             /\ (k = NativeMenu.afterWrite \/ k = PageMenu.afterWrite)).
  { destruct Hh as [-> | ->].
    - unfold NativeMenu.handleContextMenuAction in Hb.
      destruct (contextTarget b); [|discriminate]. destruct (isEmpty _); [discriminate|].
      cbv zeta in Hb. injection Hb as <- <- <-. eauto.
    - unfold PageMenu.blockStreamerFromContext in Hb.
      destruct (contextTarget b); [|discriminate]. destruct (isEmpty _); [discriminate|].
      cbv zeta in Hb. destruct (negb _); [|discriminate]. injection Hb as <- <- <-. eauto. }
  destruct Hshape as (l & -> & -> & Hk). rewrite Hb in Hre. cbn [complete] in Hre.
  assert (Hst : storage (settle true {[ "blockedStreamers"%string := StoredList l ]} k
                           (setStreamers l b))
                = {[ "blockedStreamers"%string := StoredList l ]} ∪ storage b
                /\ blockedStreamers
                     (config (settle true {[ "blockedStreamers"%string := StoredList l ]} k
                                (setStreamers l b))) = l).
  { destruct Hk as [-> | ->]; split; reflexivity. }
  destruct Hst as (Hst & Hl). rewrite Hb. cbn [complete]. rewrite Hl.
  unfold loadSettings in Hre, Hbefore. cbv zeta in Hre, Hbefore.
  rewrite Hst, storedList_written, !storedList_other, !storedFlag_other in Hre
    by discriminate.
  destruct (storedList (storage b) "blockedStreamers"); [|discriminate].
  destruct (storedList (storage b) "blockedTags"); [|discriminate].
  injection Hre as <-. injection Hbefore as <-. cbn. auto.
Qed.

Lemma X9_store_load_round_trip_witness :
  exists reloaded,
    loadSettings true (complete true (NativeMenu.handleContextMenuAction (fooBlocker [])))
    = Some reloaded
    /\ blockedStreamers (config reloaded) = [lit "Foo"].
Proof.
  eexists. split; [reflexivity|].
  exact (proj1 (X9_store_load_round_trip NativeMenu.handleContextMenuAction
                  (fooBlocker []) _ _ _ _ _ (or_introl eq_refl) eq_refl eq_refl eq_refl)).
Defined.

(** ** Bounds on the extracted record *)

Lemma nameStep_bounded (words : list jsstring) (info : streamerInfo)
    (cl : list jsstring) (t : jsstring) :
  (length (name info) < 50)%nat -> (length (name (nameStep words info cl t)) < 50)%nat.
Proof.
  intros H. unfold nameStep. destruct (_ || _); [|exact H].
  destruct (_ && _) eqn:E; [|exact H]. cbn [name].
  apply andb_true_iff in E as [E _]. apply andb_true_iff in E as [_ E].
  apply Nat.ltb_lt in E. exact E.
Qed.

Lemma NoDup_snoc (l : list jsstring) (x : jsstring) :
  List.NoDup l -> ~ In x l -> List.NoDup (l ++ [x]).
Proof.
  induction 1 as [|y l Hy Hl IH]; intros Hx; cbn [app].
  - constructor; [intros []|constructor].
  - constructor.
    + intros H. apply in_app_or in H as [H|[<-|[]]]; [contradiction|].
      apply Hx. left. reflexivity.
    + apply IH. intros H. apply Hx. right. exact H.
Qed.

Lemma tagStep_bounded (info : streamerInfo) (cl : list jsstring) (t : jsstring) :
  List.NoDup (tags info) -> Forall (fun tag => 0 < length tag < 20)%nat (tags info) ->
  List.NoDup (tags (tagStep info cl t))
  /\ Forall (fun tag => 0 < length tag < 20)%nat (tags (tagStep info cl t)).
Proof.
  intros Hn Hf. unfold tagStep. destruct (_ || _); [|auto].
  destruct (_ && _) eqn:E; [|auto]. cbn [tags].
  apply andb_true_iff in E as [E E3]. apply andb_true_iff in E as [E1 E2].
  apply Nat.ltb_lt in E1, E2. apply negb_true_iff in E3. split.
  - apply NoDup_snoc; [exact Hn|]. intros Hx. apply arr_includes_In in Hx. congruence.
  - apply Forall_app. split; [exact Hf|]. constructor; [lia|constructor].
Qed.

Lemma pushWords_bounded (ws : list jsstring) (info : streamerInfo) :
  Forall (fun w => 0 < length w < 20)%nat ws ->
  List.NoDup (tags info) -> Forall (fun tag => 0 < length tag < 20)%nat (tags info) ->
  let info' :=
    fold_left (fun info word =>
                 if negb (arr_includes (tags info) word)
                 then Info (name info) (title info) (tags info ++ [word])
                 else info) ws info in
  List.NoDup (tags info') /\ Forall (fun tag => 0 < length tag < 20)%nat (tags info').
Proof.
  intros Hws. revert info. induction Hws as [|w ws Hw _ IH]; intros info Hn Hf;
    cbn [fold_left]; [auto|].
  destruct (arr_includes (tags info) w) eqn:E; cbn [negb]; [apply IH; assumption|].
  apply IH; cbn [tags].
  - apply NoDup_snoc; [exact Hn|]. intros Hx. apply arr_includes_In in Hx. congruence.
  - apply Forall_app. split; [exact Hf|]. constructor; [exact Hw|constructor].
Qed.

Lemma titleWords_lengths (t : jsstring) :
  Forall (fun w => 0 < length w < 20)%nat (titleWords t).
Proof.
  apply Forall_forall. intros w Hw. apply list_elem_of_In in Hw.
  apply titleWords_In in Hw as (_ & Hl & _). lia.
Qed.

Lemma pushTitleWords_bounded (info : streamerInfo) :
  List.NoDup (tags info) -> Forall (fun tag => 0 < length tag < 20)%nat (tags info) ->
  List.NoDup (tags (pushTitleWords info))
  /\ Forall (fun tag => 0 < length tag < 20)%nat (tags (pushTitleWords info)).
Proof.
  intros Hn Hf. unfold pushTitleWords. destruct (negb _); [|auto].
  apply pushWords_bounded; [apply titleWords_lengths|exact Hn|exact Hf].
Qed.

Lemma takeRun_spec (cls : N -> bool) (max : nat) (s : jsstring) :
  (exists rest, s = takeRun cls max s ++ rest)
  /\ forallb cls (takeRun cls max s) = true
  /\ (length (takeRun cls max s) <= max)%nat.
Proof.
  revert s. induction max as [|m IH]; intros s; cbn [takeRun].
  - split; [exists s; reflexivity|split; [reflexivity|cbn; lia]].
  - destruct s as [|c s]; [split; [exists []; reflexivity|split; [reflexivity|cbn; lia]]|].
    destruct (cls c) eqn:E.
    + destruct (IH s) as ([rest Hr] & Hf & Hl). split; [|split].
      * exists rest. cbn. rewrite <- Hr. reflexivity.
      * cbn [forallb]. rewrite E, Hf. reflexivity.
      * cbn [length]. lia.
    + split; [exists (c :: s); reflexivity|split; [reflexivity|cbn; lia]].
Qed.

(** What [s.match(/[cls]{lo,hi}/)] returns is a piece of [s] made of [lo]
    to [hi] code units of the class. *)
Lemma matchRun_Some (cls : N -> bool) (lo hi : nat) (s r : jsstring) :
  matchRun cls lo hi s = Some r ->
  contains s r /\ forallb cls r = true /\ (lo <= length r <= hi)%nat.
Proof.
  induction s as [|c s IH]; cbn [matchRun].
  - destruct (lo <=? length (takeRun cls hi []))%nat eqn:E; [|discriminate].
    intros [= <-]. apply Nat.leb_le in E.
    destruct (takeRun_spec cls hi []) as ([rest Hr] & Hf & Hl).
    split; [exists [], rest; exact Hr|auto].
  - destruct (lo <=? length (takeRun cls hi (c :: s)))%nat eqn:E.
    + intros [= <-]. apply Nat.leb_le in E.
      destruct (takeRun_spec cls hi (c :: s)) as ([rest Hr] & Hf & Hl).
      split; [exists [], rest; exact Hr|auto].
    + intros H. destruct (IH H) as ((pre & post & ->) & Hf & Hl).
      split; [exists (c :: pre), post; reflexivity|auto].
Qed.

Lemma fallbackName_bounded (card : node) (info : streamerInfo) :
  (length (name info) < 50)%nat -> (length (name (fallbackName card info)) < 50)%nat.
Proof.
  intros H. destruct (fallbackName_fields card info) as (_ & _ & [->|[_ [E|E]]]);
    [exact H| |]; apply matchRun_Some in E as (_ & _ & Hl); lia.
Qed.

Lemma Content_scanElement_bounded (info : streamerInfo) (d : node) :
  recordBounded info -> recordBounded (Content.scanElement info d).
Proof.
  intros (Hn & Hd & Hf). unfold Content.scanElement. destruct (isEmpty _); [split; auto|].
  cbv zeta. set (cl := nodeClassList d). set (t := trim (textContent d)).
  set (i1 := nameStep Content.nameBoilerplate info cl t). set (i2 := titleStep i1 cl t).
  destruct (nameStep_fields Content.nameBoilerplate info cl t) as (_ & Eg1 & _).
  destruct (titleStep_fields i1 cl t) as (En2 & Eg2 & _).
  destruct (tagStep_fields i2 cl t) as (En3 & _ & _). fold i1 in Eg1. fold i2 in En2, Eg2.
  unfold recordBounded. rewrite En3, En2. split; [apply nameStep_bounded; exact Hn|].
  apply tagStep_bounded; rewrite Eg2, Eg1; assumption.
Qed.

Lemma Menu_scanName_bounded (info : streamerInfo) (d : node) :
  recordBounded info -> recordBounded (Menu.scanName info d).
Proof.
  intros (Hn & Hd & Hf). unfold Menu.scanName. destruct (isEmpty _); [split; auto|].
  destruct (nameStep_fields Menu.nameBoilerplate info (nodeClassList d) (trim (textContent d)))
    as (_ & Eg & _).
  unfold recordBounded. rewrite Eg. split; [apply nameStep_bounded; exact Hn|auto].
Qed.

Lemma Menu_scanTitleTags_bounded (info : streamerInfo) (d : node) :
  recordBounded info -> recordBounded (Menu.scanTitleTags info d).
Proof.
  intros (Hn & Hd & Hf). unfold Menu.scanTitleTags. destruct (isEmpty _); [split; auto|].
  cbv zeta. set (cl := nodeClassList d). set (t := trim (textContent d)).
  set (i1 := titleStep info cl t).
  destruct (titleStep_fields info cl t) as (En1 & Eg1 & _). fold i1 in En1, Eg1.
  destruct (tagStep_fields i1 cl t) as (En2 & _ & _).
  unfold recordBounded. rewrite En2, En1. split; [exact Hn|].
  apply tagStep_bounded; rewrite Eg1; assumption.
Qed.

Lemma finish_bounded (card : node) (info : streamerInfo) :
  recordBounded info -> recordBounded (fallbackName card (pushTitleWords info)).
Proof.
  intros (Hn & Hd & Hf). destruct (pushTitleWords_fields info) as (En & _ & _).
  destruct (fallbackName_fields card (pushTitleWords info)) as (_ & Eg & _).
  unfold recordBounded. rewrite Eg. split.
  - apply fallbackName_bounded. rewrite En. exact Hn.
  - apply pushTitleWords_bounded; assumption.
Qed.

Lemma empty_bounded : recordBounded (Info [] [] []).
Proof. split; [cbn; lia|split; constructor]. Qed.

(** X10: every record that the extractor returns has a name of fewer
    than 50 code units and a list of tags without duplicates, each tag of
    1 to 19 code units. *)
Theorem X10_record_bounds (extract : node -> streamerInfo) (card : node) :
  extract = Content.extractStreamerInfo \/ extract = Menu.extractStreamerInfo ->
  (length (name (extract card)) < 50)%nat
  /\ List.NoDup (tags (extract card))
  /\ Forall (fun tag => 0 < length tag < 20)%nat (tags (extract card)).
Proof.
  intros [-> | ->].
  - unfold Content.extractStreamerInfo. cbv zeta. apply finish_bounded.
    apply fold_left_invariant; [|exact empty_bounded].
    intros info d _. apply Content_scanElement_bounded.
  - unfold Menu.extractStreamerInfo. cbv zeta. apply finish_bounded.
    apply fold_left_invariant; [intros info d _; apply Menu_scanTitleTags_bounded|].
    assert (H0 : recordBounded (Menu.fromNameText card (Info [] [] []))).
    { unfold Menu.fromNameText. destruct (Menu.nameTextElement card); [|exact empty_bounded].
      destruct (_ && _) eqn:E; [|exact empty_bounded].
      apply andb_true_iff in E as [_ E]. apply Nat.ltb_lt in E.
      split; [exact E|split; constructor]. }
    destruct (isEmpty _); [|exact H0].
    apply fold_left_invariant; [intros info d _; apply Menu_scanName_bounded|exact H0].
Qed.

Lemma X10_record_bounds_witness :
  (length (name (Menu.extractStreamerInfo exampleCard)) < 50)%nat
  /\ List.NoDup (tags (Menu.extractStreamerInfo exampleCard))
  /\ Forall (fun tag => 0 < length tag < 20)%nat (tags (Menu.extractStreamerInfo exampleCard)).
Proof.
  exact (X10_record_bounds Menu.extractStreamerInfo exampleCard (or_intror eq_refl)).
Defined.

(** X11: the fallback for the name.  A name that the fallback sets is a
    piece of the text of the card: 2 to 8 Hangul syllables, or, only when
    the text has no two Hangul syllables in a row, 3 to 15 Latin letters,
    and never one of the excluded words.  When the first Hangul run is an
    excluded word the name stays empty; the Latin run is not tried. *)
Theorem X11_fallback_name (card : node) (info : streamerInfo) :
  name info = [] ->
  let n := name (fallbackName card info) in
  let text := textContent card in
  (n <> [] ->
   contains text n
   /\ ((forallb isHangul n = true /\ (2 <= length n <= 8)%nat /\ ~ In n commonKorean)
       \/ (forallb isLatinLetter n = true /\ (3 <= length n <= 15)%nat
           /\ ~ In n commonEnglish /\ matchRun isHangul 2 8 text = None)))
  /\ (forall w, matchRun isHangul 2 8 text = Some w -> In w commonKorean -> n = []).
Proof.
  intros En n text. unfold n, fallbackName. rewrite En. cbn [isEmpty]. cbv zeta.
  fold text. fold commonKorean. fold commonEnglish.
  destruct (matchRun isHangul 2 8 text) as [w|] eqn:Ek.
  - destruct (arr_includes commonKorean w) eqn:Ex; cbn [negb name].
    + rewrite En. split; [congruence|auto].
    + split.
      * intros _. apply matchRun_Some in Ek as (Hc & Hf & Hl). split; [exact Hc|].
        left. split; [exact Hf|split; [exact Hl|]]. intros H.
        apply arr_includes_In in H. congruence.
      * intros w' [= <-] H. apply arr_includes_In in H. congruence.
  - destruct (matchRun isLatinLetter 3 15 text) as [w|] eqn:El.
    + destruct (arr_includes commonEnglish w) eqn:Ex; cbn [negb name].
      * rewrite En. split; [congruence|discriminate].
      * split; [|discriminate].
        intros _. apply matchRun_Some in El as (Hc & Hf & Hl). split; [exact Hc|].
        right. split; [exact Hf|split; [exact Hl|split; [|reflexivity]]]. intros H.
        apply arr_includes_In in H. congruence.
    + rewrite En. split; [congruence|discriminate].
Qed.

Lemma X11_fallback_name_witness :
  name (fallbackName (exampleElem "li" [] [Text [46972; 51060; 48652; 32; 78; 111; 118; 97]])
                     (Info [] [] []))
  = [].
Proof.
  exact (proj2 (X11_fallback_name
                  (exampleElem "li" [] [Text [46972; 51060; 48652; 32; 78; 111; 118; 97]])
                  (Info [] [] []) eq_refl)
           w_live eq_refl (or_introl eq_refl)).
Defined.

(** ** Installation and loading *)

Lemma onInstalled_lookup (reason : string) (data : gmap string storedValue) (key : string) :
  key <> "blockedItems"%string -> key <> "isEnabled"%string ->
  onInstalled reason data !! key = data !! key.
Proof.
  intros H1 H2. unfold onInstalled. destruct (bool_decide _); [|reflexivity].
  apply lookup_union_r. rewrite lookup_insert_ne by congruence.
  apply lookup_singleton_ne. congruence.
Qed.

(** X12: the two keys that the background script stores at installation
    are not among the keys that the content script loads: whatever the
    storage area holds, [loadSettings] yields the same settings after
    [onInstalled] as before, and on an empty storage area it yields the
    defaults, all three switches on and both lists empty. *)
Theorem X12_install_keys_unused (reason : string) (ok : bool) (b : blocker) :
  option_map config (loadSettings ok (setStorage (onInstalled reason (storage b)) b))
  = option_map config (loadSettings ok b)
  /\ option_map config (loadSettings true (setStorage (onInstalled "install" ∅) b))
     = Some (Settings true true true [] []).
Proof.
  split; [|reflexivity]. unfold loadSettings. destruct ok; [|reflexivity].
  cbv zeta. cbn [storage setStorage]. unfold storedList, storedFlag.
  rewrite !onInstalled_lookup by discriminate.
  destruct (storage b !! "blockedStreamers"%string) as [[[]|]|];
    destruct (storage b !! "blockedTags"%string) as [[[]|]|]; reflexivity.
Qed.

(** ** Messages and triggers *)

Section Messages.

Variable extract : node -> streamerInfo.
Hypothesis extract_unseen :
  forall g, (forall q, cosmetic (g q)) ->
  forall card, extract (mapElems g card) = extract card.

Lemma reapply_idempotent (b : blocker) :
  reapply extract (reapply extract b) = reapply extract b.
Proof.
  unfold reapply, setDocument. cbn [config document contextTarget storage].
  rewrite (applyBlocking_idempotent extract extract_unseen). reflexivity.
Qed.

Lemma periodicCheck_reapply (b : blocker) :
  periodicCheck extract (reapply extract b) = reapply extract b.
Proof.
  unfold periodicCheck. destruct (_ && _); [apply reapply_idempotent|reflexivity].
Qed.

Lemma onMessage_idempotent (m : message) (b : blocker) :
  onMessage extract m (onMessage extract m b) = onMessage extract m b.
Proof.
  destruct m as [s|bs bt| |a]; cbn [onMessage]; try reflexivity.
  - unfold reapply, setConfig, setDocument. cbn [config document contextTarget storage].
    rewrite (applyBlocking_idempotent extract extract_unseen). reflexivity.
  - destruct bs as [bs|], bt as [bt|]; cbv zeta;
      unfold reapply, setConfig, setStreamers, setDocument;
      cbn [config document contextTarget storage masterEnabled streamerEnabled tagEnabled
           blockedStreamers blockedTags];
      rewrite (applyBlocking_idempotent extract extract_unseen); reflexivity.
Qed.

Lemma periodicCheck_onMessage (m : message) (b : blocker) :
  (forall a, m <> OtherAction a) -> m <> HandleContextMenu ->
  periodicCheck extract (onMessage extract m b) = onMessage extract m b.
Proof.
  intros H1 H2. destruct m as [s|bs bt| |a]; cbn [onMessage]; try congruence.
  - apply periodicCheck_reapply.
  - cbv zeta. apply periodicCheck_reapply.
Qed.

End Messages.

(** X13: handling a settings message is idempotent, replaces exactly what
    the message carries, and leaves nothing for the periodic check to do:
    the same message handled twice gives what it gives handled once, an
    [updateBlockSettings] message leaves its settings as the settings of
    the script, an [updateBlockList] message changes no switch, and a
    periodic check right after an update changes nothing. *)
Theorem X13_update_messages (extract : node -> streamerInfo) (m : message) (b : blocker) :
  extract = Content.extractStreamerInfo \/ extract = Menu.extractStreamerInfo ->
  onMessage extract m (onMessage extract m b) = onMessage extract m b
  /\ (forall s, m = UpdateBlockSettings s -> config (onMessage extract m b) = s)
  /\ (forall bs bt, m = UpdateBlockList bs bt ->
        let st := config (onMessage extract m b) in
        masterEnabled st = masterEnabled (config b)
        /\ streamerEnabled st = streamerEnabled (config b)
        /\ tagEnabled st = tagEnabled (config b)
        /\ blockedStreamers st = default (blockedStreamers (config b)) bs
        /\ blockedTags st = default (blockedTags (config b)) bt)
  /\ ((exists s, m = UpdateBlockSettings s) \/ (exists bs bt, m = UpdateBlockList bs bt) ->
      periodicCheck extract (onMessage extract m b) = onMessage extract m b)
  /\ storage (onMessage extract m b) = storage b
  /\ contextTarget (onMessage extract m b) = contextTarget b.
Proof.
  intros Hx. pose proof (our_extractors extract Hx) as Hu.
  split; [apply onMessage_idempotent; exact Hu|]. split; [|split; [|split; [|split]]].
  - intros s ->. reflexivity.
  - intros bs bt ->. destruct bs, bt; cbn; auto.
  - intros [[s ->]|(bs & bt & ->)]; apply periodicCheck_onMessage;
      solve [exact Hu|discriminate].
  - destruct m as [s|[bs|] [bt|]| |a]; reflexivity.
  - destruct m as [s|[bs|] [bt|]| |a]; reflexivity.
Qed.

Lemma X13_update_messages_witness :
  periodicCheck Content.extractStreamerInfo
    (onMessage Content.extractStreamerInfo (UpdateBlockList (Some [lit "Luna"]) None)
               (Blocker blockNova None exampleDoc ∅))
  = onMessage Content.extractStreamerInfo (UpdateBlockList (Some [lit "Luna"]) None)
              (Blocker blockNova None exampleDoc ∅).
Proof.
  refine (proj1 (proj2 (proj2 (proj2 (X13_update_messages Content.extractStreamerInfo
                                         (UpdateBlockList (Some [lit "Luna"]) None)
                                         (Blocker blockNova None exampleDoc ∅)
                                         (or_introl eq_refl))))) _).
  right. exists (Some [lit "Luna"]), None. reflexivity.
Defined.

(** ** The mutation observer *)

Lemma contains_trans (s t u : jsstring) : contains s t -> contains t u -> contains s u.
Proof.
  intros (p1 & q1 & ->) (p2 & q2 & ->). exists (p1 ++ p2), (q2 ++ q1).
  rewrite <- !app_assoc. reflexivity.
Qed.

Lemma includes_trans (s t u : jsstring) :
  includes s t = true -> includes t u = true -> includes s u = true.
Proof. rewrite !includes_spec. apply contains_trans. Qed.

Lemma classContains_weaken (x y : jsstring) (e : element) :
  includes x y = true ->
  matchesCond (ClassContains x) e = true -> matchesCond (ClassContains y) e = true.
Proof.
  intros Hxy. cbn [matchesCond]. rewrite !some_exists.
  intros (tok & Hin & H). exists tok. split; [exact Hin|]. eapply includes_trans; eassumption.
Qed.

Lemma hasClass_contains (c y : jsstring) (e : element) :
  includes c y = true ->
  matchesCond (HasClass c) e = true -> matchesCond (ClassContains y) e = true.
Proof.
  intros Hcy. cbn [matchesCond]. rewrite arr_includes_In, some_exists.
  intros Hin. exists c. auto.
Qed.

Lemma matchesSelector_cond (ty : option string) (c : classCond) (e : element) :
  matchesSelector (sel ty c) e = true -> matchesCond c e = true.
Proof.
  unfold matchesSelector. cbn [sel sel_type sel_cond]. intros H.
  apply andb_true_iff in H as [_ H]. exact H.
Qed.

Lemma matchesSelector_any (c : classCond) (e : element) :
  matchesCond c e = true -> matchesSelector (sel None c) e = true.
Proof. intros H. exact H. Qed.

Ltac in_list := cbn [In]; repeat (first [left; reflexivity | right]).

Ltac same_cond H :=
  eexists; split; [|apply matchesSelector_any; exact H]; in_list.

Ltac wider_cond H y :=
  exists (sel None (ClassContains (lit y))); split; [in_list|];
  apply matchesSelector_any;
  first [eapply classContains_weaken; [|exact H]; reflexivity
        |eapply hasClass_contains; [|exact H]; reflexivity].

(** Every element that a query of the catalog matches is matched by a
    selector of the observer and by one of [isStreamCard]. *)
Lemma catalog_covered (s : selector) (e : element) :
  In s selectors -> matchesSelector s e = true ->
  (exists s', In s' streamCardSelectors /\ matchesSelector s' e = true)
  /\ (exists s', In s' cardSelectors /\ matchesSelector s' e = true).
Proof.
  intros Hs Hm. unfold selectors in Hs. cbn [In] in Hs.
  destruct Hs as [<-|[<-|[<-|[<-|[<-|[<-|[<-|[<-|[<-|[<-|[]]]]]]]]]]];
    apply matchesSelector_cond in Hm; (split; [same_cond Hm|]).
  - same_cond Hm.
  - same_cond Hm.
  - wider_cond Hm "card"%string.
  - wider_cond Hm "card"%string.
  - wider_cond Hm "item"%string.
  - wider_cond Hm "card"%string.
  - wider_cond Hm "card"%string.
  - same_cond Hm.
  - same_cond Hm.
  - same_cond Hm.
Qed.

Lemma matchesOrContains_elements (n : node) (s : selector) (p : path) (d : node) :
  In (p, d) (elements n) -> nodeMatches s d = true -> matchesOrContains n s = true.
Proof.
  intros Hin Hm. unfold matchesOrContains. destruct n as [t|e ks]; [destruct Hin|].
  rewrite elements_Elem in Hin. destruct Hin as [[= <- <-]|Hin].
  - rewrite Hm. reflexivity.
  - apply orb_true_iff. right. unfold querySelector. cbn [descendants].
    assert (H : In d (List.filter (nodeMatches s) (map snd (elementsFrom 0 ks)))).
    { apply filter_In. split; [|exact Hm]. apply in_map_iff. exists (p, d). auto. }
    destruct (List.filter _ _); [destruct H|reflexivity].
Qed.

(** X14: the observer misses no card.  When a child-list mutation adds an
    element node that is, or contains, an element that a query of the scan
    matches, the callback schedules a pass; [isStreamCard] says yes for
    such a node as well. *)
Theorem X14_observer_misses_no_card (mutations : list mutation) (m : mutation)
    (added : node) (p : path) (e : element) (ks : list node) (s : selector) :
  In m mutations -> isChildList m = true -> In added (addedNodes m) ->
  In (p, Elem e ks) (elements added) ->
  In s selectors -> matchesSelector s e = true ->
  observerCallback mutations = true /\ isStreamCard added = true.
Proof.
  intros Hm Hc Hn Hin Hs Hmatch.
  destruct (catalog_covered s e Hs Hmatch) as ((s1 & Hs1 & Hm1) & (s2 & Hs2 & Hm2)).
  split.
  - unfold observerCallback. apply some_exists. exists m. split; [exact Hm|].
    rewrite Hc. cbn [andb]. apply andb_true_iff. split.
    + apply Nat.ltb_lt. destruct (addedNodes m); [destruct Hn|cbn; lia].
    + apply some_exists. exists added. split; [exact Hn|]. apply andb_true_iff. split.
      * destruct added; [destruct Hin|reflexivity].
      * apply some_exists. exists s1. split; [exact Hs1|].
        eapply matchesOrContains_elements; [exact Hin|exact Hm1].
  - unfold isStreamCard. apply some_exists. exists s2. split; [exact Hs2|].
    eapply matchesOrContains_elements; [exact Hin|exact Hm2].
Qed.

Lemma X14_observer_misses_no_card_witness :
  observerCallback [Mutation true [exampleElem "ul" [] [exampleCard]]] = true.
Proof.
  refine (proj1 (X14_observer_misses_no_card _
                   (Mutation true [exampleElem "ul" [] [exampleCard]])
                   (exampleElem "ul" [] [exampleCard]) [0]%nat
                   (Element "li" [lit "navigation_component_item__iMPOI"] ∅) _
                   (sel (Some "li"%string)
                        (HasClass (lit "navigation_component_item__iMPOI")))
                   _ eq_refl _ _ _ eq_refl)).
  - left. reflexivity.
  - left. reflexivity.
  - right. left. reflexivity.
  - right. left. reflexivity.
Defined.

(** ** Cleaned text and title words *)

Lemma trimStart_head (s : jsstring) :
  match trimStart s with
  | c :: _ => isWhiteSpace c = false
  | [] => True
  end.
Proof.
  induction s as [|c s IH]; cbn [trimStart]; [exact I|].
  destruct (isWhiteSpace c) eqn:E; [exact IH|exact E].
Qed.

Lemma trimStart_fixed (c : N) (s : jsstring) :
  isWhiteSpace c = false -> trimStart (c :: s) = c :: s.
Proof. intros H. cbn [trimStart]. rewrite H. reflexivity. Qed.

Lemma trimStart_idemp (s : jsstring) : trimStart (trimStart s) = trimStart s.
Proof.
  pose proof (trimStart_head s) as H. destruct (trimStart s) as [|c u]; [reflexivity|].
  apply trimStart_fixed. exact H.
Qed.

Lemma trimStart_snoc (s : jsstring) (c : N) :
  isWhiteSpace c = false -> trimStart (s ++ [c]) = trimStart s ++ [c].
Proof.
  intros H. induction s as [|a s IH]; cbn [app trimStart]; [rewrite H; reflexivity|].
  destruct (isWhiteSpace a); [exact IH|reflexivity].
Qed.

Lemma trimEnd_cons (c : N) (s : jsstring) :
  isWhiteSpace c = false -> trimEnd (c :: s) = c :: trimEnd s.
Proof.
  intros H. unfold trimEnd. cbn [rev]. rewrite (trimStart_snoc _ _ H), rev_app_distr.
  reflexivity.
Qed.

Lemma trimEnd_idemp (s : jsstring) : trimEnd (trimEnd s) = trimEnd s.
Proof. unfold trimEnd. rewrite rev_involutive, trimStart_idemp. reflexivity. Qed.

Lemma trim_idemp (s : jsstring) : trim (trim s) = trim s.
Proof.
  unfold trim. pose proof (trimStart_head s) as H.
  destruct (trimStart s) as [|c u]; [reflexivity|].
  rewrite (trimEnd_cons c u H), (trimStart_fixed c _ H), <- (trimEnd_cons c u H).
  apply trimEnd_idemp.
Qed.

Lemma singleSpaced_weaken (after : bool) (s : jsstring) :
  singleSpaced after s = true -> singleSpaced false s = true.
Proof.
  destruct s as [|c s]; [reflexivity|]. cbn [singleSpaced].
  destruct (isWhiteSpace c); [|auto]. destruct after; [discriminate|auto].
Qed.

Lemma collapseSpaces_singleSpaced (inRun : bool) (s : jsstring) :
  singleSpaced inRun (collapseSpaces inRun s) = true.
Proof.
  revert inRun. induction s as [|c s IH]; intros inRun; [reflexivity|].
  cbn [collapseSpaces]. destruct (isWhiteSpace c) eqn:E.
  - destruct inRun; [apply IH|]. cbn [singleSpaced].
    change (isWhiteSpace 32) with true. cbn. apply IH.
  - cbn [singleSpaced]. rewrite E. apply IH.
Qed.

Lemma singleSpaced_suffix (after : bool) (pre s : jsstring) :
  singleSpaced after (pre ++ s) = true -> singleSpaced false s = true.
Proof.
  revert after. induction pre as [|c pre IH]; intros after; cbn [app].
  - apply singleSpaced_weaken.
  - cbn [singleSpaced]. destruct (isWhiteSpace c); [|apply IH].
    intros H. apply andb_true_iff in H as [_ H]. revert H. apply IH.
Qed.

Lemma singleSpaced_prefix (after : bool) (s post : jsstring) :
  singleSpaced after (s ++ post) = true -> singleSpaced after s = true.
Proof.
  revert after. induction s as [|c s IH]; intros after; [reflexivity|].
  cbn [app singleSpaced]. destruct (isWhiteSpace c); [|apply IH].
  intros H. apply andb_true_iff in H as [H1 H]. rewrite H1. apply IH. exact H.
Qed.

Lemma singleSpaced_trim (s : jsstring) :
  singleSpaced false s = true -> singleSpaced false (trim s) = true.
Proof.
  intros H. destruct (contains_trim s) as (pre & post & E). rewrite E in H.
  apply singleSpaced_suffix in H. apply singleSpaced_prefix in H. exact H.
Qed.

(** X15: the text that the extractor cleans for a name or a title has no
    white space at either end, and every white-space code unit in it is a
    single SPACE: trimming it again changes nothing, and no run of white
    space and no tab or line break is left. *)
Theorem X15_cleanText_normalised (words : list jsstring) (text : jsstring) :
  trim (cleanText words text) = cleanText words text
  /\ singleSpaced false (cleanText words text) = true.
Proof.
  unfold cleanText. split; [apply trim_idemp|].
  apply singleSpaced_trim. apply collapseSpaces_singleSpaced.
Qed.

Lemma splitWords_spec (cur : jsstring) (inSep : bool) (s w : jsstring) :
  separatorFree cur = true -> In w (splitWords cur inSep s) ->
  separatorFree w = true /\ contains (cur ++ s) w.
Proof.
  revert cur inSep. induction s as [|c s IH]; intros cur inSep Hcur; cbn [splitWords].
  - intros [<-|[]]. split; [exact Hcur|]. exists [], []. reflexivity.
  - destruct (isSeparator c) eqn:E.
    + assert (Hrest : In w (splitWords [] true s) ->
                      separatorFree w = true /\ contains (cur ++ c :: s) w).
      { intros H. destruct (IH [] true eq_refl H) as (Hf & pre & post & Hc).
        split; [exact Hf|]. exists (cur ++ c :: pre), post. cbn [app] in Hc.
        rewrite Hc, <- app_assoc. reflexivity. }
      destruct inSep; [exact Hrest|]. intros [<-|H]; [|apply Hrest; exact H].
      split; [exact Hcur|]. exists [], (c :: s). reflexivity.
    + intros H. assert (Hcur' : separatorFree (cur ++ [c]) = true).
      { unfold separatorFree. rewrite forallb_app. cbn [forallb].
        unfold separatorFree in Hcur. rewrite Hcur, E. reflexivity. }
      destruct (IH (cur ++ [c]) false Hcur' H) as (Hf & Hc). split; [exact Hf|].
      rewrite <- app_assoc in Hc. exact Hc.
Qed.

(** X16: the tags taken from the title are pieces of the title of 2 to 9
    code units that contain no white space, comma, bracket or parenthesis
    and are no stop word. *)
Theorem X16_title_words (t w : jsstring) :
  In w (titleWords t) ->
  contains t w /\ separatorFree w = true /\ (2 <= length w <= 9)%nat
  /\ isStopWord w = false.
Proof.
  intros H. apply titleWords_In in H as (Hs & Hl & Hstop).
  destruct (splitWords_spec [] false t w eq_refl Hs) as (Hf & Hc). auto.
Qed.

Lemma X16_title_words_witness :
  In (lit "RPG") (titleWords (lit "Playing [RPG] the game"))
  /\ contains (lit "Playing [RPG] the game") (lit "RPG").
Proof.
  assert (H : In (lit "RPG") (titleWords (lit "Playing [RPG] the game"))).
  { vm_compute. right. left. reflexivity. }
  split; [exact H|]. exact (proj1 (X16_title_words _ _ H)).
Defined.

(** ** Two toggles *)

Lemma settings_eta (st : settings) :
  Settings (masterEnabled st) (streamerEnabled st) (tagEnabled st)
           (blockedStreamers st) (blockedTags st) = st.
Proof. destruct st; reflexivity. Qed.

(** X17: the native menu entry used twice on the same card, each write
    succeeding, is a round trip for a name that was not blocked: the second
    use removes the entry that the first one appended, so the settings are
    as before, the storage holds the original list under
    "blockedStreamers", and no other key of the storage has changed. *)
Theorem X17_toggle_twice (b : blocker) (card : path) :
  let n := name (Menu.extractStreamerInfo (nodeAt (document b) card)) in
  let toggle := fun b' =>
    complete true (NativeMenu.handleContextMenuAction (NativeMenu.onContextMenu card b')) in
  n <> [] -> ~ In n (blockedStreamers (config b)) ->
  config (toggle (toggle b)) = config b
  /\ storage (toggle (toggle b)) !! "blockedStreamers"%string
     = Some (StoredList (blockedStreamers (config b)))
  /\ (forall k, k <> "blockedStreamers"%string ->
                storage (toggle (toggle b)) !! k = storage b !! k).
Proof.
  intros n toggle Hn Hnew.
  assert (E1 : toggle b =
               settle true {[ "blockedStreamers"%string :=
                                StoredList (blockedStreamers (config b) ++ [n]) ]}
                      NativeMenu.afterWrite
                      (setStreamers (blockedStreamers (config b) ++ [n])
                                    (NativeMenu.onContextMenu card b))).
  { unfold toggle.
    rewrite (native_absent (NativeMenu.onContextMenu card b) card n eq_refl eq_refl Hn Hnew).
    reflexivity. }
  set (b1 := toggle b) in *.
  assert (Hname : name (Menu.extractStreamerInfo
                          (nodeAt (document (NativeMenu.onContextMenu card b1)) card)) = n).
  { rewrite E1. cbn. rewrite Menu_extract_applyBlocking. reflexivity. }
  assert (Hlist : blockedStreamers (config (NativeMenu.onContextMenu card b1))
                  = blockedStreamers (config b) ++ n :: []).
  { rewrite E1. reflexivity. }
  assert (E2 : toggle b1 =
               settle true {[ "blockedStreamers"%string :=
                                StoredList (blockedStreamers (config b) ++ []) ]}
                      NativeMenu.afterWrite
                      (setStreamers (blockedStreamers (config b) ++ [])
                                    (NativeMenu.onContextMenu card b1))).
  { unfold toggle.
    rewrite (native_present (NativeMenu.onContextMenu card b1) card n eq_refl Hname Hn
               (blockedStreamers (config b)) [] Hlist Hnew).
    reflexivity. }
  rewrite E2, app_nil_r. split; [|split].
  - rewrite E1. cbn. apply settings_eta.
  - cbn. rewrite lookup_union, lookup_singleton_eq.
    destruct (storage b1 !! "blockedStreamers"%string); reflexivity.
  - intros k Hk. cbn. rewrite lookup_union, lookup_singleton_ne by congruence.
    rewrite E1. cbn. rewrite lookup_union, lookup_singleton_ne by congruence.
    destruct (storage b !! k); reflexivity.
Qed.

Lemma X17_toggle_twice_witness :
  config (complete true (NativeMenu.handleContextMenuAction
            (NativeMenu.onContextMenu [0; 0]%nat
               (complete true (NativeMenu.handleContextMenuAction
                  (NativeMenu.onContextMenu [0; 0]%nat (fooBlocker [])))))))
  = config (fooBlocker []).
Proof.
  refine (proj1 (X17_toggle_twice (fooBlocker []) [0; 0]%nat _ _)).
  - vm_compute. discriminate.
  - intros [].
Defined.
